(** * tex2pdf: a shallow embedding of the command-line tool and its
      LaTeX locator / provisioner, with the properties of its specification.

    Three JavaScript sources are embedded:
    - [install-latex.js]  (module [InstallLatex]): the Provisioner and the
      symlink repair pass;
    - [find-latex.js]     (module [FindLatex]): the Locator;
    - the command-line entry point (module [Cli]): argument handling,
      [ensureLaTeX], [convertFile] and [main].

    The program is effectful: it reads and changes the vendored binary
    directory, spawns processes, writes to the console and terminates the
    process.  It is modelled in a small monad with state (the vendored binary
    directory), JavaScript exceptions ([Throw]), [process.exit] ([Exit]) and a
    chronological list of observable events.  What the operating system, the
    network and the external engine answer is read from a [World] record. *)

From Stdlib Require Import ZArith String Ascii List Floats Sorted.
From stdpp Require Import gmap strings list fin_maps pretty.

Open Scope string_scope.
Open Scope list_scope.

(** ** The filesystem model of the vendored binary directory *)

(** Where a symbolic link points: at an entry of the vendored binary
    directory itself ([path.join(binPath, name)], or a relative name), or at
    some path outside of it. *)
Inductive target :=
| InDir (name : string)
| Outside (p : string).

(** A directory entry is a symbolic link or anything else (a regular file). *)
Inductive entry :=
| File
| Link (t : target).

#[global] Instance target_eq_dec : EqDecision target.
Proof. solve_decision. Defined.
#[global] Instance entry_eq_dec : EqDecision entry.
Proof. solve_decision. Defined.

(** The vendored binary directory: entry names to entries. *)
Abbreviation dir := (gmap string entry).

(** ** Observable events, in the order in which they happen *)
Inductive event :=
| EvStdout (line : string)                 (* console.log *)
| EvStderr (line : string)                 (* console.error *)
| EvExec (cmd : string)                    (* child_process.execSync *)
| EvSpawn (cmd : string) (arg : string)    (* child_process.spawn *)
| EvUnlink (name : string)                 (* fs.unlinkSync in the bin directory *)
| EvSymlink (from to : string)             (* fs.symlinkSync in the bin directory *)
| EvCopy (from to : string)                (* fs.copyFileSync in the bin directory *)
| EvDownload (url : string)                (* https.get *)
| EvExtract (url : string)                 (* tar.extract / Expand-Archive *)
| EvOpenRead (p : string)                  (* fs.createReadStream *)
| EvOpenWrite (p : string)                 (* fs.createWriteStream *)
| EvLatex (cmd : string) (inputs : string) (* node-latex runs the engine *)
| EvUncaught (message : string)            (* Node reports an error no handler takes *).

(** ** The monad: state, exceptions, process exit and an event log *)

(** How a computation ends: with a value, with a thrown [Error] (its
    message), or with [process.exit code], which no handler intercepts. *)
Inductive res (A : Type) :=
| Ret (a : A)
| Throw (message : string)
| Exit (code : Z).
Arguments Ret {A} a.
Arguments Throw {A} message.
Arguments Exit {A} code.

(** The state is the vendored binary directory, [None] when it does not exist. *)
Definition M (A : Type) : Type := option dir -> res A * option dir * list event.

Definition ret {A} (a : A) : M A := fun s => (Ret a, s, []).

Definition bind {A B} (m : M A) (f : A -> M B) : M B :=
  fun s =>
    match m s with
    | (Ret a, s1, l1) => let '(r, s2, l2) := f a s1 in (r, s2, l1 ++ l2)
    | (Throw e, s1, l1) => (Throw e, s1, l1)
    | (Exit c, s1, l1) => (Exit c, s1, l1)
    end.

(** [try { m } catch (e) { h e }] *)
Definition try_catch {A} (m : M A) (h : string -> M A) : M A :=
  fun s =>
    match m s with
    | (Throw e, s1, l1) => let '(r, s2, l2) := h e s1 in (r, s2, l1 ++ l2)
    | other => other
    end.

Definition throw {A} (message : string) : M A := fun s => (Throw message, s, []).
Definition process_exit {A} (code : Z) : M A := fun s => (Exit code, s, []).

(** An ['error'] event that has no listener, or an exception thrown outside of
    every handler: Node reports the error and ends the process with status 1;
    no [catch] and no rejection handler of the program sees it. *)
Definition uncaught {A} (message : string) : M A :=
  fun s => (Exit 1, s, [EvUncaught message]).
Definition emit (e : event) : M unit := fun s => (Ret tt, s, [e]).
Definition get : M (option dir) := fun s => (Ret s, s, []).
Definition put (s : option dir) : M unit := fun _ => (Ret tt, s, []).

Notation "x <- m ;; k" := (bind m (fun x => k))
  (at level 100, m at next level, right associativity).
Notation "m ;; k" := (bind m (fun _ => k))
  (at level 100, right associativity).
Notation "'try' m 'catch' h" := (try_catch m h)
  (at level 99, m at level 98, h at level 98).

(** [for (const x of xs) { acc = body acc x }] *)
Fixpoint foldM {A B} (body : A -> B -> M A) (acc : A) (xs : list B) : M A :=
  match xs with
  | [] => ret acc
  | x :: xs' => acc' <- body acc x ;; foldM body acc' xs'
  end.

Definition forM_ {B} (xs : list B) (body : B -> M unit) : M unit :=
  foldM (fun _ x => body x) tt xs.

Definition console_log (line : string) : M unit := emit (EvStdout line).
Definition console_error (line : string) : M unit := emit (EvStderr line).

(** The three components of a run. *)
Definition outcome {A} (r : res A * option dir * list event) : res A := r.1.1.
Definition final {A} (r : res A * option dir * list event) : option dir := r.1.2.
Definition events {A} (r : res A * option dir * list event) : list event := r.2.

(** ** Strings as JavaScript uses them *)

(** A string in a condition: the empty string is falsy. *)
Definition truthy (s : string) : bool := negb (String.eqb s "").

(** [hay.includes(needle)] *)
Fixpoint includes (needle hay : string) : bool :=
  String.prefix needle hay ||
  match hay with
  | EmptyString => false
  | String _ rest => includes needle rest
  end.

(** [s.split(sep)] for a one-character separator. *)
Fixpoint split (sep : ascii) (s : string) : list string :=
  match s with
  | EmptyString => [""]
  | String c rest =>
      if Ascii.eqb c sep then "" :: split sep rest
      else match split sep rest with
           | [] => [String c ""]
           | part :: parts => String c part :: parts
           end
  end.

Definition is_space (c : ascii) : bool :=
  let n := nat_of_ascii c in
  (n =? 32)%nat || ((9 <=? n)%nat && (n <=? 13)%nat).

Fixpoint trim_start (s : string) : string :=
  match s with
  | String c rest => if is_space c then trim_start rest else s
  | EmptyString => EmptyString
  end.

Fixpoint trim_end (s : string) : string :=
  match s with
  | EmptyString => EmptyString
  | String c rest =>
      match trim_end rest with
      | EmptyString => if is_space c then EmptyString else String c EmptyString
      | rest' => String c rest'
      end
  end.

(** [s.trim()] (on the ASCII white space a shell prints). *)
Definition trim (s : string) : string := trim_end (trim_start s).

(** ** The [path] module of Node.js, as an interface *)

Record ParsedPath := { parsed_dir : string; parsed_name : string }.

(** The operations of [path] the program uses.  [path.join] never returns the
    empty string (Node returns ["."] for an empty result). *)
Class PathApi := {
  path_join : list string -> string;
  path_dirname : string -> string;
  path_basename : string -> string;
  path_parse : string -> ParsedPath;
  path_join_nonempty : forall parts, path_join parts <> "";
}.

(** ** The world outside the program *)

(** What happens to an HTTP request and to the file it is written to. *)
Inductive response :=
| RequestError (message : string)
    (* the request emits 'error' *)
| Unwritable (message : string)
    (* the destination file cannot be opened: its stream emits 'error' before
       the response arrives, when it has no listener yet *)
| Response (statusCode : Z) (location : string)
           (content_length : option string)
           (chunks : list (list Byte.byte)) (file_error : option string)
    (* status, the Location header, the content-length header if present, the
       'data' chunks in order, and the error of the destination stream if it
       fails instead of finishing *).

Record World := {
  (** [os.platform()] *)
  PLATFORM : string;
  (** [__dirname] of the package *)
  dirname__ : string;
  (** [child_process.execSync cmd]: its stdout, [None] when the command fails *)
  exec : string -> option string;
  (** [fs.existsSync] on a path that is not below the vendored bin directory *)
  path_exists : string -> bool;
  (** whether a link target outside the vendored bin directory is accessible *)
  outside_accessible : string -> bool;
  (** the number of symbolic links the operating system follows in one look-up
      before it answers ELOOP (40 on Linux) *)
  max_links : nat;
  (** the order in which [fs.readdirSync] lists the names of a directory *)
  readdir : dir -> list string;
  readdir_listing : forall d, readdir d ≡ₚ (map_to_list d).*1;
  (** whether the process may unlink the entry of this name in the vendored bin
      directory (when not: EACCES, EPERM or EROFS) *)
  unlink_permitted : string -> bool;
  (** whether the process may create symbolic links *)
  symlink_permitted : bool;
  (** whether the process may write a file of the vendored bin directory
      (when not: EACCES, EROFS or ENOSPC) *)
  copy_permitted : bool;
  (** node-latex run with [cmd] on the input file: [None] when the output
      stream finishes, [Some message] when the engine reports an error *)
  latex : string -> string -> option string;
  (** the ['error'] event of spawning the install script, if any *)
  spawn_error : option string;
  (** [process.env.npm_lifecycle_event === 'postinstall'] in the install script *)
  isPostinstall : bool;
  (** the answers to the request for a URL and, after each redirect, to the
      request for its Location, in order *)
  responses : string -> list response;
  (** extraction of the archive into the install directory: the vendored bin
      directory afterwards, and [Some message] when extraction fails *)
  extract : option dir -> option dir * option string;
}.

(** ** Node.js calls the sources share *)
Section Node.
Context (w : World).

(** [execSync(cmd, ...)]: throws when the command fails. *)
Definition execSync (cmd : string) : M string :=
  emit (EvExec cmd) ;;
  match exec w cmd with
  | Some out => ret out
  | None => throw ("Command failed: " +:+ cmd)
  end.

(** [PLATFORM === 'win32' ? `${name}.exe` : name] *)
Definition exe (name : string) : string :=
  if String.eqb (PLATFORM w) "win32" then name +:+ ".exe" else name.

(** *** The [fs] calls on the vendored binary directory.
    A path [path.join(binPath, name)] is represented by [name]. *)

(** Following links from [name]: [true] when a regular entry or an accessible
    outside target is reached.  A missing entry gives [false] (ENOENT), and so
    does a chain that is not at its end after [fuel - 1] links (ELOOP). *)
Fixpoint resolve (fuel : nat) (d : dir) (name : string) : bool :=
  match fuel with
  | O => false
  | S k =>
      match d !! name with
      | None => false
      | Some File => true
      | Some (Link (Outside p)) => outside_accessible w p
      | Some (Link (InDir m)) => resolve k d m
      end
  end.

(** The operating system follows at most [max_links] links: a longer chain
    and a cycle are ELOOP.  (A target outside of the directory is accessible or
    not as a whole, whatever the number of links before it.) *)
Definition resolves (d : dir) (name : string) : bool := resolve (S (max_links w)) d name.

(** [fs.existsSync(binPath)] *)
Definition existsSync_binPath : M bool :=
  fun s => (Ret (bool_decide (is_Some s)), s, []).

(** [fs.existsSync(path.join(binPath, name))] *)
Definition existsSync (name : string) : M bool :=
  fun s => (Ret (match s with Some d => resolves d name | None => false end), s, []).

(** [fs.readdirSync(binPath)] *)
Definition readdirSync : M (list string) :=
  fun s => match s with
           | Some d => (Ret (readdir w d), s, [])
           | None => (Throw "ENOENT", s, [])
           end.

(** [fs.lstatSync(path.join(binPath, name))]: the entry itself, no link followed. *)
Definition lstatSync (name : string) : M entry :=
  fun s => match s ≫= (fun d : dir => d !! name) with
           | Some e => (Ret e, s, [])
           | None => (Throw "ENOENT", s, [])
           end.

Definition isSymbolicLink (stats : entry) : bool :=
  match stats with Link _ => true | File => false end.

(** [fs.accessSync(path.join(binPath, name), fs.constants.F_OK)] *)
Definition accessSync (name : string) : M unit :=
  ok <- existsSync name ;;
  if ok then ret tt else throw "ENOENT".

(** [fs.unlinkSync(path.join(binPath, name))] removes the entry itself, when
    the process may. *)
Definition unlinkSync (name : string) : M unit :=
  fun s => match s with
           | Some d =>
               match d !! name with
               | Some _ =>
                   if unlink_permitted w name
                   then (Ret tt, Some (delete name d), [EvUnlink name])
                   else (Throw "EACCES", s, [])
               | None => (Throw "ENOENT", s, [])
               end
           | None => (Throw "ENOENT", s, [])
           end.

(** [fs.symlinkSync(path.join(binPath, from), path.join(binPath, to))] *)
Definition symlinkSync (from to : string) : M unit :=
  fun s => match s with
           | Some d =>
               match d !! to with
               | Some _ => (Throw "EEXIST", s, [])
               | None =>
                   if symlink_permitted w
                   then (Ret tt, Some (<[to := Link (InDir from)]> d), [EvSymlink from to])
                   else (Throw "EPERM", s, [])
               end
           | None => (Throw "ENOENT", s, [])
           end.

(** Writing to [name] follows links: a missing entry is created as a regular
    file, an existing regular entry is overwritten.  A chain that is not at
    its end after [fuel - 1] links is an error (ELOOP); a destination that
    hangs on a link out of the directory is outside of this model and counts
    as an error too. *)
Fixpoint write_through (fuel : nat) (d : dir) (name : string) : option dir :=
  match fuel with
  | O => None
  | S k =>
      match d !! name with
      | None => Some (<[name := File]> d)
      | Some File => Some d
      | Some (Link (InDir m)) => write_through k d m
      | Some (Link (Outside p)) => if outside_accessible w p then Some d else None
      end
  end.

(** [fs.copyFileSync(path.join(binPath, from), path.join(binPath, to))] *)
Definition copyFileSync (from to : string) : M unit :=
  fun s => match s with
           | Some d =>
               if resolves d from then
                 if copy_permitted w then
                   match write_through (S (max_links w)) d to with
                   | Some d' => (Ret tt, Some d', [EvCopy from to])
                   | None => (Throw "ELOOP", s, [])
                   end
                 else (Throw "EACCES", s, [])
               else (Throw "ENOENT", s, [])
           | None => (Throw "ENOENT", s, [])
           end.

End Node.

(** ** Numbers as JavaScript uses them *)

(** A number that is an integer or [NaN] ([None]). *)
Definition digit_of (c : ascii) : option Z :=
  let n := nat_of_ascii c in
  if ((48 <=? n) && (n <=? 57))%nat then Some (Z.of_nat n - 48)%Z else None.

Fixpoint parse_digits (acc : option Z) (s : string) : option Z :=
  match s with
  | EmptyString => acc
  | String c rest =>
      match digit_of c with
      | Some v => parse_digits (Some (10 * default 0 acc + v)%Z) rest
      | None => acc
      end
  end.

(** [parseInt(header, 10)] of a header that may be missing ([undefined]). *)
Definition parseInt (header : option string) : option Z :=
  match header with
  | None => None
  | Some s =>
      match trim_start s with
      | String "-" rest => Z.opp <$> parse_digits None rest
      | String "+" rest => parse_digits None rest
      | t => parse_digits None t
      end
  end.

(** A number in a condition: [NaN] and [0] are falsy. *)
Definition number_truthy (n : option Z) : bool :=
  match n with
  | Some z => negb (z =? 0)%Z
  | None => false
  end.

(** The double nearest to an integer. *)
Definition to_double (z : Z) : float :=
  SF2Prim (binary_normalize prec emax z 0 false).

(** [Math.floor] of a double, [None] for [NaN] and the infinities. *)
Definition Math_floor (f : float) : option Z :=
  match Prim2SF f with
  | S754_zero _ => Some 0%Z
  | S754_finite sign m e =>
      let z := if sign then Z.neg m else Z.pos m in
      Some (if (0 <=? e)%Z then Z.shiftl z e else Z.shiftr z (- e))
  | S754_infinity _ => None
  | S754_nan => None
  end.

(** ** install-latex.js *)
Module InstallLatex.
Section WithWorld.
Context (w : World) `{PathApi}.

Definition INSTALL_DIR : string := path_join [dirname__ w; ".tinytex"].

Definition log (message : string) : M unit :=
  console_log ("[tex2pdf-setup] " +:+ message).

Definition checkExistingLaTeX : M bool :=
  try (execSync w "pdflatex --version" ;; ret true)
  catch (fun _ => ret false).

Definition getTinyTeXBinPath : string :=
  if String.eqb (PLATFORM w) "win32" then path_join [INSTALL_DIR; "bin"; "windows"]
  else if String.eqb (PLATFORM w) "darwin" then path_join [INSTALL_DIR; "bin"; "universal-darwin"]
  else path_join [INSTALL_DIR; "bin"; "x86_64-linux"].

Definition checkTinyTeXInstalled : M bool :=
  let tinytexBin := getTinyTeXBinPath in
  if negb (truthy tinytexBin) then ret false
  else existsSync w (exe w "xelatex").

Definition symlinks : list (string * string) :=
  [("pdftex", "pdflatex"); ("tex", "latex"); ("luatex", "lualatex"); ("xetex", "xelatex")].

(** The body of the first loop of [fixTinyTeXSymlinks]. *)
Definition prune_entry (fixedCount : nat) (file : string) : M nat :=
  try (stats <- lstatSync file ;;
       if isSymbolicLink stats then
         try (accessSync w file ;; ret fixedCount)
         catch (fun _ => unlinkSync w file ;; ret (S fixedCount))
       else ret fixedCount)
  catch (fun _ =>
    try (unlinkSync w file ;; ret (S fixedCount))
    catch (fun _ => ret fixedCount)).

(** The body of the second loop of [fixTinyTeXSymlinks]. *)
Definition make_alias (pair : string * string) : M unit :=
  let fromPath := exe w pair.1 in
  let toPath := exe w pair.2 in
  from_exists <- existsSync w fromPath ;;
  to_exists <- existsSync w toPath ;;
  if from_exists && negb to_exists then
    try symlinkSync w fromPath toPath
    catch (fun _ =>
      try copyFileSync w fromPath toPath
      catch (fun _ => ret tt))
  else ret tt.

Definition fixTinyTeXSymlinks : M bool :=
  bin_exists <- existsSync_binPath ;;
  if negb bin_exists then ret false
  else
    files <- readdirSync w ;;
    fixedCount <- foldM prune_entry O files ;;
    (if (0 <? fixedCount)%nat
     then log ("Fixed " +:+ pretty fixedCount +:+ " broken symlinks")
     else ret tt) ;;
    forM_ symlinks make_alias ;;
    ret true.

(** The state of the ['data'] handler of [downloadFile]. *)
Record progress := { downloadedSize : Z; lastPercent : Z }.

(** [response.on('data', (chunk) => ...)] *)
Definition on_data (totalSize : option Z) (st : progress) (chunk : list Byte.byte)
  : M progress :=
  let downloaded := (downloadedSize st + Z.of_nat (length chunk))%Z in
  let unchanged := {| downloadedSize := downloaded; lastPercent := lastPercent st |} in
  if number_truthy totalSize then
    match Math_floor ((to_double downloaded / to_double (default 0%Z totalSize))
                      * to_double 100)%float with
    | Some percent =>
        if (lastPercent st <? percent)%Z && (Z.rem percent 10 =? 0)%Z then
          log ("Download progress: " +:+ pretty percent +:+ "%") ;;
          ret {| downloadedSize := downloaded; lastPercent := percent |}
        else ret unchanged
    | None => ret unchanged
    end
  else ret unchanged.

(** [downloadFile(url, dest)], with what happens to the requests.  A list of
    answers that ends on a redirect stands for a request that errors.  The
    destination is a temporary file beside the package, which is no part of
    the state; when it cannot be opened the ['error'] event of its stream
    comes before the response and finds no listener. *)
Fixpoint downloadFile (url : string) (answers : list response) : M unit :=
  log "Downloading TinyTeX (~200MB)..." ;;
  emit (EvDownload url) ;;
  match answers with
  | [] => throw "socket hang up"
  | RequestError message :: _ => throw message
  | Unwritable message :: _ => uncaught message
  | Response statusCode location content_length chunks file_error :: rest =>
      if (statusCode =? 301)%Z || (statusCode =? 302)%Z then
        downloadFile location rest
      else if negb (statusCode =? 200)%Z then
        throw ("Download failed with status " +:+ pretty statusCode)
      else
        let totalSize := parseInt content_length in
        foldM (on_data totalSize) {| downloadedSize := 0; lastPercent := 0 |} chunks ;;
        match file_error with
        | Some message => throw message
        | None => ret tt
        end
  end.

(** [tar.extract] and [Expand-Archive]: the archive is unpacked over the
    install directory.  The temporary archive file, which is created beside
    the package and deleted again, is no part of the state. *)
Definition extract_archive (url : string) : M unit :=
  fun s =>
    let '(s', failure) := extract w s in
    (match failure with Some message => Throw message | None => Ret tt end,
     s', [EvExtract url]).

Definition installTinyTeXUnix : M bool :=
  let url :=
    if String.eqb (PLATFORM w) "darwin"
    then "https://github.com/rstudio/tinytex-releases/releases/download/daily/TinyTeX.tgz"
    else "https://github.com/rstudio/tinytex-releases/releases/download/daily/TinyTeX.tar.gz" in
  try (downloadFile url (responses w url) ;;
       log "Extracting TinyTeX..." ;;
       extract_archive url ;;
       fixTinyTeXSymlinks ;;
       ret true)
  catch (fun message =>
    log ("Error installing TinyTeX: " +:+ message) ;;
    ret false).

Definition installTinyTeXWindows : M bool :=
  let url := "https://github.com/rstudio/tinytex-releases/releases/download/daily/TinyTeX.zip" in
  try (downloadFile url (responses w url) ;;
       log "Extracting TinyTeX..." ;;
       extract_archive url ;;
       fixTinyTeXSymlinks ;;
       ret true)
  catch (fun message =>
    log ("Error installing TinyTeX: " +:+ message) ;;
    log "Falling back to manual installation instructions:" ;;
    log "  1. choco install tinytex" ;;
    log "  2. scoop install tinytex" ;;
    log "  3. Download from https://github.com/rstudio/tinytex-releases" ;;
    ret false).

Definition installTinyTeX : M bool :=
  log "LaTeX not found. Installing TinyTeX (this may take a few minutes)..." ;;
  if String.eqb (PLATFORM w) "win32" then installTinyTeXWindows
  else installTinyTeXUnix.

Definition main : M unit :=
  log "Checking for LaTeX installation..." ;;
  existing <- checkExistingLaTeX ;;
  (if existing : bool then
     log "Found existing LaTeX installation. Skipping TinyTeX installation." ;;
     process_exit 0
   else ret tt) ;;
  installed <- checkTinyTeXInstalled ;;
  (if installed : bool then
     fixTinyTeXSymlinks ;;
     log "TinyTeX is already installed and ready." ;;
     process_exit 0
   else ret tt) ;;
  success <- installTinyTeX ;;
  if success : bool then
    log "TinyTeX installed successfully!" ;;
    log ("Location: " +:+ INSTALL_DIR) ;;
    process_exit 0
  else
    log "Failed to install TinyTeX automatically." ;;
    log "LaTeX will be installed on first use of tex2pdf command." ;;
    log "Or install manually from https://tug.org/texlive/ or https://miktex.org/" ;;
    if isPostinstall w then
      log "Note: This is non-fatal. npm install will continue." ;;
      process_exit 0
    else process_exit 1.

End WithWorld.
End InstallLatex.

(** ** find-latex.js *)
Module FindLatex.
Section WithWorld.
Context (w : World) `{PathApi}.

Definition TINYTEX_DIR : string := path_join [dirname__ w; ".tinytex"].

(** The result is [null] or [undefined] ([None]) or a directory. *)
Definition findSystemLaTeX : M (option string) :=
  try (out <- execSync w "which pdflatex || where pdflatex" ;;
       let pdflatexPath := trim out in
       if truthy pdflatexPath then ret (Some (path_dirname pdflatexPath))
       else ret None)
  catch (fun _ => ret None).

Definition findTinyTeX : M (option string) :=
  let binPath :=
    if String.eqb (PLATFORM w) "win32" then path_join [TINYTEX_DIR; "bin"; "windows"]
    else if String.eqb (PLATFORM w) "darwin" then path_join [TINYTEX_DIR; "bin"; "universal-darwin"]
    else path_join [TINYTEX_DIR; "bin"; "x86_64-linux"] in
  found <- existsSync w (exe w "pdflatex") ;;
  if found then ret (Some binPath) else ret None.

(** [{ path, type }] *)
Record LatexInfo := { path : string; type : string }.

Definition getLaTeXPath : M (option LatexInfo) :=
  systemPath <- findSystemLaTeX ;;
  if match systemPath with Some p => truthy p | None => false end then
    ret (Some {| path := default EmptyString systemPath; type := "system" |})
  else
    tinytexPath <- findTinyTeX ;;
    if match tinytexPath with Some p => truthy p | None => false end then
      ret (Some {| path := default EmptyString tinytexPath; type := "tinytex" |})
    else ret None.

Definition hasLaTeX : M bool :=
  info <- getLaTeXPath ;;
  ret (bool_decide (is_Some info)).

(** [getEnginePath(engine = 'pdflatex')]; every caller passes the engine. *)
Definition getEnginePath (engine : string) : M (option string) :=
  latexInfo <- getLaTeXPath ;;
  match latexInfo with
  | None => ret None
  | Some info =>
      let engineName := exe w engine in
      ret (Some (path_join [path info; engineName]))
  end.

End WithWorld.
End FindLatex.

(** ** The command-line entry point *)
Module Cli.
Section WithWorld.
Context (w : World) `{PathApi}.

Definition nl : string := String (ascii_of_nat 10) EmptyString.
Definition dquote : string := String (ascii_of_nat 34) EmptyString.

Definition usage : string := "
Usage: tex2pdf <input.tex> [output.pdf] [options]

Convert TeX files to PDF instantly with zero setup.
LaTeX is auto-installed on first use if not present.

Arguments:
  input.tex     Path to your TeX file
  output.pdf    Output PDF path (optional, defaults to input.pdf)

Options:
  --engine      LaTeX engine: pdflatex (default), xelatex, lualatex
  --install     Force re/install LaTeX (TinyTeX)
  --help        Show this help message

Examples:
  tex2pdf document.tex
  tex2pdf document.tex output.pdf
  tex2pdf document.tex --engine=xelatex
  npx tex2pdf-cli document.tex

First run may take a few minutes to download LaTeX (~200MB).
".

Definition showHelp : M unit := console_log usage.

(** The child process [node install-latex.js]: it shares the console and the
    filesystem, and ends with an exit code. *)
Definition run_child (child : M unit) : M Z :=
  fun s =>
    match child s with
    | (Exit code, s', l) => (Ret code, s', l)
    | (Ret _, s', l) => (Ret 0%Z, s', l)
    | (Throw _, s', l) => (Ret 1%Z, s', l)
    end.

Definition runInstallScript : M unit :=
  console_log "LaTeX not found. Installing TinyTeX automatically..." ;;
  console_log "  This is a one-time setup (~200MB download)" ;;
  console_log EmptyString ;;
  let installScript := path_join [dirname__ w; "install-latex.js"] in
  emit (EvSpawn "node" installScript) ;;
  match spawn_error w with
  | Some message => throw message
  | None =>
      code <- run_child (InstallLatex.main w) ;;
      if (code =? 0)%Z then ret tt
      else throw "Installation failed"
  end.

Definition ensureLaTeX : M bool :=
  ready <- FindLatex.hasLaTeX w ;;
  if ready : bool then
    InstallLatex.fixTinyTeXSymlinks w ;;
    ret true
  else
    try (runInstallScript ;;
         InstallLatex.fixTinyTeXSymlinks w ;;
         FindLatex.hasLaTeX w)
    catch (fun _ =>
      console_error (nl +:+ "Failed to install LaTeX automatically.") ;;
      console_error "  You can install it manually from:" ;;
      console_error "  - https://tug.org/texlive/ (TeX Live)" ;;
      console_error "  - https://miktex.org/ (MiKTeX for Windows)" ;;
      console_error "  - https://yihui.org/tinytex/ (TinyTeX)" ;;
      ret false).

(** [!enginePath] for a path that is [null] or a string. *)
Definition falsy_path (p : option string) : bool :=
  match p with
  | Some s => negb (truthy s)
  | None => true
  end.

Definition convertFile (inputPath outputPath engine : string) : M unit :=
  (if negb (path_exists w inputPath) then
     console_error ("Error: File not found: " +:+ inputPath) ;;
     process_exit 1
   else ret tt) ;;
  enginePath <- FindLatex.getEnginePath w engine ;;
  (if falsy_path enginePath then
     console_error ("Error: LaTeX engine " +:+ dquote +:+ engine +:+ dquote +:+ " not found") ;;
     process_exit 1
   else ret tt) ;;
  let cmd := default EmptyString enginePath in
  emit (EvOpenRead inputPath) ;;
  emit (EvOpenWrite outputPath) ;;
  console_log ("Converting " +:+ path_basename inputPath +:+ "...") ;;
  emit (EvLatex cmd (path_dirname inputPath)) ;;
  match latex w cmd inputPath with
  | Some message => throw message
  | None => console_log ("Created: " +:+ outputPath)
  end.

(** The variables of the argument loop of [main]. *)
Record parsed_args := { outputFile : option string; engine : string }.

(** The body of the argument loop of [main]. *)
Definition parse_arg (acc : parsed_args) (arg : string) : M parsed_args :=
  if String.prefix "--engine=" arg then
    ret {| outputFile := outputFile acc; engine := nth 1 (split "=" arg) EmptyString |}
  else if String.prefix "--" arg then
    console_error ("Unknown option: " +:+ arg) ;;
    process_exit 1
  else if falsy_path (outputFile acc) then
    ret {| outputFile := Some arg; engine := engine acc |}
  else ret acc.

(** The [try] statement that ends [main].  In the handler the fallback
    branch either returns from [main] or exits, so the statements after it
    are the branch taken when there is no fallback. *)
Definition run_conversion (inputFile outputFile engine : string) : M unit :=
  try convertFile inputFile outputFile engine
  catch (fun message =>
    if String.eqb engine "pdflatex" && includes "Font" message then
      console_log "pdflatex failed (font issue), trying xelatex..." ;;
      try convertFile inputFile outputFile "xelatex"
      catch (fun fallbackMessage =>
        console_error (nl +:+ "Conversion failed with both engines:") ;;
        console_error fallbackMessage ;;
        process_exit 1)
    else
      console_error (nl +:+ "Conversion failed:") ;;
      console_error message ;;
      (if includes "Command failed" message then
         console_error (nl +:+ "Tip: Your TeX file may have errors or missing packages.") ;;
         console_error "  Check the file compiles with a LaTeX editor first."
       else ret tt) ;;
      process_exit 1).

(** The output path [main] uses when no output argument is given. *)
Definition default_output (inputFile : string) : string :=
  let parsed := path_parse inputFile in
  path_join [parsed_dir parsed; parsed_name parsed +:+ ".pdf"].

(** [main], on the arguments [process.argv.slice(2)]. *)
Definition main (args : list string) : M unit :=
  (if (length args =? 0)%nat || bool_decide ("--help" ∈ args) || bool_decide ("-h" ∈ args) then
     showHelp ;;
     process_exit 0
   else ret tt) ;;
  (if bool_decide ("--install" ∈ args) then
     console_log "Force installing LaTeX..." ;;
     runInstallScript ;;
     process_exit 0
   else ret tt) ;;
  latexReady <- ensureLaTeX ;;
  (if negb latexReady then process_exit 1 else ret tt) ;;
  let inputFile := default EmptyString (head args) in
  parsed <- foldM parse_arg {| outputFile := None; engine := "xelatex" |} (tail args) ;;
  let engine := engine parsed in
  let outputFile :=
    if falsy_path (outputFile parsed) then default_output inputFile
    else default EmptyString (outputFile parsed) in
  run_conversion inputFile outputFile engine.

(** The exit status of the process: [main()] is called without a handler, so
    an error it throws is an unhandled rejection, on which Node exits with 1;
    when [main] returns, the process ends with 0 once nothing is pending. *)
Definition exit_status (r : res unit) : Z :=
  match r with
  | Exit code => code
  | Ret _ => 0%Z
  | Throw _ => 1%Z
  end.

End WithWorld.
End Cli.

(** ** A POSIX instance of the [path] interface *)
Module Posix.

(** [normalizeString]: drops empty and [.] segments and resolves [..]
    against the segments kept so far ([kept] is in reverse order). *)
Fixpoint normalize_segments (absolute : bool) (kept segs : list string) : list string :=
  match segs with
  | [] => rev kept
  | seg :: rest =>
      if String.eqb seg EmptyString || String.eqb seg "." then
        normalize_segments absolute kept rest
      else if String.eqb seg ".." then
        match kept with
        | top :: kept' =>
            if String.eqb top ".." then normalize_segments absolute (seg :: kept) rest
            else normalize_segments absolute kept' rest
        | [] =>
            if absolute then normalize_segments absolute [] rest
            else normalize_segments absolute [seg] rest
        end
      else normalize_segments absolute (seg :: kept) rest
  end.

Definition starts_with_slash (p : string) : bool := String.prefix "/" p.

Definition ends_with_slash (p : string) : bool :=
  match last (split "/" p) with
  | Some EmptyString => negb (String.eqb p EmptyString)
  | _ => false
  end.

Definition normalize (p : string) : string :=
  match p with
  | EmptyString => "."
  | String _ _ =>
      let absolute := starts_with_slash p in
      let trailing := ends_with_slash p in
      match String.concat "/" (normalize_segments absolute [] (split "/" p)) with
      | EmptyString => if absolute then "/" else if trailing then "./" else "."
      | String c body =>
          let kept := if trailing then String c body +:+ "/" else String c body in
          if absolute then String "/" kept else kept
      end
  end.

Definition join (parts : list string) : string :=
  match filter (fun part => part ≠ EmptyString) parts with
  | [] => "."
  | used => normalize (String.concat "/" used)
  end.

(** The string without its last dot and what follows it, if it has a dot. *)
Fixpoint stem (s : string) : option string :=
  match s with
  | EmptyString => None
  | String c rest =>
      match stem rest with
      | Some r => Some (String c r)
      | None => if Ascii.eqb c "." then Some EmptyString else None
      end
  end.

Fixpoint drop_trailing_empty (segs : list string) : list string :=
  match segs with
  | [] => []
  | seg :: rest =>
      match drop_trailing_empty rest with
      | [] => if String.eqb seg EmptyString then [] else [seg]
      | rest' => seg :: rest'
      end
  end.

Definition parse_base (p : string) : string :=
  default EmptyString (last (drop_trailing_empty (split "/" p))).

Definition parse_dir (p : string) : string :=
  match String.concat "/" (removelast (drop_trailing_empty (split "/" p))) with
  | EmptyString => if starts_with_slash p then "/" else EmptyString
  | d => d
  end.

Definition parse (p : string) : ParsedPath :=
  let base := parse_base p in
  {| parsed_dir := parse_dir p;
     parsed_name :=
       if String.eqb base ".." then base
       else match stem base with
            | Some (String c r) => String c r
            | _ => base
            end |}.

Definition dirname (p : string) : string :=
  match parse_dir p with
  | EmptyString => "."
  | d => d
  end.

#[export] Instance api : PathApi.
Proof.
  refine {| path_join := join;
            path_dirname := dirname;
            path_basename := parse_base;
            path_parse := parse;
            path_join_nonempty := _ |}.
  intros parts. unfold join. destruct (filter _ parts) as [|part used]; [discriminate|].
  unfold normalize. destruct (String.concat "/" (part :: used)); [discriminate|].
  destruct (String.concat "/" _); repeat case_match; simpl; discriminate.
Defined.

End Posix.

(** * The vocabulary of the properties *)

(** ** Symbolic links: accessibility *)

Section LinkVocabulary.
Context (w : World).

(** [reach d n k]: following links from [n] ends, after [k] links, on a
    regular entry or on an accessible target outside of the directory. *)
Inductive reach (d : dir) : string -> nat -> Prop :=
| reach_file n :
    d !! n = Some File -> reach d n 0
| reach_outside n p :
    d !! n = Some (Link (Outside p)) -> outside_accessible w p = true -> reach d n 0
| reach_link n m k :
    d !! n = Some (Link (InDir m)) -> reach d m k -> reach d n (S k).

(** The path [name] exists: what [fs.existsSync] and [fs.accessSync] test.
    The chain is no longer than the operating system follows. *)
Definition accessible (d : dir) (n : string) : Prop :=
  exists k, (k <= max_links w)%nat /\ reach d n k.

End LinkVocabulary.

(** ** The repair pass: pruning *)

Section PruneVocabulary.
Context (w : World).

(** No link of the directory hangs. *)
Definition clean (d : dir) : Prop :=
  forall n e, d !! n = Some e -> accessible w d n.

(** No link of the directory hangs, the names of [skip] apart. *)
Definition clean_except (skip : list string) (d : dir) : Prop :=
  forall n e, d !! n = Some e -> n ∉ skip -> accessible w d n.

(** A link that hangs. *)
Definition broken (d : dir) (file : string) : bool :=
  match d !! file with
  | Some (Link _) => negb (resolves w d file)
  | _ => false
  end.

(** A link that hangs and that the process may unlink: what the first loop
    deletes.  A failed unlink is swallowed and the link stays. *)
Definition removable (d : dir) (file : string) : bool :=
  broken d file && unlink_permitted w file.

(** The directory after the first loop has run over [files]. *)
Fixpoint prune (d : dir) (files : list string) : dir :=
  match files with
  | [] => d
  | file :: rest => prune (if removable d file then delete file d else d) rest
  end.

(** The names the first loop unlinks on its way over [files], in order. *)
Fixpoint pruned (d : dir) (files : list string) : list string :=
  match files with
  | [] => []
  | file :: rest =>
      if removable d file then file :: pruned (delete file d) rest
      else pruned d rest
  end.

(** The names [fs.readdirSync] lists, in its order. *)
Definition names (d : dir) : list string := readdir w d.

(** Every link of the directory that hangs can be unlinked. *)
Definition prunable (d : dir) : Prop :=
  forall n, broken d n = true -> unlink_permitted w n = true.

End PruneVocabulary.

(** ** The repair pass: aliases *)

Section AliasVocabulary.
Context (w : World).

(** What an alias is created as, under a name that has no entry: a link,
    a regular file when links are refused and files can be written, and
    nothing when both are refused. *)
Definition alias_entry (from : string) : option entry :=
  if symlink_permitted w then Some (Link (InDir from))
  else if copy_permitted w then Some File
  else None.

(** The test of the second loop: the engine exists and the alias does not. *)
Definition wants_alias (d : dir) (pair : string * string) : bool :=
  resolves w d (exe w pair.1) && negb (resolves w d (exe w pair.2)).

(** The directory after the alias [to] of [from] has been tried: the link,
    when the name has no entry and links are permitted; otherwise the copy,
    which writes through the links of [to], when files can be written and
    the links of [to] lead somewhere; otherwise nothing. *)
Definition try_alias (d : dir) (from to : string) : option dir :=
  match d !! to with
  | None =>
      if symlink_permitted w then Some (<[to := Link (InDir from)]> d)
      else if copy_permitted w then write_through w (S (max_links w)) d to
      else None
  | Some _ =>
      if copy_permitted w then write_through w (S (max_links w)) d to else None
  end.

(** The event of an alias that has been created. *)
Definition try_alias_event (d : dir) (from to : string) : event :=
  match d !! to with
  | None => if symlink_permitted w then EvSymlink from to else EvCopy from to
  | Some _ => EvCopy from to
  end.

(** The directory after one round of the second loop. *)
Definition add_alias (d : dir) (pair : string * string) : dir :=
  if wants_alias d pair
  then default d (try_alias d (exe w pair.1) (exe w pair.2))
  else d.

(** The events of one round of the second loop. *)
Definition add_alias_events (d : dir) (pair : string * string) : list event :=
  if wants_alias d pair then
    match try_alias d (exe w pair.1) (exe w pair.2) with
    | Some _ => [try_alias_event d (exe w pair.1) (exe w pair.2)]
    | None => []
    end
  else [].

(** The events of the second loop over [pairs]. *)
Fixpoint alias_events (d : dir) (pairs : list (string * string)) : list event :=
  match pairs with
  | [] => []
  | p :: rest => add_alias_events d p ++ alias_events (add_alias d p) rest
  end.

(** The alias names are distinct and none is an engine name. *)
Definition separate (pairs : list (string * string)) : Prop :=
  NoDup ((fun pair => exe w pair.2) <$> pairs) ∧
  (∀ p q : string * string, p ∈ pairs → q ∈ pairs → exe w p.1 ≠ exe w q.2).

(** The names of [pairs] are none of [skip]. *)
Definition apart (skip : list string) (pairs : list (string * string)) : Prop :=
  forall p : string * string, p ∈ pairs -> (exe w p.1 ∉ skip) /\ (exe w p.2 ∉ skip).

(** The links to the engines of [pairs] can be followed: no engine that
    exists is reached only through as many links as the operating system
    follows. *)
Definition aliasable (d : dir) (pairs : list (string * string)) : Prop :=
  forall pair, pair ∈ pairs ->
    resolves w d (exe w pair.1) = true -> resolve w (max_links w) d (exe w pair.1) = true.


End AliasVocabulary.

(** ** The repair pass as a whole *)

Section PassVocabulary.
Context (w : World).

(** The directory a repair pass leaves. *)
Definition repair (d : dir) : dir :=
  fold_left (add_alias w) InstallLatex.symlinks (prune w d (names w d)).

(** The events of a repair pass. *)
Definition repair_events (d : dir) : list event :=
  let removed := pruned w d (names w d) in
  (EvUnlink <$> removed) ++
  (if (0 <? length removed)%nat
   then [EvStdout ("[tex2pdf-setup] Fixed " +:+ pretty (length removed) +:+ " broken symlinks")]
   else []) ++
  alias_events w (prune w d (names w d)) InstallLatex.symlinks.

End PassVocabulary.

(** ** Computations *)

(** [returns m]: [m] always ends with a value. *)
Definition returns {A} (m : M A) : Prop :=
  forall s, exists a s' l, m s = (Ret a, s', l).

(** [no_exit m]: [m] never ends the process. *)
Definition no_exit {A} (m : M A) : Prop :=
  forall s c, outcome (m s) <> Exit c.

(** [emits P m]: every event of [m] satisfies [P]. *)
Definition emits {A} (P : event -> Prop) (m : M A) : Prop :=
  forall s, Forall P (events (m s)).

(** An event of a conversion: a stream opened or the engine run. *)
Definition is_conversion (e : event) : bool :=
  match e with
  | EvOpenRead _ | EvOpenWrite _ | EvLatex _ _ => true
  | _ => false
  end.

(** An event that is no part of a conversion. *)
Definition no_conversion (e : event) : Prop := is_conversion e = false.

(** ** The Locator *)

Section LocatorVocabulary.
Context (w : World) `{PathApi}.

(** The command of the engine-availability check. *)
Definition WHICH : string := "which pdflatex || where pdflatex".

(** What [findSystemLaTeX] answers. *)
Definition system_location : option string :=
  match exec w WHICH with
  | Some out => if truthy (trim out) then Some (path_dirname (trim out)) else None
  | None => None
  end.

(** Whether the vendored directory holds [name]. *)
Definition vendored_has (s : option dir) (name : string) : bool :=
  match s with
  | Some d => resolves w d name
  | None => false
  end.

(** What [getLaTeXPath] answers. *)
Definition location (s : option dir) : option FindLatex.LatexInfo :=
  if match system_location with Some p => truthy p | None => false end then
    Some {| FindLatex.path := default EmptyString system_location; FindLatex.type := "system" |}
  else if vendored_has s (exe w "pdflatex") then
    Some {| FindLatex.path := InstallLatex.getTinyTeXBinPath w; FindLatex.type := "tinytex" |}
  else None.

End LocatorVocabulary.

(** ** The command line *)

Section CliVocabulary.
Context (w : World) `{PathApi}.

(** The executable [convertFile] hands to node-latex. *)
Definition engine_cmd (info : FindLatex.LatexInfo) (engine : string) : string :=
  path_join [FindLatex.path info; exe w engine].

(** The events of a conversion that reaches the engine. *)
Definition conversion_events (cmd inputPath outputPath : string) : list event :=
  [EvExec WHICH; EvOpenRead inputPath; EvOpenWrite outputPath;
   EvStdout ("Converting " +:+ path_basename inputPath +:+ "...");
   EvLatex cmd (path_dirname inputPath)].

(** The engine runs among the events, in order. *)
Definition engine_runs (l : list event) : list string :=
  omap (fun e => match e with EvLatex cmd _ => Some cmd | _ => None end) l.

(** A flag the argument loop rejects. *)
Definition unknown_flag (arg : string) : bool :=
  String.prefix "--" arg && negb (String.prefix "--engine=" arg).

(** The engine the flags select. *)
Definition selected_engine (flags : list string) (engine : string) : string :=
  fold_left (fun _ arg => nth 1 (split "=" arg) EmptyString) flags engine.

(** An output stream, if this event opens one, is opened at [outputPath]. *)
Definition writes_to (outputPath : string) (e : event) : Prop :=
  forall p, e = EvOpenWrite p -> p = outputPath.

End CliVocabulary.

(** ** Download progress *)

(** The bytes of a sequence of chunks. *)
Definition bytes (chunks : list (list Byte.byte)) : Z :=
  fold_right (fun chunk n => (Z.of_nat (length chunk) + n)%Z) 0%Z chunks.

(** The percentage the ['data'] handler computes from the bytes so far. *)
Definition percent (totalSize : option Z) (downloaded : Z) : option Z :=
  Math_floor ((to_double downloaded / to_double (default 0%Z totalSize))
              * to_double 100)%float.

(** The line the handler prints for a percentage. *)
Definition progress_line (p : Z) : event :=
  EvStdout ("[tex2pdf-setup] Download progress: " +:+ pretty p +:+ "%").

(** The percentages reported from a state of the handler on. *)
Fixpoint reports (totalSize : option Z) (downloaded last : Z)
    (chunks : list (list Byte.byte)) : list Z :=
  match chunks with
  | [] => []
  | chunk :: rest =>
      let downloaded' := (downloaded + Z.of_nat (length chunk))%Z in
      match percent totalSize downloaded' with
      | Some p =>
          if number_truthy totalSize && (last <? p)%Z && (Z.rem p 10 =? 0)%Z
          then p :: reports totalSize downloaded' p rest
          else reports totalSize downloaded' last rest
      | None => reports totalSize downloaded' last rest
      end
  end.

(** ** Installing and setting up *)

(** An event of the network or of unpacking an archive. *)
Definition is_install (e : event) : bool :=
  match e with
  | EvDownload _ | EvExtract _ => true
  | _ => false
  end.

(** An event that changes an entry of the vendored bin directory. *)
Definition is_repair (e : event) : bool :=
  match e with
  | EvUnlink _ | EvSymlink _ _ | EvCopy _ _ => true
  | _ => false
  end.

(** A line on stdout. *)
Definition is_stdout (e : event) : bool :=
  match e with
  | EvStdout _ => true
  | _ => false
  end.

(** The name an event unlinks, if it unlinks one. *)
Definition unlinked (e : event) : option string :=
  match e with
  | EvUnlink name => Some name
  | _ => None
  end.

(** An answer that redirects. *)
Definition is_redirect (answer : response) : bool :=
  match answer with
  | Response statusCode _ _ _ _ => (statusCode =? 301)%Z || (statusCode =? 302)%Z
  | RequestError _ | Unwritable _ => false
  end.

(** The URL asked for after following the redirects [answers] from [url]. *)
Fixpoint redirected (url : string) (answers : list response) : string :=
  match answers with
  | Response _ location _ _ _ :: rest => redirected location rest
  | _ => url
  end.

(** The events of following the redirects [answers] from [url]. *)
Fixpoint redirect_events (url : string) (answers : list response) : list event :=
  match answers with
  | Response _ location _ _ _ :: rest =>
      EvStdout "[tex2pdf-setup] Downloading TinyTeX (~200MB)..." :: EvDownload url
      :: redirect_events location rest
  | _ => []
  end.

(** A line on stderr. *)
Definition is_stderr (e : event) : bool :=
  match e with
  | EvStderr _ => true
  | _ => false
  end.

(** A line on stdout, if this event is one, is under the prefix of [log]. *)
Definition prefixed (e : event) : Prop :=
  match e with
  | EvStdout line => String.prefix "[tex2pdf-setup] " line = true
  | _ => True
  end.

Section InstallVocabulary.
Context (w : World) `{PathApi}.

(** The archive [installTinyTeX] asks for. *)
Definition archive_of : string :=
  if String.eqb (PLATFORM w) "win32"
  then "https://github.com/rstudio/tinytex-releases/releases/download/daily/TinyTeX.zip"
  else if String.eqb (PLATFORM w) "darwin"
  then "https://github.com/rstudio/tinytex-releases/releases/download/daily/TinyTeX.tgz"
  else "https://github.com/rstudio/tinytex-releases/releases/download/daily/TinyTeX.tar.gz".

(** The download [installTinyTeX] starts with. *)
Definition fetch : M unit :=
  InstallLatex.downloadFile archive_of (responses w archive_of).

(** The links of the directory that hang and that the process may unlink, in
    the order of [fs.readdirSync]. *)
Definition hanging (d : dir) : list string :=
  List.filter (removable w d) (names w d).


(** The vendored directory after a repair pass, when there is one. *)
Definition repaired (s : option dir) : option dir := repair w <$> s.

(** The events of a repair pass on the vendored directory, when there is one. *)
Definition repairing (s : option dir) : list event :=
  match s with
  | Some d => repair_events w d
  | None => []
  end.

(** What the install functions print when they fail with [message]. *)
Definition failure_report (message : string) : list event :=
  EvStdout ("[tex2pdf-setup] Error installing TinyTeX: " +:+ message) ::
  if String.eqb (PLATFORM w) "win32"
  then [EvStdout "[tex2pdf-setup] Falling back to manual installation instructions:";
        EvStdout "[tex2pdf-setup]   1. choco install tinytex";
        EvStdout "[tex2pdf-setup]   2. scoop install tinytex";
        EvStdout "[tex2pdf-setup]   3. Download from https://github.com/rstudio/tinytex-releases"]
  else [].

(** What [installTinyTeX] does up to the extraction of the archive. *)
Definition unpacking (s : option dir) : list event :=
  EvStdout "[tex2pdf-setup] LaTeX not found. Installing TinyTeX (this may take a few minutes)..."
  :: events (fetch s)
  ++ [EvStdout "[tex2pdf-setup] Extracting TinyTeX..."; EvExtract archive_of].

(** What the install script does before it looks at the vendored directory. *)
Definition probing : list event :=
  [EvStdout "[tex2pdf-setup] Checking for LaTeX installation...";
   EvExec "pdflatex --version"].

(** What [runInstallScript] prints and spawns. *)
Definition spawning : list event :=
  [EvStdout "LaTeX not found. Installing TinyTeX automatically...";
   EvStdout "  This is a one-time setup (~200MB download)";
   EvStdout EmptyString;
   EvSpawn "node" (path_join [dirname__ w; "install-latex.js"])].

(** What [ensureLaTeX] prints when the installation fails. *)
Definition guidance : list event :=
  [EvStderr (Cli.nl +:+ "Failed to install LaTeX automatically.");
   EvStderr "  You can install it manually from:";
   EvStderr "  - https://tug.org/texlive/ (TeX Live)";
   EvStderr "  - https://miktex.org/ (MiKTeX for Windows)";
   EvStderr "  - https://yihui.org/tinytex/ (TinyTeX)"].

End InstallVocabulary.

(** ** The arguments after the input *)

(** An argument that is no flag. *)
Definition positional (arg : string) : bool := negb (String.prefix "--" arg).

(** The output path the arguments choose: the first positional one that is
    not empty, if any. *)
Definition chosen_output (rest : list string) : option string :=
  List.find (fun arg => positional arg && truthy arg) rest.

(** The engine the arguments choose: the value of the last engine flag, or
    [engine] when there is none. *)
Definition chosen_engine (rest : list string) (engine : string) : string :=
  match last (List.filter (String.prefix "--engine=") rest) with
  | Some arg => nth 1 (split "=" arg) EmptyString
  | None => engine
  end.

(** The output path the argument loop has chosen so far. *)
Definition so_far (acc : Cli.parsed_args) : option string :=
  if Cli.falsy_path (Cli.outputFile acc) then None else Cli.outputFile acc.

Section ReturnVocabulary.
Context (w : World).

(** What the events of a conversion that succeeded show: the input exists,
    an output stream was opened at [outputFile], the last run of the engine
    reported no error and the last line names the PDF. *)
Definition converted (inputFile outputFile : string) (l : list event) : Prop :=
  path_exists w inputFile = true
  /\ EvOpenWrite outputFile ∈ l
  /\ last l = Some (EvStdout ("Created: " +:+ outputFile))
  /\ exists cmd, last (engine_runs l) = Some cmd /\ latex w cmd inputFile = None.

End ReturnVocabulary.

(** * Hosts for the concrete runs *)

#[global] Instance event_eq_dec : EqDecision event.
Proof. solve_decision. Defined.

(** The archive [installTinyTeXUnix] asks for on Linux. *)
Definition archive_url : string :=
  "https://github.com/rstudio/tinytex-releases/releases/download/daily/TinyTeX.tar.gz".

(** The bin directory of a freshly unpacked distribution: the engines under
    their own names, and a link the archive ships dangling. *)
Definition unpacked : dir :=
  list_to_map [("pdftex", File); ("xetex", File); ("luatex", File); ("tex", File);
               ("tlmgr", Link (Outside "../../texmf-dist/scripts/texlive/tlmgr.pl"));
               ("man", Link (InDir "share-man"))].

(** A chain of [k] links that ends on the regular entry [hop0]. *)
Fixpoint hops (k : nat) : list (string * entry) :=
  match k with
  | O => [("hop0", File)]
  | S j => ("hop" +:+ pretty (S j), Link (InDir ("hop" +:+ pretty j))) :: hops j
  end.

(** A bin directory in which pdftex is reached through forty links. *)
Definition deep : dir :=
  list_to_map (("pdftex", Link (InDir "hop39")) :: hops 39).

(** A Linux host; what varies is whether the vendored bin directory can be
    written, whether a system LaTeX answers, what the engine says and whether
    the network is there. *)
Definition host_on (writable system_latex online : bool)
    (engine_says : string -> option string) : World :=
  {| PLATFORM := "linux";
     dirname__ := "/opt/tex2pdf";
     exec := fun cmd =>
       if system_latex then
         if String.eqb cmd "pdflatex --version" then Some "pdfTeX 3.141592653"
         else Some ("/usr/bin/pdflatex" +:+ Cli.nl)
       else None;
     path_exists := fun p => String.eqb p "paper.tex";
     outside_accessible := fun p => String.prefix "../../texmf-dist/" p;
     max_links := 40;
     readdir := fun d => (map_to_list d).*1;
     readdir_listing := fun d => Permutation_refl _;
     unlink_permitted := fun _ => writable;
     symlink_permitted := writable;
     copy_permitted := writable;
     latex := fun cmd _ => engine_says cmd;
     spawn_error := None;
     isPostinstall := false;
     responses := fun url =>
       if online then
         [Response 302 "https://objects.githubusercontent.com/TinyTeX.tar.gz" None [] None;
          Response 200 EmptyString (Some "4096") (repeat (repeat Byte.x00 512) 8) None]
       else [RequestError "getaddrinfo ENOTFOUND github.com"];
     extract := fun _ => (Some unpacked, None) |}.

(** The host with a vendored bin directory that can be written. *)
Definition host : bool -> bool -> (string -> option string) -> World := host_on true.

(** Every engine stops on a missing font. *)
Definition fonts_missing (cmd : string) : option string :=
  Some "LaTeX Error: Font TU/lmr/m/n/10 not found".

(** Only pdflatex stops on a missing font. *)
Definition pdflatex_fonts_missing (cmd : string) : option string :=
  if includes "pdflatex" cmd then Some "LaTeX Error: Font T1/cmr/m/n/10 not found" else None.

(** Every engine converts. *)
Definition engine_fine (cmd : string) : option string := None.

(** Every engine run ends on a failed command. *)
Definition command_fails (cmd : string) : option string :=
  Some ("Command failed: " +:+ cmd).

(** A host on which the package directory cannot be written, during
    [npm install]: the temporary archive cannot be opened. *)
Definition host_sealed : World :=
  {| PLATFORM := "linux";
     dirname__ := "/usr/lib/node_modules/tex2pdf";
     exec := fun _ => None;
     path_exists := fun _ => false;
     outside_accessible := fun _ => false;
     max_links := 40;
     readdir := fun d => (map_to_list d).*1;
     readdir_listing := fun d => Permutation_refl _;
     unlink_permitted := fun _ => false;
     symlink_permitted := false;
     copy_permitted := false;
     latex := fun _ _ => None;
     spawn_error := None;
     isPostinstall := true;
     responses := fun _ => [Unwritable "EACCES: permission denied, open"];
     extract := fun s => (s, Some "EACCES: permission denied, mkdir") |}.

(** A host on which the archive arrives and its extraction breaks off,
    leaving xelatex and nothing else. *)
Definition host_partial : World :=
  {| PLATFORM := "linux";
     dirname__ := "/opt/tex2pdf";
     exec := fun _ => None;
     path_exists := fun p => String.eqb p "paper.tex";
     outside_accessible := fun _ => false;
     max_links := 40;
     readdir := fun d => (map_to_list d).*1;
     readdir_listing := fun d => Permutation_refl _;
     unlink_permitted := fun _ => true;
     symlink_permitted := true;
     copy_permitted := true;
     latex := fun _ _ => None;
     spawn_error := None;
     isPostinstall := false;
     responses := fun _ => [Response 200 EmptyString None [repeat Byte.x00 512] None];
     extract := fun _ => (Some ({["xelatex" := File]} : dir),
                          Some "TAR_BAD_ARCHIVE: Unrecognized archive format") |}.

(** * Properties

    ** Symbolic links: accessibility *)

Section LinkTheory.
Context (w : World).

Lemma reach_present d n k : reach w d n k -> is_Some (d !! n).
Proof. destruct 1; eauto. Qed.


Lemma reach_mono d d' n k : d ⊆ d' -> reach w d n k -> reach w d' n k.
Proof.
  intros Hsub Hr. induction Hr.
  - apply reach_file. eapply lookup_weaken; eauto.
  - eapply reach_outside; eauto. eapply lookup_weaken; eauto.
  - eapply reach_link; eauto. eapply lookup_weaken; eauto.
Qed.

Lemma resolve_reach fuel d n :
  resolve w fuel d n = true -> exists k, (k < fuel)%nat /\ reach w d n k.
Proof.
  revert n. induction fuel as [|fuel IH]; intros n; simpl; [done|].
  destruct (d !! n) as [[|[m|p]]|] eqn:Hn; try done.
  - intros _. exists 0%nat. split; [lia|]. by apply reach_file.
  - intros (k & Hlt & Hk)%IH. exists (S k). split; [lia|]. eapply reach_link; eauto.
  - intros Hp. exists 0%nat. split; [lia|]. eapply reach_outside; eauto.
Qed.

Lemma reach_resolve fuel d n k :
  reach w d n k -> (k < fuel)%nat -> resolve w fuel d n = true.
Proof.
  intros Hr. revert fuel. induction Hr; intros [|fuel] Hlt; try lia; simpl.
  - by rewrite H.
  - by rewrite H.
  - rewrite H. apply IHHr. lia.
Qed.

(** [fs.existsSync] decides accessibility. *)
Lemma resolves_accessible d n : resolves w d n = true <-> accessible w d n.
Proof.
  unfold resolves, accessible. split.
  - intros (k & Hlt & Hk)%resolve_reach. exists k. split; [lia|done].
  - intros (k & Hle & Hk). eapply reach_resolve; [done|lia].
Qed.

Lemma accessible_present d n : accessible w d n -> is_Some (d !! n).
Proof. intros (k & _ & Hk). eapply reach_present; eauto. Qed.

Lemma accessible_mono d d' n : d ⊆ d' -> accessible w d n -> accessible w d' n.
Proof. intros Hsub (k & Hle & Hk). exists k. split; [done|]. eapply reach_mono; eauto. Qed.

Lemma resolve_mono fuel d d' n :
  d ⊆ d' -> resolve w fuel d n = true -> resolve w fuel d' n = true.
Proof.
  intros Hsub (k & Hlt & Hk)%resolve_reach.
  eapply reach_resolve; [|done]. eapply reach_mono; eauto.
Qed.

(** A chain that the operating system follows passes through accessible
    entries only: removing an entry that is not accessible keeps it. *)
Lemma reach_delete d b n k :
  ~ accessible w d b -> reach w d n k -> (k <= max_links w)%nat ->
  reach w (delete b d) n k.
Proof.
  intros Hb Hk. induction Hk as [n Hn|n p Hn Hp|n m k Hn Hk IH]; intros Hle.
  - apply reach_file. rewrite lookup_delete_ne; [done|].
    intros ->. apply Hb. exists 0%nat. split; [lia|]. by apply reach_file.
  - eapply reach_outside; [|done]. rewrite lookup_delete_ne; [done|].
    intros ->. apply Hb. exists 0%nat. split; [lia|]. eapply reach_outside; eauto.
  - eapply reach_link; [|apply IH; lia]. rewrite lookup_delete_ne; [done|].
    intros ->. apply Hb. exists (S k). split; [done|]. eapply reach_link; eauto.
Qed.

(** Removing an entry that is not accessible changes the accessibility of no name. *)
Lemma accessible_delete d b n :
  ~ accessible w d b -> accessible w (delete b d) n <-> accessible w d n.
Proof.
  intros Hb. split.
  - apply accessible_mono, delete_subseteq.
  - intros (k & Hle & Hk). exists k. split; [done|]. by apply reach_delete.
Qed.

End LinkTheory.

(** ** The repair pass: pruning *)

Section RepairTheory.
Context (w : World).

Lemma resolves_delete d b n :
  ~ accessible w d b -> resolves w (delete b d) n = resolves w d n.
Proof.
  intros Hb. apply eq_true_iff_eq.
  rewrite !resolves_accessible. by apply accessible_delete.
Qed.

Lemma clean_except_nil d : clean w d <-> clean_except w [] d.
Proof.
  split.
  - intros Hc n e Hn _. eauto.
  - intros Hc n e Hn. eapply Hc; [done|]. apply not_elem_of_nil.
Qed.

Lemma clean_except_resolves skip d n :
  clean_except w skip d -> n ∉ skip -> resolves w d n = bool_decide (is_Some (d !! n)).
Proof.
  intros Hc Hn. apply eq_true_iff_eq. rewrite resolves_accessible, bool_decide_eq_true.
  split; [apply accessible_present|]. intros [e He]. eauto.
Qed.

Lemma clean_resolves d n : clean w d -> resolves w d n = bool_decide (is_Some (d !! n)).
Proof.
  intros Hc%clean_except_nil. apply (clean_except_resolves [] d n Hc), not_elem_of_nil.
Qed.

(** *** The first loop: pruning *)

Lemma prune_entry_run c file d :
  InstallLatex.prune_entry w c file (Some d) =
  if removable w d file then (Ret (S c), Some (delete file d), [EvUnlink file])
  else (Ret c, Some d, []).
Proof.
  unfold InstallLatex.prune_entry, removable, broken, try_catch, bind, lstatSync, accessSync,
    existsSync, unlinkSync, ret, throw, bind. simpl.
  destruct (d !! file) as [[|t]|] eqn:Hf; simpl; try done.
  - destruct (resolves w d file); simpl; [done|]. rewrite Hf.
    destruct (unlink_permitted w file); simpl; [done|]. by rewrite Hf.
  - by rewrite Hf.
Qed.

Lemma prune_run files : forall c d,
  foldM (InstallLatex.prune_entry w) c files (Some d) =
  (Ret (c + length (pruned w d files))%nat, Some (prune w d files), EvUnlink <$> pruned w d files).
Proof.
  induction files as [|file rest IH]; intros c d; simpl.
  - unfold ret. do 2 f_equal. f_equal. lia.
  - unfold bind at 1. rewrite prune_entry_run.
    destruct (removable w d file); rewrite IH; simpl; do 3 f_equal; lia.
Qed.

Lemma broken_not_accessible d n : broken w d n = true -> ~ accessible w d n.
Proof.
  unfold broken. destruct (d !! n) as [[|t]|]; try done.
  intros Hn Ha%resolves_accessible. rewrite Ha in Hn. done.
Qed.

Lemma removable_broken d n : removable w d n = true -> broken w d n = true.
Proof. unfold removable. by intros [? _]%andb_true_iff. Qed.

Lemma broken_delete d b n :
  broken w d b = true -> n <> b -> broken w (delete b d) n = broken w d n.
Proof.
  intros Hb Hne. unfold broken. rewrite lookup_delete_ne by done.
  rewrite resolves_delete; [done|]. by apply broken_not_accessible.
Qed.

Lemma removable_delete d b n :
  removable w d b = true -> n <> b -> removable w (delete b d) n = removable w d n.
Proof.
  intros Hb%removable_broken Hne. unfold removable. by rewrite broken_delete.
Qed.

Lemma prune_accessible files : forall d n,
  accessible w (prune w d files) n <-> accessible w d n.
Proof.
  induction files as [|file rest IH]; intros d n; simpl; [done|].
  rewrite IH. destruct (removable w d file) eqn:Hb; [|done].
  apply accessible_delete. by apply broken_not_accessible, removable_broken.
Qed.

Lemma prune_subseteq files : forall d, prune w d files ⊆ d.
Proof.
  induction files as [|file rest IH]; intros d; simpl; [done|].
  etrans; [apply IH|]. destruct (removable w d file); [apply delete_subseteq|done].
Qed.

(** Pruning keeps the chains that the operating system follows. *)
Lemma prune_reach files : forall d n k,
  reach w d n k -> (k <= max_links w)%nat -> reach w (prune w d files) n k.
Proof.
  induction files as [|file rest IH]; intros d n k Hk Hle; simpl; [done|].
  apply IH; [|done]. destruct (removable w d file) eqn:Hb; [|done].
  apply reach_delete; [|done..]. by apply broken_not_accessible, removable_broken.
Qed.

Lemma prune_resolve fuel files d n :
  (fuel <= S (max_links w))%nat ->
  resolve w fuel (prune w d files) n = resolve w fuel d n.
Proof.
  intros Hfuel. apply eq_true_iff_eq. split.
  - apply resolve_mono, prune_subseteq.
  - intros (k & Hlt & Hk)%resolve_reach. eapply reach_resolve; [|done].
    apply prune_reach; [done|lia].
Qed.

(** Pruning changes what [fs.existsSync] answers for no name. *)
Lemma prune_resolves d files n : resolves w (prune w d files) n = resolves w d n.
Proof. by apply prune_resolve. Qed.

Lemma bool_decide_elem_cons_ne (n file : string) rest :
  n <> file -> bool_decide (n ∈ file :: rest) = bool_decide (n ∈ rest).
Proof.
  intros Hne. apply bool_decide_ext. rewrite elem_of_cons. tauto.
Qed.

Lemma prune_lookup files : forall d n,
  prune w d files !! n =
  if bool_decide (n ∈ files) && removable w d n then None else d !! n.
Proof.
  induction files as [|file rest IH]; intros d n; cbn [prune].
  - rewrite bool_decide_eq_false_2; [done|]. apply not_elem_of_nil.
  - rewrite IH. destruct (decide (n = file)) as [->|Hne].
    + rewrite (bool_decide_eq_true_2 (file ∈ file :: rest)) by (apply elem_of_cons; by left).
      destruct (removable w d file) eqn:Hb; simpl.
      * rewrite lookup_delete_eq. by case_match.
      * rewrite Hb. by rewrite andb_false_r.
    + rewrite (bool_decide_elem_cons_ne _ _ _ Hne).
      destruct (removable w d file) eqn:Hb; [|done].
      rewrite removable_delete by done. by rewrite lookup_delete_ne.
Qed.

Lemma pruned_elem files : forall d n,
  n ∈ pruned w d files <-> n ∈ files /\ removable w d n = true.
Proof.
  induction files as [|file rest IH]; intros d n; simpl.
  - split; [by intros ?%elem_of_nil|by intros [?%elem_of_nil _]].
  - destruct (removable w d file) eqn:Hb.
    + rewrite !elem_of_cons, IH. split.
      * intros [->|[Hin Hn]]; [eauto|].
        destruct (decide (n = file)) as [->|Hne]; [eauto|].
        rewrite removable_delete in Hn by done. eauto.
      * intros [[->|Hin] Hn]; [eauto|].
        destruct (decide (n = file)) as [->|Hne]; [eauto|].
        right. split; [done|]. by rewrite removable_delete.
    + rewrite elem_of_cons, IH. split; [intros [Hin Hn]; eauto|].
      intros [[->|Hin] Hn]; [congruence|done].
Qed.

Lemma pruned_filter files : forall d,
  NoDup files -> pruned w d files = List.filter (removable w d) files.
Proof.
  induction files as [|file rest IH]; intros d Hnd; [done|].
  apply NoDup_cons in Hnd as [Hfile Hnd]. simpl.
  destruct (removable w d file) eqn:Hb; [|by apply IH].
  f_equal. rewrite IH by done.
  apply List.filter_ext_in. intros n Hn. apply removable_delete; [done|].
  intros ->. apply Hfile. by apply list_elem_of_In.
Qed.

Lemma prune_nothing files d :
  (forall n, n ∈ files -> removable w d n = false) ->
  pruned w d files = [] /\ prune w d files = d.
Proof.
  revert d. induction files as [|file rest IH]; intros d Hall; simpl; [done|].
  rewrite (Hall file) by (apply elem_of_cons; by left).
  apply IH. intros n Hn. apply Hall. apply elem_of_cons. by right.
Qed.

(** [fs.readdirSync] lists every name once, in some order. *)
Lemma elem_of_names d n : n ∈ names w d <-> is_Some (d !! n).
Proof.
  unfold names. rewrite (readdir_listing w d), list_elem_of_fmap. split.
  - intros [[n' e] [-> Hin]]. apply elem_of_map_to_list in Hin. eauto.
  - intros [e He]. exists (n, e). split; [done|]. by apply elem_of_map_to_list.
Qed.

Lemma NoDup_names d : NoDup (names w d).
Proof. unfold names. rewrite (readdir_listing w d). apply NoDup_fst_map_to_list. Qed.

Lemma pruned_names d : pruned w d (names w d) = hanging w d.
Proof. apply pruned_filter, NoDup_names. Qed.

Lemma clean_not_broken d n : clean w d -> broken w d n = false.
Proof.
  intros Hc. unfold broken. destruct (d !! n) as [[|t]|] eqn:Hn; try done.
  apply negb_false_iff, resolves_accessible. eauto.
Qed.

Lemma clean_not_removable d n : clean w d -> removable w d n = false.
Proof. intros Hc. unfold removable. by rewrite clean_not_broken. Qed.

Lemma prune_names_lookup d n :
  prune w d (names w d) !! n = if removable w d n then None else d !! n.
Proof.
  rewrite prune_lookup. destruct (removable w d n) eqn:Hb; [|by rewrite andb_false_r].
  rewrite bool_decide_eq_true_2; [done|]. apply elem_of_names.
  apply removable_broken in Hb. unfold broken in Hb. destruct (d !! n); [eauto|done].
Qed.

(** The order in which [fs.readdirSync] lists the entries does not matter
    to the directory the first loop leaves. *)
Lemma prune_any_order d files :
  (forall n, is_Some (d !! n) -> n ∈ files) -> prune w d files = prune w d (names w d).
Proof.
  intros Hcover. apply map_eq. intros n. rewrite prune_lookup, prune_names_lookup.
  destruct (removable w d n) eqn:Hb; [|by rewrite andb_false_r].
  rewrite bool_decide_eq_true_2; [done|]. apply Hcover.
  apply removable_broken in Hb. unfold broken in Hb. destruct (d !! n); [eauto|done].
Qed.

(** When every hanging link can be unlinked, none is left. *)
Lemma prune_clean d : prunable w d -> clean w (prune w d (names w d)).
Proof.
  intros Hp n e Hn. apply prune_accessible. rewrite prune_names_lookup in Hn.
  destruct (removable w d n) eqn:Hb; [done|].
  destruct e as [|t].
  - exists 0%nat. split; [lia|]. by apply reach_file.
  - apply resolves_accessible. unfold removable, broken in Hb.
    destruct (broken w d n) eqn:Hbr.
    + rewrite (Hp n Hbr) in Hb. unfold broken in Hbr. rewrite Hn in Hbr, Hb.
      by rewrite Hbr in Hb.
    + unfold broken in Hbr. rewrite Hn in Hbr. by apply negb_false_iff.
Qed.

End RepairTheory.

(** ** The repair pass: aliases *)

Section AliasTheory.
Context (w : World).

(** *** The second loop: aliases *)

Lemma write_through_subseteq fuel : forall d to d',
  write_through w fuel d to = Some d' -> d ⊆ d'.
Proof.
  induction fuel as [|fuel IH]; intros d to d'; simpl; [done|].
  destruct (d !! to) as [[|[m|p]]|] eqn:Hto.
  - by intros [= <-].
  - apply IH.
  - destruct (outside_accessible w p); [by intros [= <-]|done].
  - intros [= <-]. by apply insert_subseteq.
Qed.

Lemma try_alias_subseteq d from to d' : try_alias w d from to = Some d' -> d ⊆ d'.
Proof.
  unfold try_alias. destruct (d !! to) eqn:Hto.
  - destruct (copy_permitted w); [apply write_through_subseteq|done].
  - destruct (symlink_permitted w); [intros [= <-]; by apply insert_subseteq|].
    destruct (copy_permitted w); [apply write_through_subseteq|done].
Qed.

Lemma try_alias_absent d from to :
  d !! to = None ->
  try_alias w d from to = (fun e => <[to := e]> d) <$> alias_entry w from.
Proof.
  intros Hto. unfold try_alias, alias_entry. rewrite Hto.
  destruct (symlink_permitted w); [done|]. destruct (copy_permitted w); [|done].
  simpl. by rewrite Hto.
Qed.

Lemma make_alias_run d pair :
  InstallLatex.make_alias w pair (Some d) =
  (Ret tt, Some (add_alias w d pair), add_alias_events w d pair).
Proof.
  unfold InstallLatex.make_alias, add_alias, add_alias_events, wants_alias,
    try_alias, try_alias_event, bind, existsSync, try_catch, symlinkSync, copyFileSync, ret.
  destruct (resolves w d (exe w pair.1)) eqn:Hf; [|done].
  destruct (resolves w d (exe w pair.2)) eqn:Ht; [done|]. cbn [negb andb].
  destruct (d !! exe w pair.2) as [e|] eqn:Hto.
  - rewrite Hf. destruct (copy_permitted w); [|done].
    destruct (write_through w (S (max_links w)) d (exe w pair.2)); reflexivity.
  - destruct (symlink_permitted w); [done|]. rewrite Hf.
    destruct (copy_permitted w); [|done].
    destruct (write_through w (S (max_links w)) d (exe w pair.2)); reflexivity.
Qed.

Lemma add_alias_subseteq d pair : d ⊆ add_alias w d pair.
Proof.
  unfold add_alias. destruct (wants_alias w d pair); [|done].
  destruct (try_alias w d _ _) as [d'|] eqn:Htry; [|done].
  simpl. by eapply try_alias_subseteq.
Qed.

Lemma alias_events_shape pairs : forall d e,
  e ∈ alias_events w d pairs ->
  exists from to, e = EvSymlink from to \/ e = EvCopy from to.
Proof.
  induction pairs as [|p rest IH]; intros d e; simpl.
  - by intros ?%elem_of_nil.
  - rewrite elem_of_app. intros [Hin|Hin]; [|by eapply IH].
    unfold add_alias_events, try_alias_event in Hin.
    destruct (wants_alias w d p); [|by apply elem_of_nil in Hin].
    destruct (try_alias w d _ _); [|by apply elem_of_nil in Hin].
    apply list_elem_of_singleton in Hin. subst.
    destruct (d !! _); [eauto|]. destruct (symlink_permitted w); eauto.
Qed.

Lemma aliases_run pairs : forall d,
  forM_ pairs (InstallLatex.make_alias w) (Some d) =
  (Ret tt, Some (fold_left (add_alias w) pairs d), alias_events w d pairs).
Proof.
  unfold forM_. induction pairs as [|pair rest IH]; intros d; simpl; [done|].
  unfold bind at 1. rewrite make_alias_run. by rewrite IH.
Qed.

Lemma aliases_subseteq pairs : forall d, d ⊆ fold_left (add_alias w) pairs d.
Proof.
  induction pairs as [|pair rest IH]; intros d; simpl; [done|].
  etrans; [apply add_alias_subseteq|]. apply IH.
Qed.

(** *** The second loop when no link hangs, the aliases made so far apart *)

Lemma wanted_absent skip d pair :
  clean_except w skip d -> exe w pair.2 ∉ skip ->
  wants_alias w d pair = true -> d !! exe w pair.2 = None.
Proof.
  intros Hc Hto [_ Ht%negb_true_iff]%andb_true_iff.
  rewrite (clean_except_resolves w skip) in Ht by done.
  apply bool_decide_eq_false in Ht. by apply eq_None_not_Some.
Qed.

Lemma add_alias_lookup skip d pair n :
  clean_except w skip d -> exe w pair.2 ∉ skip ->
  add_alias w d pair !! n =
  if wants_alias w d pair && bool_decide (n = exe w pair.2)
  then alias_entry w (exe w pair.1) else d !! n.
Proof.
  intros Hc Hto. unfold add_alias.
  destruct (wants_alias w d pair) eqn:Hw; simpl; [|done].
  pose proof (wanted_absent skip d pair Hc Hto Hw) as Hnone.
  rewrite try_alias_absent by done.
  destruct (alias_entry w (exe w pair.1)) as [e|]; simpl.
  - case_bool_decide as Hn; [subst; apply lookup_insert_eq|by rewrite lookup_insert_ne].
  - case_bool_decide as Hn; [by subst|done].
Qed.

Lemma add_alias_clean_except skip d pair :
  clean_except w skip d -> exe w pair.2 ∉ skip ->
  clean_except w (exe w pair.2 :: skip) (add_alias w d pair).
Proof.
  intros Hc Hto n e Hn [Hne Hskip]%not_elem_of_cons.
  eapply accessible_mono; [apply add_alias_subseteq|].
  rewrite (add_alias_lookup skip) in Hn by done.
  rewrite (bool_decide_eq_false_2 _ Hne), andb_false_r in Hn. eauto.
Qed.

Lemma apart_cons skip (p : string * string) rest :
  separate w (p :: rest) -> apart w skip (p :: rest) ->
  separate w rest /\ apart w (exe w p.2 :: skip) rest.
Proof.
  intros [Hnd Hsep] Hskip. rewrite fmap_cons in Hnd. apply NoDup_cons in Hnd as [Hp Hnd].
  split.
  - split; [done|]. intros p' q' Hp' Hq'. apply Hsep; apply elem_of_cons; eauto.
  - intros q Hq. destruct (Hskip q) as [H1 H2]; [apply elem_of_cons; by right|].
    split; apply not_elem_of_cons; (split; [|done]).
    + apply Hsep; apply elem_of_cons; eauto.
    + intros Heq. apply Hp. rewrite <- Heq. apply list_elem_of_fmap. by exists q.
Qed.

Lemma aliases_lookup_other pairs : forall skip d n,
  clean_except w skip d -> separate w pairs -> apart w skip pairs ->
  n ∉ (fun pair => exe w pair.2) <$> pairs ->
  fold_left (add_alias w) pairs d !! n = d !! n.
Proof.
  induction pairs as [|p rest IH]; intros skip d n Hc Hsep Hskip Hn; simpl; [done|].
  rewrite fmap_cons, not_elem_of_cons in Hn. destruct Hn as [Hne Hn].
  destruct (Hskip p) as [_ Hto]; [apply elem_of_cons; by left|].
  destruct (apart_cons skip p rest Hsep Hskip) as [Hsep' Hskip'].
  rewrite (IH (exe w p.2 :: skip)); [|by apply add_alias_clean_except|done..].
  rewrite (add_alias_lookup skip) by done.
  rewrite (bool_decide_eq_false_2 _ Hne). by rewrite andb_false_r.
Qed.

(** What the second loop leaves under an alias name. *)
Lemma aliases_lookup pairs : forall skip d pair,
  clean_except w skip d -> separate w pairs -> apart w skip pairs -> pair ∈ pairs ->
  fold_left (add_alias w) pairs d !! exe w pair.2 =
  if wants_alias w d pair then alias_entry w (exe w pair.1) else d !! exe w pair.2.
Proof.
  induction pairs as [|p rest IH]; intros skip d pair Hc Hsep Hskip Hin; simpl.
  - by apply elem_of_nil in Hin.
  - destruct (Hskip p) as [_ Hto]; [apply elem_of_cons; by left|].
    destruct (apart_cons skip p rest Hsep Hskip) as [Hsep' Hskip'].
    pose proof (add_alias_clean_except skip d p Hc Hto) as Hc'.
    destruct Hsep as [Hnd Hsep]. rewrite fmap_cons in Hnd. apply NoDup_cons in Hnd as [Hp Hnd].
    apply elem_of_cons in Hin as [->|Hin].
    + rewrite (aliases_lookup_other rest (exe w p.2 :: skip)) by done.
      rewrite (add_alias_lookup skip) by done.
      rewrite bool_decide_eq_true_2 by done. by rewrite andb_true_r.
    + assert (exe w pair.2 <> exe w p.2) as Hne.
      { intros Heq. apply Hp. rewrite <- Heq.
        apply list_elem_of_fmap. by exists pair. }
      assert (exe w pair.1 <> exe w p.2) as Hne1.
      { apply Hsep; apply elem_of_cons; eauto. }
      destruct (Hskip pair) as [Hs1 Hs2]; [apply elem_of_cons; by right|].
      destruct (Hskip' pair Hin) as [Hs1' Hs2'].
      rewrite (IH (exe w p.2 :: skip)) by done.
      assert (wants_alias w (add_alias w d p) pair = wants_alias w d pair) as ->.
      { unfold wants_alias.
        rewrite !(clean_except_resolves w (exe w p.2 :: skip) (add_alias w d p)) by done.
        rewrite !(clean_except_resolves w skip d) by done.
        rewrite !(add_alias_lookup skip) by done.
        rewrite (bool_decide_eq_false_2 _ Hne), (bool_decide_eq_false_2 _ Hne1).
        by rewrite !andb_false_r. }
      rewrite (add_alias_lookup skip) by done. rewrite (bool_decide_eq_false_2 _ Hne).
      by rewrite andb_false_r.
Qed.

(** *** The second loop keeps the directory clean when the aliases can be followed *)

Lemma add_alias_clean d pair :
  clean w d ->
  (resolves w d (exe w pair.1) = true -> resolve w (max_links w) d (exe w pair.1) = true) ->
  clean w (add_alias w d pair).
Proof.
  intros Hc Hdepth n e Hn. pose proof (proj1 (clean_except_nil w d) Hc) as Hc0.
  rewrite (add_alias_lookup [] d pair n Hc0) in Hn by apply not_elem_of_nil.
  destruct (wants_alias w d pair && bool_decide (n = exe w pair.2)) eqn:Hcase.
  - apply andb_true_iff in Hcase as [Hw ->%bool_decide_eq_true].
    pose proof (wanted_absent [] d pair Hc0 (not_elem_of_nil _) Hw) as Hnone.
    apply andb_true_iff in Hw as [Hf _]. specialize (Hdepth Hf).
    apply resolve_reach in Hdepth as (k & Hlt & Hk).
    assert (add_alias w d pair !! exe w pair.2 = Some e) as Hlook.
    { rewrite (add_alias_lookup [] d pair _ Hc0) by apply not_elem_of_nil.
      unfold wants_alias. rewrite Hf, bool_decide_eq_true_2 by done.
      rewrite (clean_except_resolves w [] d) by (done || apply not_elem_of_nil).
      rewrite Hnone. by rewrite bool_decide_eq_false_2 by (by intros [? ?]). }
    unfold alias_entry in Hn. destruct (symlink_permitted w).
    + injection Hn as <-. exists (S k). split; [lia|].
      eapply reach_link; [exact Hlook|]. eapply reach_mono; [apply add_alias_subseteq|done].
    + destruct (copy_permitted w); [|done]. injection Hn as <-.
      exists 0%nat. split; [lia|]. by apply reach_file.
  - eapply accessible_mono; [apply add_alias_subseteq|]. eauto.
Qed.

Lemma aliasable_add_alias d p pairs :
  clean w d -> (forall q, q ∈ pairs -> exe w q.1 <> exe w p.2) ->
  aliasable w d pairs -> aliasable w (add_alias w d p) pairs.
Proof.
  intros Hc Hsep Hal q Hq Hres.
  pose proof (proj1 (clean_except_nil w d) Hc) as Hc0.
  destruct (resolves w d (exe w q.1)) eqn:Hd.
  - eapply resolve_mono; [apply add_alias_subseteq|]. by apply Hal.
  - rewrite clean_resolves in Hd by done. apply bool_decide_eq_false in Hd.
    apply resolves_accessible, accessible_present in Hres.
    rewrite (add_alias_lookup [] d p _ Hc0) in Hres by apply not_elem_of_nil.
    rewrite (bool_decide_eq_false_2 (exe w q.1 = exe w p.2)) in Hres by (by apply Hsep).
    by rewrite andb_false_r in Hres.
Qed.

Lemma aliases_clean pairs : forall d,
  clean w d -> separate w pairs -> aliasable w d pairs ->
  clean w (fold_left (add_alias w) pairs d).
Proof.
  induction pairs as [|p rest IH]; intros d Hc Hsep Hal; simpl; [done|].
  assert (forall q, q ∈ rest -> exe w q.1 <> exe w p.2) as Hne.
  { intros q Hq. apply (proj2 Hsep); apply elem_of_cons; eauto. }
  apply IH.
  - apply add_alias_clean; [done|]. apply Hal. apply elem_of_cons. by left.
  - destruct Hsep as [Hnd Hsep]. rewrite fmap_cons in Hnd. apply NoDup_cons in Hnd as [_ Hnd].
    split; [done|]. intros p' q' Hp' Hq'. apply Hsep; apply elem_of_cons; eauto.
  - apply aliasable_add_alias; [done..|].
    intros q Hq. apply Hal. apply elem_of_cons. by right.
Qed.

End AliasTheory.

(** ** The repair pass as a whole *)

Section PassTheory.
Context (w : World).

(** *** The whole pass *)

Lemma fixTinyTeXSymlinks_run d :
  InstallLatex.fixTinyTeXSymlinks w (Some d) = (Ret true, Some (repair w d), repair_events w d).
Proof.
  unfold InstallLatex.fixTinyTeXSymlinks, repair, repair_events.
  unfold bind at 1. unfold existsSync_binPath.
  rewrite bool_decide_eq_true_2 by eauto. cbn [negb].
  unfold bind at 1. unfold readdirSync. fold (names w d).
  unfold bind at 1. rewrite prune_run. cbn [Nat.add].
  unfold bind at 1.
  pose proof (aliases_run w InstallLatex.symlinks (prune w d (names w d))) as Hal.
  destruct (0 <? length (pruned w d (names w d)))%nat.
  - unfold InstallLatex.log, console_log, emit. unfold bind at 1. rewrite Hal.
    unfold ret. simpl. by rewrite app_nil_r.
  - unfold ret at 1. unfold bind at 1. rewrite Hal.
    unfold ret. simpl. by rewrite app_nil_r.
Qed.

Lemma fixTinyTeXSymlinks_absent :
  InstallLatex.fixTinyTeXSymlinks w None = (Ret false, None, []).
Proof. reflexivity. Qed.

Lemma symlinks_separate : separate w InstallLatex.symlinks.
Proof.
  unfold separate, exe, InstallLatex.symlinks.
  destruct (String.eqb (PLATFORM w) "win32"); split.
  - simpl. apply (bool_decide_unpack (NoDup _)). by vm_compute.
  - intros p q Hp Hq. set_unfold. intuition subst; simpl; discriminate.
  - simpl. apply (bool_decide_unpack (NoDup _)). by vm_compute.
  - intros p q Hp Hq. set_unfold. intuition subst; simpl; discriminate.
Qed.

Lemma symlinks_apart : apart w [] InstallLatex.symlinks.
Proof. intros p _. split; apply not_elem_of_nil. Qed.

Lemma engine_not_alias (pair : string * string) :
  pair ∈ InstallLatex.symlinks ->
  exe w pair.1 ∉ (fun q : string * string => exe w q.2) <$> InstallLatex.symlinks.
Proof.
  intros Hin Hel. apply list_elem_of_fmap in Hel as [q' [Heq Hq']].
  by apply (proj2 symlinks_separate pair q').
Qed.


Lemma repair_resolve fuel d n :
  (fuel <= S (max_links w))%nat ->
  resolve w fuel d n = true -> resolve w fuel (repair w d) n = true.
Proof.
  intros Hfuel Hn. eapply resolve_mono; [apply aliases_subseteq|].
  by rewrite prune_resolve.
Qed.

Lemma repair_resolves d n : resolves w d n = true -> resolves w (repair w d) n = true.
Proof. by apply repair_resolve. Qed.

Lemma prune_aliasable d pairs : aliasable w d pairs -> aliasable w (prune w d (names w d)) pairs.
Proof.
  intros Hal pair Hin. rewrite prune_resolves, prune_resolve by lia. by apply Hal.
Qed.

(** When every hanging link can be unlinked and the aliases can be
    followed, the pass leaves no hanging link. *)
Lemma repair_clean d :
  prunable w d -> aliasable w d InstallLatex.symlinks -> clean w (repair w d).
Proof.
  intros Hp Hal. apply aliases_clean; [by apply prune_clean|apply symlinks_separate|].
  by apply prune_aliasable.
Qed.

(** What the pass leaves under an alias name. *)
Lemma repair_lookup_alias d pair :
  prunable w d -> pair ∈ InstallLatex.symlinks ->
  repair w d !! exe w pair.2 =
  if wants_alias w d pair
  then alias_entry w (exe w pair.1)
  else prune w d (names w d) !! exe w pair.2.
Proof.
  intros Hp Hin. unfold repair.
  rewrite (aliases_lookup w InstallLatex.symlinks [] _ pair);
    [|by apply clean_except_nil, prune_clean|apply symlinks_separate|apply symlinks_apart|done].
  unfold wants_alias. by rewrite !prune_resolves.
Qed.

Lemma repair_lookup_other d n :
  prunable w d -> n ∉ (fun pair : string * string => exe w pair.2) <$> InstallLatex.symlinks ->
  repair w d !! n = prune w d (names w d) !! n.
Proof.
  intros Hp Hn. unfold repair.
  apply (aliases_lookup_other w InstallLatex.symlinks []);
    [by apply clean_except_nil, prune_clean|apply symlinks_separate|apply symlinks_apart|done].
Qed.

Lemma repair_lookup_engine d pair :
  prunable w d -> pair ∈ InstallLatex.symlinks ->
  repair w d !! exe w pair.1 = prune w d (names w d) !! exe w pair.1.
Proof. intros Hp Hin. apply repair_lookup_other; [done|]. by apply engine_not_alias. Qed.

Lemma clean_resolves_match d n :
  clean w d -> resolves w d n = match d !! n with Some _ => true | None => false end.
Proof.
  intros Hc. rewrite clean_resolves by done.
  destruct (d !! n); [by apply bool_decide_eq_true_2|].
  apply bool_decide_eq_false_2. by intros [? ?].
Qed.

(** After the pass every engine that exists has its alias, unless neither
    a link nor a copy could be made. *)
Lemma repair_closed d pair :
  prunable w d -> aliasable w d InstallLatex.symlinks -> pair ∈ InstallLatex.symlinks ->
  wants_alias w (repair w d) pair = true -> alias_entry w (exe w pair.1) = None.
Proof.
  intros Hp Hal Hin. unfold wants_alias at 1.
  rewrite !clean_resolves_match by (by apply repair_clean).
  rewrite repair_lookup_alias, repair_lookup_engine by done.
  pose proof (prune_clean w d Hp) as Hc.
  unfold wants_alias. rewrite <- !(prune_resolves w d (names w d)).
  rewrite !clean_resolves_match by done.
  destruct (prune w d (names w d) !! exe w pair.1) as [e1|] eqn:H1; [|done].
  destruct (prune w d (names w d) !! exe w pair.2) as [e2|] eqn:H2; simpl; [done|].
  by destruct (alias_entry w (exe w pair.1)).
Qed.

Lemma aliases_nothing pairs d :
  (forall pair, pair ∈ pairs ->
     wants_alias w d pair = true -> try_alias w d (exe w pair.1) (exe w pair.2) = None) ->
  fold_left (add_alias w) pairs d = d /\ alias_events w d pairs = [].
Proof.
  induction pairs as [|p rest IH]; intros Hall; simpl; [done|].
  assert (add_alias w d p = d /\ add_alias_events w d p = []) as [-> ->].
  { unfold add_alias, add_alias_events.
    destruct (wants_alias w d p) eqn:Hw; [|done].
    rewrite (Hall p) by (done || apply elem_of_cons; by left). done. }
  apply IH. intros pair Hin. apply Hall. apply elem_of_cons. by right.
Qed.

(** A second pass finds nothing to do. *)
Lemma repair_repair d :
  prunable w d -> aliasable w d InstallLatex.symlinks ->
  repair w (repair w d) = repair w d /\ repair_events w (repair w d) = [].
Proof.
  intros Hp Hal. pose proof (repair_clean d Hp Hal) as Hc.
  destruct (prune_nothing w (names w (repair w d)) (repair w d)) as [Hp' Hq].
  { intros n _. by apply clean_not_removable. }
  destruct (aliases_nothing InstallLatex.symlinks (repair w d)) as [Ha Hb].
  { intros pair Hin Hw.
    rewrite try_alias_absent.
    - by rewrite (repair_closed d pair).
    - eapply (wanted_absent w []); [by apply clean_except_nil|apply not_elem_of_nil|done]. }
  unfold repair at 1, repair_events. by rewrite Hp', Hq, Ha, Hb.
Qed.

Lemma repair_events_unlink d n :
  EvUnlink n ∈ repair_events w d <-> removable w d n = true.
Proof.
  unfold repair_events. rewrite !elem_of_app. split.
  - intros [Hin|[Hin|Hin]].
    + apply list_elem_of_fmap in Hin as [n' [[= ->] Hn']].
      by apply pruned_elem in Hn' as [_ ?].
    + destruct (0 <? _)%nat; [|by apply elem_of_nil in Hin].
      by apply list_elem_of_singleton in Hin.
    + apply alias_events_shape in Hin as (from & to & [?|?]); done.
  - intros Hb. left. apply list_elem_of_fmap. exists n. split; [done|].
    apply pruned_elem. split; [|done]. apply elem_of_names.
    apply removable_broken in Hb. unfold broken in Hb. destruct (d !! n); [eauto|done].
Qed.

End PassTheory.

(** ** Reasoning about computations *)

Lemma bind_run {A B} (m : M A) (f : A -> M B) s a s1 l1 :
  m s = (Ret a, s1, l1) ->
  bind m f s = (outcome (f a s1), final (f a s1), l1 ++ events (f a s1)).
Proof. unfold bind. intros ->. by destruct (f a s1) as [[r s2] l2]. Qed.

Lemma bind_ret_l {A B} (a : A) (f : A -> M B) s : bind (ret a) f s = f a s.
Proof. unfold bind, ret. by destruct (f a s) as [[r s2] l2]. Qed.

Lemma bind_ext {A B} (m : M A) (f g : A -> M B) s :
  (forall a s1, f a s1 = g a s1) -> bind m f s = bind m g s.
Proof.
  intros Hfg. unfold bind. destruct (m s) as [[[a|e|c] s1] l1]; [|done..].
  by rewrite Hfg.
Qed.

Lemma try_catch_run_throw {A} (m : M A) h s e s1 l1 :
  m s = (Throw e, s1, l1) ->
  try_catch m h s = (outcome (h e s1), final (h e s1), l1 ++ events (h e s1)).
Proof. unfold try_catch. intros ->. by destruct (h e s1) as [[r s2] l2]. Qed.

Lemma returns_no_exit {A} (m : M A) : returns m -> no_exit m.
Proof. intros Hm s c. destruct (Hm s) as (a & s' & l & ->). done. Qed.

Lemma returns_ret {A} (a : A) : returns (ret a).
Proof. intros s. by eexists _, _, _. Qed.

Lemma returns_emit e : returns (emit e).
Proof. intros s. by eexists _, _, _. Qed.

Lemma returns_bind {A B} (m : M A) (f : A -> M B) :
  returns m -> (forall a, returns (f a)) -> returns (bind m f).
Proof.
  intros Hm Hf s. destruct (Hm s) as (a & s1 & l1 & Hs).
  destruct (Hf a s1) as (b & s2 & l2 & Hs2).
  rewrite (bind_run _ _ _ _ _ _ Hs), Hs2. by eexists _, _, _.
Qed.

Lemma returns_try_catch {A} (m : M A) h :
  no_exit m -> (forall e, returns (h e)) -> returns (try_catch m h).
Proof.
  intros Hm Hh s. specialize (Hm s). unfold try_catch.
  destruct (m s) as [[[a|e|c] s1] l1] eqn:Hs.
  - by eexists _, _, _.
  - destruct (Hh e s1) as (b & s2 & l2 & ->). by eexists _, _, _.
  - by destruct (Hm c).
Qed.

Lemma no_exit_throw {A} e : no_exit (@throw A e).
Proof. done. Qed.

Lemma no_exit_bind {A B} (m : M A) (f : A -> M B) :
  no_exit m -> (forall a, no_exit (f a)) -> no_exit (bind m f).
Proof.
  intros Hm Hf s c. specialize (Hm s). unfold bind.
  destruct (m s) as [[[a|e|c'] s1] l1]; [|done|by destruct (Hm c')].
  specialize (Hf a s1 c). by destruct (f a s1) as [[r s2] l2].
Qed.

Lemma emits_ret {A} P (a : A) : emits P (ret a).
Proof. intros s. constructor. Qed.

Lemma emits_throw {A} P e : emits P (@throw A e).
Proof. intros s. constructor. Qed.

Lemma emits_exit {A} P c : emits P (@process_exit A c).
Proof. intros s. constructor. Qed.

Lemma emits_uncaught {A} (P : event -> Prop) message :
  P (EvUncaught message) -> emits P (@uncaught A message).
Proof. intros He s. by repeat constructor. Qed.

Lemma emits_emit (P : event -> Prop) e : P e -> emits P (emit e).
Proof. intros He s. by repeat constructor. Qed.

Lemma emits_bind {A B} P (m : M A) (f : A -> M B) :
  emits P m -> (forall a, emits P (f a)) -> emits P (bind m f).
Proof.
  intros Hm Hf s. specialize (Hm s). unfold bind, events in *.
  destruct (m s) as [[[a|e|c] s1] l1]; simpl in *; try done.
  specialize (Hf a s1). destruct (f a s1) as [[r s2] l2]. simpl in *.
  by apply Forall_app.
Qed.

Lemma emits_try_catch {A} P (m : M A) h :
  emits P m -> (forall e, emits P (h e)) -> emits P (try_catch m h).
Proof.
  intros Hm Hh s. specialize (Hm s). unfold try_catch, events in *.
  destruct (m s) as [[[a|e|c] s1] l1]; simpl in *; try done.
  specialize (Hh e s1). destruct (h e s1) as [[r s2] l2]. simpl in *.
  by apply Forall_app.
Qed.

Lemma emits_foldM {A B} P (body : A -> B -> M A) xs :
  (forall a x, emits P (body a x)) -> forall a, emits P (foldM body a xs).
Proof.
  intros Hb. induction xs as [|x xs IH]; intros a; simpl.
  - apply emits_ret.
  - apply emits_bind; auto.
Qed.

Lemma emits_if {A} P (b : bool) (m1 m2 : M A) :
  emits P m1 -> emits P m2 -> emits P (if b then m1 else m2).
Proof. by destruct b. Qed.

Lemma emits_console_log (P : event -> Prop) line :
  P (EvStdout line) -> emits P (console_log line).
Proof. apply emits_emit. Qed.

Lemma emits_console_error (P : event -> Prop) line :
  P (EvStderr line) -> emits P (console_error line).
Proof. apply emits_emit. Qed.

Create HintDb emits.

(** One step through the syntax of a computation; what is left is about
    the functions it calls. *)
Ltac emits_event := solve [ reflexivity | intros ? [=] | done ].

Ltac emits_step :=
  lazymatch goal with
  | |- emits _ (bind _ _) => apply emits_bind; [|intros ?]
  | |- emits _ (try_catch _ _) => apply emits_try_catch; [|intros ?]
  | |- emits _ (foldM _ _ _) => apply emits_foldM; intros ? ?
  | |- emits _ (ret _) => apply emits_ret
  | |- emits _ (throw _) => apply emits_throw
  | |- emits _ (process_exit _) => apply emits_exit
  | |- emits _ (uncaught _) => apply emits_uncaught; emits_event
  | |- emits _ (emit _) => apply emits_emit; emits_event
  | |- emits _ (console_log _) => apply emits_console_log; emits_event
  | |- emits _ (console_error _) => apply emits_console_error; emits_event
  | |- emits _ (if ?b then _ else _) => destruct b
  | |- emits _ (match ?x with _ => _ end) => destruct x
  | |- emits _ _ => solve [auto with emits]
  end.
Ltac emits_steps := repeat emits_step.

(** ** Locating and installing LaTeX runs no conversion *)

Section SetupTheory.
Context (w : World) `{PathApi}.

Lemma emits_execSync cmd : emits no_conversion (execSync w cmd).
Proof. unfold execSync. emits_steps. Qed.

Lemma emits_existsSync P n : emits P (existsSync w n).
Proof. intros s. constructor. Qed.

Lemma emits_fixTinyTeXSymlinks : emits no_conversion (InstallLatex.fixTinyTeXSymlinks w).
Proof.
  intros [d|]; [|constructor].
  rewrite fixTinyTeXSymlinks_run. unfold events, repair_events. cbn [snd].
  rewrite !Forall_app. split_and!.
  - apply Forall_fmap, Forall_true. done.
  - by destruct (0 <? _)%nat; repeat constructor.
  - apply Forall_forall. intros e He.
    by apply alias_events_shape in He as (from & to & [->| ->]).
Qed.

Lemma returns_fixTinyTeXSymlinks : returns (InstallLatex.fixTinyTeXSymlinks w).
Proof.
  intros [d|].
  - rewrite fixTinyTeXSymlinks_run. by eexists _, _, _.
  - by eexists _, _, _.
Qed.

Lemma emits_log message : emits no_conversion (InstallLatex.log message).
Proof. unfold InstallLatex.log. emits_steps. Qed.

Hint Resolve emits_log emits_execSync emits_existsSync emits_fixTinyTeXSymlinks : emits.

Lemma emits_on_data total st chunk : emits no_conversion (InstallLatex.on_data total st chunk).
Proof. unfold InstallLatex.on_data. emits_steps. Qed.

Hint Resolve emits_on_data : emits.

Lemma emits_downloadFile answers : forall url,
  emits no_conversion (InstallLatex.downloadFile url answers).
Proof.
  induction answers as [|answer rest IH]; intros url; simpl; emits_steps.
Qed.

Lemma emits_extract_archive url : emits no_conversion (InstallLatex.extract_archive w url).
Proof.
  intros s. unfold InstallLatex.extract_archive, events.
  destruct (extract w s) as [s' failure]. simpl. by repeat constructor.
Qed.

Hint Resolve emits_downloadFile emits_extract_archive : emits.

Lemma emits_installTinyTeX : emits no_conversion (InstallLatex.installTinyTeX w).
Proof.
  unfold InstallLatex.installTinyTeX, InstallLatex.installTinyTeXWindows,
    InstallLatex.installTinyTeXUnix.
  emits_steps.
Qed.

Hint Resolve emits_installTinyTeX : emits.

Lemma emits_install_main : emits no_conversion (InstallLatex.main w).
Proof.
  unfold InstallLatex.main, InstallLatex.checkExistingLaTeX, InstallLatex.checkTinyTeXInstalled.
  emits_steps.
Qed.

Lemma emits_run_child P (child : M unit) : emits P child -> emits P (Cli.run_child child).
Proof.
  intros Hc s. specialize (Hc s). unfold Cli.run_child, events in *.
  by destruct (child s) as [[[a|e|c] s1] l1].
Qed.

End SetupTheory.

(** ** The Locator *)

Section LocatorTheory.
Context (w : World) `{PathApi}.

Lemma findSystemLaTeX_run s :
  FindLatex.findSystemLaTeX w s = (Ret (system_location w), s, [EvExec WHICH]).
Proof.
  unfold FindLatex.findSystemLaTeX, system_location, try_catch, bind, execSync, emit. simpl.
  fold WHICH. destruct (exec w WHICH) as [out|]; simpl; [|done].
  by destruct (truthy (trim out)).
Qed.

Lemma findTinyTeX_run s :
  FindLatex.findTinyTeX w s =
  (Ret (if vendored_has w s (exe w "pdflatex")
        then Some (InstallLatex.getTinyTeXBinPath w) else None), s, []).
Proof.
  unfold FindLatex.findTinyTeX, bind, existsSync, vendored_has. simpl.
  by destruct (match s with Some d => _ | None => _ end).
Qed.

Lemma getTinyTeXBinPath_truthy : truthy (InstallLatex.getTinyTeXBinPath w) = true.
Proof.
  unfold truthy, InstallLatex.getTinyTeXBinPath. apply negb_true_iff, String.eqb_neq.
  repeat case_match; apply path_join_nonempty.
Qed.

Lemma getLaTeXPath_run s :
  FindLatex.getLaTeXPath w s = (Ret (location w s), s, [EvExec WHICH]).
Proof.
  unfold FindLatex.getLaTeXPath, location.
  rewrite (bind_run _ _ _ _ _ _ (findSystemLaTeX_run s)).
  destruct (match system_location w with Some p => truthy p | None => false end); [done|].
  rewrite (bind_run _ _ _ _ _ _ (findTinyTeX_run s)).
  destruct (vendored_has w s (exe w "pdflatex")); [|done].
  simpl. by rewrite getTinyTeXBinPath_truthy.
Qed.

Lemma hasLaTeX_run s :
  FindLatex.hasLaTeX w s = (Ret (bool_decide (is_Some (location w s))), s, [EvExec WHICH]).
Proof.
  unfold FindLatex.hasLaTeX. by rewrite (bind_run _ _ _ _ _ _ (getLaTeXPath_run s)).
Qed.

Lemma getEnginePath_run engine s :
  FindLatex.getEnginePath w engine s =
  (Ret ((fun info => path_join [FindLatex.path info; exe w engine]) <$> location w s),
   s, [EvExec WHICH]).
Proof.
  unfold FindLatex.getEnginePath. rewrite (bind_run _ _ _ _ _ _ (getLaTeXPath_run s)).
  by destruct (location w s).
Qed.

Lemma checkTinyTeXInstalled_run s :
  InstallLatex.checkTinyTeXInstalled w s = (Ret (vendored_has w s (exe w "xelatex")), s, []).
Proof.
  unfold InstallLatex.checkTinyTeXInstalled. by rewrite getTinyTeXBinPath_truthy.
Qed.

End LocatorTheory.

(** ** The command line *)

Section CliTheory.
Context (w : World) `{PathApi}.

Lemma convertFile_run inputPath outputPath engine s :
  Cli.convertFile w inputPath outputPath engine s =
  if negb (path_exists w inputPath) then
    (Exit 1, s, [EvStderr ("Error: File not found: " +:+ inputPath)])
  else
    match location w s with
    | None =>
        (Exit 1, s,
         [EvExec WHICH;
          EvStderr ("Error: LaTeX engine " +:+ Cli.dquote +:+ engine +:+ Cli.dquote +:+ " not found")])
    | Some info =>
        match latex w (engine_cmd w info engine) inputPath with
        | Some message =>
            (Throw message, s, conversion_events (engine_cmd w info engine) inputPath outputPath)
        | None =>
            (Ret tt, s, conversion_events (engine_cmd w info engine) inputPath outputPath
                        ++ [EvStdout ("Created: " +:+ outputPath)])
        end
    end.
Proof.
  unfold Cli.convertFile. destruct (path_exists w inputPath); simpl; [|done].
  unfold bind at 1. unfold ret at 1.
  unfold bind at 1. rewrite getEnginePath_run.
  destruct (location w s) as [info|]; simpl; [|done].
  assert (truthy (path_join [FindLatex.path info; exe w engine]) = true) as ->.
  { apply negb_true_iff, String.eqb_neq, path_join_nonempty. }
  simpl. unfold bind, emit, console_log, emit, ret, throw, engine_cmd. simpl.
  by destruct (latex w _ inputPath).
Qed.

Lemma engine_runs_app l1 l2 : engine_runs (l1 ++ l2) = engine_runs l1 ++ engine_runs l2.
Proof. apply omap_app. Qed.

Lemma engine_runs_no_conversion l : Forall no_conversion l -> engine_runs l = [].
Proof.
  induction 1 as [|e l He Hl IH]; [done|]. unfold engine_runs in *.
  destruct e; first [discriminate He | exact IH].
Qed.

(** *** [ensureLaTeX] *)

Lemma returns_run_child child : returns (Cli.run_child child).
Proof.
  intros s. unfold Cli.run_child.
  destruct (child s) as [[[a|e|c] s1] l1]; by eexists _, _, _.
Qed.

Lemma no_exit_runInstallScript : no_exit (Cli.runInstallScript w).
Proof.
  unfold Cli.runInstallScript.
  repeat (apply no_exit_bind; [apply returns_no_exit, returns_emit|intros _]).
  destruct (spawn_error w); [apply no_exit_throw|].
  apply no_exit_bind; [apply returns_no_exit, returns_run_child|].
  intros code. destruct (code =? 0)%Z; [apply returns_no_exit, returns_ret|apply no_exit_throw].
Qed.

Lemma returns_hasLaTeX : returns (FindLatex.hasLaTeX w).
Proof. intros s. rewrite hasLaTeX_run. by eexists _, _, _. Qed.

Lemma returns_ensureLaTeX : returns (Cli.ensureLaTeX w).
Proof.
  unfold Cli.ensureLaTeX. apply returns_bind; [apply returns_hasLaTeX|].
  intros [|].
  - apply returns_bind; [apply returns_fixTinyTeXSymlinks|]. intros _. apply returns_ret.
  - apply returns_try_catch.
    + apply no_exit_bind; [apply no_exit_runInstallScript|]. intros _.
      apply no_exit_bind; [apply returns_no_exit, returns_fixTinyTeXSymlinks|]. intros _.
      apply returns_no_exit, returns_hasLaTeX.
    + intros e. repeat (apply returns_bind; [apply returns_emit|intros _]).
      apply returns_ret.
Qed.

Lemma emits_hasLaTeX : emits no_conversion (FindLatex.hasLaTeX w).
Proof. intros s. rewrite hasLaTeX_run. by repeat constructor. Qed.

Lemma emits_runInstallScript : emits no_conversion (Cli.runInstallScript w).
Proof.
  pose proof (emits_run_child _ _ (emits_install_main w)).
  unfold Cli.runInstallScript. emits_steps; auto.
Qed.

Lemma emits_ensureLaTeX : emits no_conversion (Cli.ensureLaTeX w).
Proof.
  pose proof emits_hasLaTeX. pose proof emits_runInstallScript.
  pose proof (emits_fixTinyTeXSymlinks w).
  unfold Cli.ensureLaTeX. emits_steps; auto.
Qed.

(** The engine-availability check is the first thing [ensureLaTeX] does. *)
Lemma ensureLaTeX_probes s :
  exists l, events (Cli.ensureLaTeX w s) = EvExec WHICH :: l.
Proof.
  unfold Cli.ensureLaTeX. rewrite (bind_run _ _ _ _ _ _ (hasLaTeX_run w s)).
  unfold events. simpl. eauto.
Qed.

(** *** The argument loop *)

Lemma parse_unknown rest : forall acc s,
  Exists (fun arg => unknown_flag arg = true) rest ->
  exists arg, arg ∈ rest /\ unknown_flag arg = true /\
    foldM Cli.parse_arg acc rest s = (Exit 1, s, [EvStderr ("Unknown option: " +:+ arg)]).
Proof.
  induction rest as [|arg rest IH]; intros acc s Hex; [by inversion Hex|].
  destruct (unknown_flag arg) eqn:Harg.
  - exists arg. split; [apply elem_of_cons; by left|]. split; [done|].
    unfold unknown_flag in Harg. apply andb_true_iff in Harg as [H1 H2%negb_true_iff].
    simpl. unfold bind at 1. unfold Cli.parse_arg. by rewrite H2, H1.
  - apply Exists_cons in Hex as [Hex|Hex]; [congruence|].
    assert (exists acc', Cli.parse_arg acc arg s = (Ret acc', s, [])) as [acc' Hacc].
    { unfold Cli.parse_arg, unknown_flag in *.
      destruct (String.prefix "--engine=" arg); [by eexists|].
      destruct (String.prefix "--" arg); [done|].
      destruct (Cli.falsy_path _); by eexists. }
    destruct (IH acc' s Hex) as (arg' & Hin & Hun & Hrun).
    exists arg'. split; [apply elem_of_cons; by right|]. split; [done|].
    simpl. by rewrite (bind_run _ _ _ _ _ _ Hacc), Hrun.
Qed.

Lemma parse_engine_flags flags : forall acc s,
  Forall (fun arg => String.prefix "--engine=" arg = true) flags ->
  foldM Cli.parse_arg acc flags s =
  (Ret {| Cli.outputFile := Cli.outputFile acc;
          Cli.engine := selected_engine flags (Cli.engine acc) |}, s, []).
Proof.
  induction flags as [|arg flags IH]; intros acc s Hall; simpl.
  - by destruct acc.
  - apply Forall_cons in Hall as [Harg Hall]. unfold bind at 1.
    unfold Cli.parse_arg at 1. rewrite Harg. unfold ret at 1.
    by rewrite IH.
Qed.

End CliTheory.

(** ** Conversion, fallback and flags *)

Section CliClaims.
Context (w : World) `{PathApi}.

Lemma emits_impl {A} (P Q : event -> Prop) (m : M A) :
  (forall e, P e -> Q e) -> emits P m -> emits Q m.
Proof. intros HPQ Hm s. eapply Forall_impl; eauto. Qed.

(** C6: when the input path does not exist, [convertFile] reports the
    missing file on stderr and exits the process with status 1 before any
    engine path is resolved, any stream is opened or any engine is run; the
    [try] statement of [main] does the same, so nothing is retried. *)
Theorem missing_input_exits_without_engine inputPath outputPath engine s :
  path_exists w inputPath = false ->
  Cli.convertFile w inputPath outputPath engine s
    = (Exit 1, s, [EvStderr ("Error: File not found: " +:+ inputPath)])
  /\ Cli.run_conversion w inputPath outputPath engine s
    = (Exit 1, s, [EvStderr ("Error: File not found: " +:+ inputPath)]).
Proof.
  intros Hmissing.
  assert (Cli.convertFile w inputPath outputPath engine s
    = (Exit 1, s, [EvStderr ("Error: File not found: " +:+ inputPath)])) as Hrun.
  { rewrite convertFile_run. by rewrite Hmissing. }
  split; [done|]. unfold Cli.run_conversion, try_catch. by rewrite Hrun.
Qed.

(** C1 (amended): when the first conversion fails with [message], the
    engine has been run once.  If the requested engine is [pdflatex] and the
    message contains [Font], the whole conversion is run again, once, with
    [xelatex]: the engine runs are exactly the pdflatex run and the xelatex
    run, and [main] returns normally when the retry succeeds and exits with 1,
    reporting the retry's message, when it fails.  Any other failure (another
    engine, or a message without [Font]) is reported on stderr and ends the
    process with status 1 with no second engine run. *)
Theorem pdflatex_font_failure_retries_xelatex_once inputFile outputFile engine s message s1 l1 :
  Cli.convertFile w inputFile outputFile engine s = (Throw message, s1, l1) ->
  let r := Cli.run_conversion w inputFile outputFile engine s in
  exists info, location w s = Some info /\
  if String.eqb engine "pdflatex" && includes "Font" message then
    engine_runs (events r) = [engine_cmd w info "pdflatex"; engine_cmd w info "xelatex"] /\
    match latex w (engine_cmd w info "xelatex") inputFile with
    | None => outcome r = Ret tt
    | Some fallbackMessage => outcome r = Exit 1 /\ EvStderr fallbackMessage ∈ events r
    end
  else
    engine_runs (events r) = [engine_cmd w info engine] /\
    outcome r = Exit 1 /\ EvStderr message ∈ events r.
Proof.
  intros Hfail r. subst r. unfold Cli.run_conversion.
  rewrite (try_catch_run_throw _ _ _ _ _ _ Hfail).
  rewrite convertFile_run in Hfail.
  destruct (path_exists w inputFile) eqn:Hin; [|discriminate]. simpl in Hfail.
  destruct (location w s) as [info|] eqn:Hloc; [|discriminate].
  exists info. split; [done|].
  destruct (latex w (engine_cmd w info engine) inputFile) as [m|] eqn:Hlatex; [|discriminate].
  injection Hfail as -> <- <-.
  destruct (String.eqb engine "pdflatex" && includes "Font" message) eqn:Hfont.
  - apply andb_true_iff in Hfont as [->%String.eqb_eq _].
    rewrite (bind_run _ _ s tt s [EvStdout "pdflatex failed (font issue), trying xelatex..."])
      by reflexivity.
    unfold try_catch. rewrite convertFile_run, Hin, Hloc. cbn [negb].
    destruct (latex w (engine_cmd w info "xelatex") inputFile) as [m2|];
      unfold outcome, events, final; simpl.
    + split; [done|]. split; [done|]. set_solver.
    + done.
  - unfold outcome, events.
    destruct (includes "Command failed" message); simpl; (split; [done|]); (split; [done|]);
      set_solver.
Qed.

(** C2 (amended): when the arguments contain [--install] and no help flag
    and the install script succeeds (it was spawned and closed with code 0),
    [main] spawns it before anything else and exits with status 0. *)
Theorem install_flag_exits_zero_when_installed args s s1 l1 :
  "--install" ∈ args -> "--help" ∉ args -> "-h" ∉ args ->
  Cli.runInstallScript w s = (Ret tt, s1, l1) ->
  Cli.main w args s = (Exit 0, s1, EvStdout "Force installing LaTeX..." :: l1)
  /\ EvSpawn "node" (path_join [dirname__ w; "install-latex.js"]) ∈ l1.
Proof.
  intros Hinstall Hhelp Hh Hrun. split.
  - unfold Cli.main.
    assert ((length args =? 0)%nat = false) as ->.
    { destruct args; [by apply elem_of_nil in Hinstall|done]. }
    rewrite (bool_decide_eq_false_2 _ Hhelp), (bool_decide_eq_false_2 _ Hh).
    rewrite (bool_decide_eq_true_2 _ Hinstall). cbn [orb].
    unfold bind at 1. unfold ret at 1.
    unfold bind at 1. unfold bind at 1. unfold console_log at 1, emit at 1.
    unfold bind at 1. rewrite Hrun. unfold process_exit. simpl. by rewrite app_nil_r.
  - revert Hrun. unfold Cli.runInstallScript, bind, console_log, emit.
    destruct (spawn_error w); [done|].
    destruct (Cli.run_child (InstallLatex.main w) s) as [[[code|e|c] s2] l2]; try done.
    destruct (code =? 0)%Z; [|done]. simpl. intros [= <- <-]. set_solver.
Qed.

(** When the install script fails, [main] is left by its error: no exit
    with status 0 follows. *)
Lemma install_flag_failure_leaves_main args s message s1 l1 :
  "--install" ∈ args -> "--help" ∉ args -> "-h" ∉ args ->
  Cli.runInstallScript w s = (Throw message, s1, l1) ->
  Cli.main w args s = (Throw message, s1, EvStdout "Force installing LaTeX..." :: l1).
Proof.
  intros Hinstall Hhelp Hh Hrun. unfold Cli.main.
  assert ((length args =? 0)%nat = false) as ->.
  { destruct args; [by apply elem_of_nil in Hinstall|done]. }
  rewrite (bool_decide_eq_false_2 _ Hhelp), (bool_decide_eq_false_2 _ Hh).
  rewrite (bool_decide_eq_true_2 _ Hinstall). cbn [orb].
  rewrite bind_ret_l. unfold bind at 1. unfold bind at 1.
  unfold console_log at 1, emit at 1. unfold bind at 1. by rewrite Hrun.
Qed.

(** [main] past the help and install flags. *)
Lemma main_convert args s :
  args <> [] -> "--help" ∉ args -> "-h" ∉ args -> "--install" ∉ args ->
  Cli.main w args s =
  (latexReady <- Cli.ensureLaTeX w ;;
   (if negb latexReady then process_exit 1 else ret tt) ;;
   parsed <- foldM Cli.parse_arg {| Cli.outputFile := None; Cli.engine := "xelatex" |}
                   (tail args) ;;
   Cli.run_conversion w (default EmptyString (head args))
     (if Cli.falsy_path (Cli.outputFile parsed)
      then Cli.default_output (default EmptyString (head args))
      else default EmptyString (Cli.outputFile parsed))
     (Cli.engine parsed)) s.
Proof.
  intros Hargs Hhelp Hh Hinstall. unfold Cli.main.
  assert ((length args =? 0)%nat = false) as ->.
  { by destruct args. }
  rewrite (bool_decide_eq_false_2 _ Hhelp), (bool_decide_eq_false_2 _ Hh).
  rewrite (bool_decide_eq_false_2 _ Hinstall). cbn [orb].
  by rewrite !bind_ret_l.
Qed.

(** C3 (amended): when the arguments contain no help flag and no
    [--install], and an argument after the first starts with [--] and not with
    [--engine=], the process exits with status 1 and no conversion happens (no
    stream is opened, no engine is run).  The engine-availability check (and
    with it the installation, when no LaTeX is found) does run first: it is
    the first event; when LaTeX is ready the last event is the rejection of
    the unknown flag. *)
Theorem unknown_flag_after_input_exits args s :
  "--help" ∉ args -> "-h" ∉ args -> "--install" ∉ args ->
  Exists (fun arg => unknown_flag arg = true) (tail args) ->
  let r := Cli.main w args s in
  outcome r = Exit 1
  /\ Forall no_conversion (events r)
  /\ (exists l, events r = EvExec WHICH :: l)
  /\ (outcome (Cli.ensureLaTeX w s) = Ret true ->
      exists arg, arg ∈ tail args /\ unknown_flag arg = true /\
        events r = events (Cli.ensureLaTeX w s) ++ [EvStderr ("Unknown option: " +:+ arg)]).
Proof.
  intros Hhelp Hh Hinstall Hflag r. subst r.
  rewrite main_convert; [|by destruct args; [inversion Hflag|]|done..].
  destruct (ensureLaTeX_probes w s) as [l Hl].
  pose proof (emits_ensureLaTeX w s) as Hsetup.
  destruct (returns_ensureLaTeX w s) as (ready & s1 & l1 & Hensure).
  rewrite Hensure in *. unfold events in Hl, Hsetup. simpl in Hl, Hsetup. subst l1.
  rewrite (bind_run _ _ _ _ _ _ Hensure).
  destruct ready; cbn [negb].
  - destruct (parse_unknown (tail args) {| Cli.outputFile := None; Cli.engine := "xelatex" |}
                s1 Hflag) as (arg & Hin & Hun & Hparse).
    rewrite bind_ret_l.
    match goal with |- context [bind ?m ?f s1] =>
      assert (bind m f s1 = (Exit 1, s1, [EvStderr ("Unknown option: " +:+ arg)])) as ->
        by (unfold bind; by rewrite Hparse)
    end.
    unfold outcome, events, final. simpl.
    split; [done|]. split.
    { constructor; [done|]. apply Forall_app. split; [by inversion Hsetup|].
      by repeat constructor. }
    split; [eauto|]. intros _. exists arg. done.
  - unfold outcome, events. simpl. rewrite app_nil_r. split; [done|].
    split; [done|]. split; [eauto|]. done.
Qed.

End CliClaims.

(** ** Output path and engine path *)

Section PathClaims.
Context (w : World) `{PathApi}.

Lemma no_conversion_writes_to outputPath e : no_conversion e -> writes_to outputPath e.
Proof. intros He p ->. discriminate. Qed.

Lemma emits_convertFile inputPath outputPath engine :
  emits (writes_to outputPath) (Cli.convertFile w inputPath outputPath engine).
Proof.
  intros s. rewrite convertFile_run. unfold conversion_events.
  destruct (negb _); [|destruct (location w s); [destruct (latex w _ _)|]];
    unfold events; simpl; repeat constructor; by intros p [= <-].
Qed.

Lemma emits_run_conversion inputPath outputPath engine :
  emits (writes_to outputPath) (Cli.run_conversion w inputPath outputPath engine).
Proof.
  pose proof emits_convertFile. unfold Cli.run_conversion.
  emits_steps; auto.
Qed.

Lemma not_engine_flag_not_in flags (x : string) :
  Forall (fun arg => String.prefix "--engine=" arg = true) flags ->
  String.prefix "--engine=" x = false -> x ∉ flags.
Proof.
  intros Hall Hx Hin. rewrite Forall_forall in Hall. apply Hall in Hin. congruence.
Qed.

(** C7: given an input path followed by engine flags only (no output path
    argument), [main] runs the conversion with the output path
    [path.join(parsed.dir, parsed.name + '.pdf')] for [parsed =
    path.parse(input)]: the input's directory joined with its name without
    extension plus [.pdf]; every output stream the run opens is at that
    path. *)
Theorem default_output_path inputFile flags s :
  inputFile ∉ ["--help"; "-h"; "--install"] ->
  Forall (fun arg => String.prefix "--engine=" arg = true) flags ->
  let r := Cli.main w (inputFile :: flags) s in
  r = (latexReady <- Cli.ensureLaTeX w ;;
       (if negb latexReady then process_exit 1 else ret tt) ;;
       Cli.run_conversion w inputFile (Cli.default_output inputFile)
         (selected_engine flags "xelatex")) s
  /\ Cli.default_output inputFile =
       path_join [parsed_dir (path_parse inputFile);
                  parsed_name (path_parse inputFile) +:+ ".pdf"]
  /\ Forall (writes_to (Cli.default_output inputFile)) (events r).
Proof.
  intros Hinput Hflags r.
  assert (r = (latexReady <- Cli.ensureLaTeX w ;;
       (if negb latexReady then process_exit 1 else ret tt) ;;
       Cli.run_conversion w inputFile (Cli.default_output inputFile)
         (selected_engine flags "xelatex")) s) as Hr.
  { subst r. rewrite main_convert; [|done|..].
    2-4: (apply not_elem_of_cons; split;
          [intros <-; apply Hinput; set_solver
          |by apply not_engine_flag_not_in]).
    apply bind_ext. intros ready s1. apply bind_ext. intros _ s2.
    cbn [tail head default from_option].
    rewrite (bind_run _ _ _ _ _ _ (parse_engine_flags flags _ s2 Hflags)).
    unfold outcome, final, events. cbn.
    by destruct (Cli.run_conversion w _ _ _ s2) as [[r3 s3] l3]. }
  split; [done|]. split; [done|]. rewrite Hr.
  assert (emits (writes_to (Cli.default_output inputFile)) (Cli.ensureLaTeX w)) as Hensure.
  { eapply emits_impl; [|apply emits_ensureLaTeX]. apply no_conversion_writes_to. }
  pose proof (emits_run_conversion inputFile (Cli.default_output inputFile)
                (selected_engine flags "xelatex")).
  assert (emits (writes_to (Cli.default_output inputFile))
    (latexReady <- Cli.ensureLaTeX w ;;
       (if negb latexReady then process_exit 1 else ret tt) ;;
       Cli.run_conversion w inputFile (Cli.default_output inputFile)
         (selected_engine flags "xelatex"))) as Hall; [|apply Hall].
  emits_steps; auto.
Qed.

(** C10: for every engine name, [getEnginePath] returns a path exactly
    when [getLaTeXPath] resolves a location (system or vendored), namely that
    location joined with the platform's executable name of the engine, and
    returns [null] only when no location resolves; nothing looks at the
    engine's executable.  Hence, for an input that exists, [convertFile]
    reports [LaTeX engine ... not found] if and only if no location resolves. *)
Theorem getEnginePath_never_checks_the_engine engine s :
  (forall info, outcome (FindLatex.getLaTeXPath w s) = Ret (Some info) ->
     outcome (FindLatex.getEnginePath w engine s)
     = Ret (Some (path_join [FindLatex.path info; exe w engine])))
  /\ (outcome (FindLatex.getEnginePath w engine s) = Ret None
      <-> outcome (FindLatex.getLaTeXPath w s) = Ret None)
  /\ (forall inputPath outputPath, path_exists w inputPath = true ->
        EvStderr ("Error: LaTeX engine " +:+ Cli.dquote +:+ engine +:+ Cli.dquote +:+ " not found")
          ∈ events (Cli.convertFile w inputPath outputPath engine s)
        <-> outcome (FindLatex.getLaTeXPath w s) = Ret None).
Proof.
  rewrite getEnginePath_run, getLaTeXPath_run. unfold outcome. simpl. split_and!.
  - by intros info [= ->].
  - destruct (location w s); simpl; split; intros [=]; done.
  - intros inputPath outputPath Hin. rewrite convertFile_run, Hin. cbn [negb].
    destruct (location w s) as [info|]; unfold events.
    + split; [|done]. unfold conversion_events.
      destruct (latex w _ inputPath); simpl;
        intros Hel%list_elem_of_In; simpl in Hel; intuition discriminate.
    + simpl. split; [done|]. intros _. apply elem_of_cons. right.
      apply elem_of_cons. by left.
Qed.

(** C9: [checkTinyTeXInstalled] returns whether the xelatex binary exists
    in the vendored bin directory, and [findTinyTeX] returns the directory
    exactly when the pdflatex binary exists there.  There is a directory on
    which the first says installed and the second finds nothing, and one on
    which the first says not installed and the second finds the directory. *)
Theorem installed_check_and_locator_probe_differ :
  (forall s, InstallLatex.checkTinyTeXInstalled w s
             = (Ret (vendored_has w s (exe w "xelatex")), s, []))
  /\ (forall s, FindLatex.findTinyTeX w s
                = (Ret (if vendored_has w s (exe w "pdflatex")
                        then Some (InstallLatex.getTinyTeXBinPath w) else None), s, []))
  /\ (exists d, outcome (InstallLatex.checkTinyTeXInstalled w (Some d)) = Ret true
                /\ outcome (FindLatex.findTinyTeX w (Some d)) = Ret None)
  /\ (exists d, outcome (InstallLatex.checkTinyTeXInstalled w (Some d)) = Ret false
                /\ outcome (FindLatex.findTinyTeX w (Some d))
                   = Ret (Some (InstallLatex.getTinyTeXBinPath w))).
Proof.
  split; [apply checkTinyTeXInstalled_run|]. split; [apply findTinyTeX_run|].
  assert (exe w "xelatex" <> exe w "pdflatex") as Hne.
  { unfold exe. by destruct (String.eqb _ _). }
  assert (forall a b : string, a <> b ->
    resolves w {[a := File]} a = true /\ resolves w {[a := File]} b = false) as Hone.
  { intros a b Hab. unfold resolves. simpl.
    by rewrite lookup_singleton_eq, lookup_singleton_ne. }
  split.
  - exists {[exe w "xelatex" := File]}.
    rewrite checkTinyTeXInstalled_run, findTinyTeX_run. unfold outcome, vendored_has. simpl.
    destruct (Hone _ _ Hne) as [-> ->]. done.
  - exists {[exe w "pdflatex" := File]}.
    rewrite checkTinyTeXInstalled_run, findTinyTeX_run. unfold outcome, vendored_has. simpl.
    destruct (Hone (exe w "pdflatex") (exe w "xelatex")) as [-> ->]; done.
Qed.

End PathClaims.

(** ** The repair pass: claims *)

Section RepairClaims.
Context (w : World).


(** C4 (amended): when every symbolic link of the directory whose target
    is inaccessible can be unlinked (a failed unlink is swallowed, and the
    link stays) and no engine binary is reached only through as many links as
    the operating system follows (so that the aliases can be followed), a
    repair pass unlinks exactly the links whose target is inaccessible and
    leaves no such link behind, and it is idempotent: a second pass right
    after the first changes nothing and performs no deletion and no alias
    creation (it has no event at all). *)
Theorem repair_pass_prunes_and_is_idempotent (d : dir) :
  prunable w d -> aliasable w d InstallLatex.symlinks ->
  let first := InstallLatex.fixTinyTeXSymlinks w (Some d) in
  let second := InstallLatex.fixTinyTeXSymlinks w (final first) in
  (forall n, EvUnlink n ∈ events first <->
     exists t, d !! n = Some (Link t) /\ resolves w d n = false)
  /\ (forall d' n t, final first = Some d' -> d' !! n = Some (Link t) ->
        resolves w d' n = true)
  /\ final second = final first
  /\ events second = [].
Proof.
  intros Hp Hal. cbn zeta.
  rewrite fixTinyTeXSymlinks_run. unfold final, events. cbn [fst snd].
  rewrite fixTinyTeXSymlinks_run. cbn [fst snd].
  destruct (repair_repair w d Hp Hal) as [Hd He]. split_and!; [| |by rewrite Hd|done].
  - intros n. rewrite repair_events_unlink. unfold removable. split.
    + intros [Hb _]%andb_true_iff. unfold broken in Hb.
      destruct (d !! n) as [[|t]|]; try done. exists t. split; [done|].
      by apply negb_true_iff.
    + intros (t & Hn & Hres). assert (broken w d n = true) as Hb.
      { unfold broken. by rewrite Hn, Hres. }
      by rewrite Hb, (Hp n Hb).
  - intros d' n t [= <-] Hn. apply resolves_accessible.
    eapply repair_clean; eauto.
Qed.


End RepairClaims.

(** ** Download progress *)

Section ProgressTheory.

Lemma on_data_run totalSize chunks : forall st s,
  exists st',
    foldM (InstallLatex.on_data totalSize) st chunks s =
    (Ret st', s,
     progress_line <$> reports totalSize (InstallLatex.downloadedSize st)
                               (InstallLatex.lastPercent st) chunks).
Proof.
  induction chunks as [|chunk rest IH]; intros st s; simpl.
  - by eexists.
  - unfold InstallLatex.on_data at 1. fold (percent totalSize
      (InstallLatex.downloadedSize st + Z.of_nat (length chunk))).
    destruct (number_truthy totalSize); simpl.
    + destruct (percent totalSize _) as [p|] eqn:Hp.
      * destruct ((InstallLatex.lastPercent st <? p)%Z && (Z.rem p 10 =? 0)%Z).
        -- unfold bind at 1. unfold bind at 1.
           unfold InstallLatex.log, console_log, emit, ret at 1.
           edestruct IH as [st' ->]. by eexists.
        -- unfold bind at 1. unfold ret at 1. edestruct IH as [st' ->]. by eexists.
      * unfold bind at 1. unfold ret at 1. edestruct IH as [st' ->]. by eexists.
    + destruct (percent totalSize _); rewrite ?andb_false_r;
        unfold bind at 1; unfold ret at 1; edestruct IH as [st' ->]; by eexists.
Qed.

Lemma reports_silent totalSize chunks : forall downloaded last,
  number_truthy totalSize = false -> reports totalSize downloaded last chunks = [].
Proof.
  induction chunks as [|chunk rest IH]; intros downloaded last Hfalsy; simpl; [done|].
  rewrite Hfalsy. simpl. destruct (percent _ _); by apply IH.
Qed.

Lemma reports_sorted totalSize chunks : forall downloaded last,
  StronglySorted Z.lt (last :: reports totalSize downloaded last chunks).
Proof.
  induction chunks as [|chunk rest IH]; intros downloaded last; simpl.
  - repeat constructor.
  - destruct (percent _ _) as [p|]; [|apply IH].
    destruct (number_truthy totalSize && (last <? p)%Z && (Z.rem p 10 =? 0)%Z) eqn:Hcond;
      [|apply IH].
    apply andb_true_iff in Hcond as [[_ Hlt%Z.ltb_lt]%andb_true_iff _].
    specialize (IH (downloaded + Z.of_nat (length chunk))%Z p).
    constructor; [done|]. constructor; [done|].
    apply StronglySorted_inv in IH as [_ Hall].
    eapply Forall_impl; [exact Hall|]. simpl. lia.
Qed.

Lemma reports_multiples totalSize chunks : forall downloaded last,
  Forall (fun p => Z.rem p 10 = 0%Z) (reports totalSize downloaded last chunks).
Proof.
  induction chunks as [|chunk rest IH]; intros downloaded last; simpl; [constructor|].
  destruct (percent _ _) as [p|]; [|apply IH].
  destruct (number_truthy totalSize && (last <? p)%Z && (Z.rem p 10 =? 0)%Z) eqn:Hcond;
    [|apply IH].
  apply andb_true_iff in Hcond as [_ Hrem%Z.eqb_eq]. by constructor.
Qed.

Lemma bytes_take_S chunk rest k :
  bytes (take (S k) (chunk :: rest)) = (Z.of_nat (length chunk) + bytes (take k rest))%Z.
Proof. done. Qed.

(** Every reported percentage is the one computed after some chunk. *)
Lemma reports_origin totalSize chunks : forall downloaded last p,
  p ∈ reports totalSize downloaded last chunks ->
  exists k, (0 < k <= length chunks)%nat /\
    percent totalSize (downloaded + bytes (take k chunks)) = Some p.
Proof.
  induction chunks as [|chunk rest IH]; intros downloaded last p; simpl.
  - by intros ?%elem_of_nil.
  - intros Hin.
    assert (p ∈ reports totalSize (downloaded + Z.of_nat (length chunk)) last rest \/
            (exists q, p ∈ reports totalSize (downloaded + Z.of_nat (length chunk)) q rest) \/
            percent totalSize (downloaded + Z.of_nat (length chunk)) = Some p) as Hcases.
    { destruct (percent _ _) as [q|]; [|by left].
      destruct (number_truthy totalSize && (last <? q)%Z && (Z.rem q 10 =? 0)%Z); [|by left].
      apply elem_of_cons in Hin as [->|Hin]; eauto. }
    destruct Hcases as [Hrest|[[q Hrest]|Hhere]].
    + apply IH in Hrest as (k & Hk & Hp). exists (S k). split; [lia|].
      rewrite bytes_take_S. by rewrite Z.add_assoc.
    + apply IH in Hrest as (k & Hk & Hp). exists (S k). split; [lia|].
      rewrite bytes_take_S. by rewrite Z.add_assoc.
    + exists 1%nat. split; [lia|]. rewrite bytes_take_S. simpl.
      by rewrite Z.add_0_r.
Qed.

(** A multiple of ten that is reached after a chunk, and is above what was
    reported and reached before, is reported. *)
Lemma reports_complete totalSize chunks : forall downloaded last k p,
  number_truthy totalSize = true ->
  (0 < k <= length chunks)%nat ->
  percent totalSize (downloaded + bytes (take k chunks)) = Some p ->
  Z.rem p 10 = 0%Z -> (last < p)%Z ->
  (forall j q, (0 < j < k)%nat ->
     percent totalSize (downloaded + bytes (take j chunks)) = Some q -> (q < p)%Z) ->
  p ∈ reports totalSize downloaded last chunks.
Proof.
  induction chunks as [|chunk rest IH]; intros downloaded last k p Htotal Hk Hp Hrem Hlast Hbefore;
    simpl in *; [lia|].
  destruct k as [|k]; [lia|]. rewrite bytes_take_S, Z.add_assoc in Hp.
  destruct k as [|k].
  - simpl in Hp. rewrite Z.add_0_r in Hp. rewrite Hp, Htotal.
    rewrite (proj2 (Z.ltb_lt _ _) Hlast), (proj2 (Z.eqb_eq _ _) Hrem). simpl.
    apply elem_of_cons. by left.
  - assert (forall last', (last' < p)%Z ->
      p ∈ reports totalSize (downloaded + Z.of_nat (length chunk)) last' rest) as Hrest.
    { intros last' Hlast'. apply (IH _ _ (S k)); try done; [lia|].
      intros j q Hj Hq. apply (Hbefore (S j) q); [lia|].
      by rewrite bytes_take_S, Z.add_assoc. }
    destruct (percent totalSize (downloaded + Z.of_nat (length chunk))) as [q|] eqn:Hq;
      [|by apply Hrest].
    assert (q < p)%Z as Hqp.
    { apply (Hbefore 1%nat q); [lia|]. rewrite bytes_take_S. simpl.
      by rewrite Z.add_0_r. }
    destruct (_ && _ && _); [|by apply Hrest].
    apply elem_of_cons. right. by apply Hrest.
Qed.

(** A response without a usable content-length is downloaded in silence. *)
Lemma downloadFile_silent url location content_length chunks file_error rest s :
  number_truthy (parseInt content_length) = false ->
  events (InstallLatex.downloadFile url
            (Response 200 location content_length chunks file_error :: rest) s)
  = [EvStdout "[tex2pdf-setup] Downloading TinyTeX (~200MB)..."; EvDownload url].
Proof.
  intros Hfalsy. simpl.
  rewrite (bind_run _ _ s tt s [EvStdout "[tex2pdf-setup] Downloading TinyTeX (~200MB)..."])
    by reflexivity.
  rewrite (bind_run _ _ s tt s [EvDownload url]) by reflexivity.
  destruct (on_data_run (parseInt content_length) chunks
    {| InstallLatex.downloadedSize := 0; InstallLatex.lastPercent := 0 |} s) as [st' Hdata].
  rewrite reports_silent in Hdata by done.
  rewrite (bind_run _ _ _ _ _ _ Hdata).
  unfold events, final, outcome. by destruct file_error.
Qed.

(** C8 (amended): without a content-length header the size is [NaN], and
    with a size that is [NaN] or 0 no progress is ever reported.  Otherwise a
    line is reported after a chunk exactly when the floored percentage of the
    bytes so far is a multiple of ten above the last reported one: the
    reported percentages are strictly increasing positive multiples of ten,
    each is the percentage reached after some chunk, and a positive multiple of
    ten reached after a chunk is reported when it is above every percentage
    reached after the chunks before it. *)
Theorem download_progress_reports totalSize chunks s :
  let r := foldM (InstallLatex.on_data totalSize)
                 {| InstallLatex.downloadedSize := 0; InstallLatex.lastPercent := 0 |}
                 chunks s in
  parseInt None = None
  /\ (number_truthy totalSize = false -> events r = [])
  /\ (forall url location content_length file_error rest s0,
        number_truthy (parseInt content_length) = false ->
        events (InstallLatex.downloadFile url
                  (Response 200 location content_length chunks file_error :: rest) s0)
        = [EvStdout "[tex2pdf-setup] Downloading TinyTeX (~200MB)..."; EvDownload url])
  /\ exists reported,
       events r = progress_line <$> reported
       /\ StronglySorted Z.lt (0%Z :: reported)
       /\ Forall (fun p => Z.rem p 10 = 0%Z) reported
       /\ (forall p, p ∈ reported ->
             exists k, (0 < k <= length chunks)%nat /\
               percent totalSize (bytes (take k chunks)) = Some p)
       /\ (forall k p,
             number_truthy totalSize = true ->
             (0 < k <= length chunks)%nat ->
             percent totalSize (bytes (take k chunks)) = Some p ->
             Z.rem p 10 = 0%Z -> (0 < p)%Z ->
             (forall j q, (0 < j < k)%nat ->
                percent totalSize (bytes (take j chunks)) = Some q -> (q < p)%Z) ->
             p ∈ reported).
Proof.
  intros r. subst r.
  destruct (on_data_run totalSize chunks
    {| InstallLatex.downloadedSize := 0; InstallLatex.lastPercent := 0 |} s) as [st' ->].
  unfold events at 1 3. cbn [snd]. split; [done|]. split.
  { intros Hfalsy. by rewrite reports_silent. }
  split; [intros; by apply downloadFile_silent|].
  exists (reports totalSize 0 0 chunks). split; [done|].
  split; [apply reports_sorted|]. split; [apply reports_multiples|]. split.
  - intros p Hp. by apply reports_origin in Hp.
  - intros k p Htotal Hk Hp Hrem Hpos Hbefore.
    by apply (reports_complete totalSize chunks 0 0 k p).
Qed.

End ProgressTheory.

(** * Properties of the install script and the command line *)

(** ** More on computations *)

Lemma bind_ret_inv {A B} (m : M A) (f : A -> M B) s b :
  outcome (bind m f s) = Ret b ->
  exists a s1 l1, m s = (Ret a, s1, l1) /\ outcome (f a s1) = Ret b
    /\ final (bind m f s) = final (f a s1)
    /\ events (bind m f s) = l1 ++ events (f a s1).
Proof.
  unfold bind. destruct (m s) as [[[a|e|c] s1] l1]; [|done..].
  intros Hout. exists a, s1, l1. split; [done|].
  by destruct (f a s1) as [[r s2] l2].
Qed.

Lemma bind_throw {A B} (m : M A) (f : A -> M B) s e s1 l1 :
  m s = (Throw e, s1, l1) -> bind m f s = (Throw e, s1, l1).
Proof. unfold bind. by intros ->. Qed.

Lemma bind_exit {A B} (m : M A) (f : A -> M B) s c s1 l1 :
  m s = (Exit c, s1, l1) -> bind m f s = (Exit c, s1, l1).
Proof. unfold bind. by intros ->. Qed.

Lemma run_eta {A} (r : res A * option dir * list event) :
  r = (outcome r, final r, events r).
Proof. by destruct r as [[? ?] ?]. Qed.

(** ** Downloading *)

Section DownloadTheory.

Lemma downloadFile_redirect url statusCode location content_length chunks file_error rest s :
  is_redirect (Response statusCode location content_length chunks file_error) = true ->
  InstallLatex.downloadFile url
    (Response statusCode location content_length chunks file_error :: rest) s
  = (outcome (InstallLatex.downloadFile location rest s),
     final (InstallLatex.downloadFile location rest s),
     EvStdout "[tex2pdf-setup] Downloading TinyTeX (~200MB)..." :: EvDownload url
       :: events (InstallLatex.downloadFile location rest s)).
Proof.
  intros Hred. cbn [InstallLatex.downloadFile].
  rewrite (bind_run _ _ s tt s [EvStdout "[tex2pdf-setup] Downloading TinyTeX (~200MB)..."])
    by reflexivity.
  rewrite (bind_run _ _ s tt s [EvDownload url]) by reflexivity.
  simpl in Hred. rewrite Hred. reflexivity.
Qed.

(** A download leaves the vendored directory as it is; it ends the process
    only when it dies, with status 1. *)
Lemma downloadFile_frame answers : forall url s,
  final (InstallLatex.downloadFile url answers s) = s
  /\ forall c, outcome (InstallLatex.downloadFile url answers s) = Exit c -> c = 1%Z.
Proof.
  induction answers as [|answer rest IH]; intros url s.
  - by vm_compute.
  - destruct answer as [message|message|statusCode location content_length chunks file_error].
    + by vm_compute.
    + split; [done|]. by intros c [= <-].
    + destruct (is_redirect (Response statusCode location content_length chunks file_error))
        eqn:Hred.
      * rewrite downloadFile_redirect by done. apply IH.
      * cbn [InstallLatex.downloadFile]. simpl in Hred. rewrite Hred.
        rewrite (bind_run _ _ s tt s [EvStdout "[tex2pdf-setup] Downloading TinyTeX (~200MB)..."])
          by reflexivity.
        rewrite (bind_run _ _ s tt s [EvDownload url]) by reflexivity.
        destruct (negb (statusCode =? 200)%Z); [done|].
        destruct (on_data_run (parseInt content_length) chunks
          {| InstallLatex.downloadedSize := 0; InstallLatex.lastPercent := 0 |} s) as [st' Hdata].
        rewrite (bind_run _ _ _ _ _ _ Hdata). by destruct file_error.
Qed.

End DownloadTheory.

(** ** The install script *)

Section InstallTheory.
Context (w : World) `{PathApi}.

Lemma checkExistingLaTeX_run s :
  InstallLatex.checkExistingLaTeX w s =
  (Ret (bool_decide (is_Some (exec w "pdflatex --version"))), s, [EvExec "pdflatex --version"]).
Proof.
  unfold InstallLatex.checkExistingLaTeX, try_catch, bind, execSync, emit.
  by destruct (exec w "pdflatex --version").
Qed.

Lemma fixTinyTeXSymlinks_any s :
  InstallLatex.fixTinyTeXSymlinks w s = (Ret (bool_decide (is_Some s)), repaired w s, repairing w s).
Proof.
  destruct s as [d|].
  - rewrite fixTinyTeXSymlinks_run. by rewrite bool_decide_eq_true_2 by eauto.
  - reflexivity.
Qed.

Lemma extract_archive_run url s :
  (exists message, (extract w s).2 = Some message /\
     InstallLatex.extract_archive w url s = (Throw message, (extract w s).1, [EvExtract url]))
  \/ ((extract w s).2 = None /\
      InstallLatex.extract_archive w url s = (Ret tt, (extract w s).1, [EvExtract url])).
Proof.
  unfold InstallLatex.extract_archive.
  destruct (extract w s) as [s' [message|]]; simpl; eauto.
Qed.

(** The statements of the [try] block the two install functions share. *)
Lemma install_body_run url s :
  (InstallLatex.downloadFile url (responses w url) ;;
   InstallLatex.log "Extracting TinyTeX..." ;;
   InstallLatex.extract_archive w url ;;
   InstallLatex.fixTinyTeXSymlinks w ;;
   ret true) s =
  let download := InstallLatex.downloadFile url (responses w url) s in
  match outcome download with
  | Ret _ =>
      match (extract w s).2 with
      | None =>
          (Ret true, repaired w (extract w s).1,
           events download
           ++ [EvStdout "[tex2pdf-setup] Extracting TinyTeX..."; EvExtract url]
           ++ repairing w (extract w s).1)
      | Some message =>
          (Throw message, (extract w s).1,
           events download
           ++ [EvStdout "[tex2pdf-setup] Extracting TinyTeX..."; EvExtract url])
      end
  | Throw message => (Throw message, s, events download)
  | Exit c => (Exit c, s, events download)
  end.
Proof.
  cbv zeta.
  pose proof (proj1 (downloadFile_frame (responses w url) url s)) as Hfinal.
  destruct (InstallLatex.downloadFile url (responses w url) s) as [[[[]|e|c] s1] l1] eqn:Hdl;
    unfold final, outcome, events in *; simpl in Hfinal; subst s1; simpl.
  - rewrite (bind_run _ _ _ _ _ _ Hdl).
    rewrite (bind_run _ _ s tt s [EvStdout "[tex2pdf-setup] Extracting TinyTeX..."])
      by reflexivity.
    destruct (extract_archive_run url s) as [Hex|Hex].
    + destruct Hex as (message & Hmsg & Hex). rewrite Hmsg.
      by rewrite (bind_throw _ _ _ _ _ _ Hex).
    + destruct Hex as (Hmsg & Hex). rewrite Hmsg.
      rewrite (bind_run _ _ _ _ _ _ Hex).
      rewrite (bind_run _ _ _ _ _ _ (fixTinyTeXSymlinks_any _)).
      unfold outcome, final, events. simpl. by rewrite app_nil_r.
  - by rewrite (bind_throw _ _ _ _ _ _ Hdl).
  - by rewrite (bind_exit _ _ _ _ _ _ Hdl).
Qed.

Lemma installTinyTeX_run s :
  InstallLatex.installTinyTeX w s =
  match outcome (fetch w s) with
  | Ret _ =>
      match (extract w s).2 with
      | None => (Ret true, repaired w (extract w s).1, unpacking w s ++ repairing w (extract w s).1)
      | Some message => (Ret false, (extract w s).1, unpacking w s ++ failure_report w message)
      end
  | Throw message =>
      (Ret false, s,
       EvStdout "[tex2pdf-setup] LaTeX not found. Installing TinyTeX (this may take a few minutes)..."
       :: events (fetch w s) ++ failure_report w message)
  | Exit c =>
      (Exit c, s,
       EvStdout "[tex2pdf-setup] LaTeX not found. Installing TinyTeX (this may take a few minutes)..."
       :: events (fetch w s))
  end.
Proof.
  unfold InstallLatex.installTinyTeX.
  rewrite (bind_run _ _ s tt s
    [EvStdout "[tex2pdf-setup] LaTeX not found. Installing TinyTeX (this may take a few minutes)..."])
    by reflexivity.
  unfold unpacking, failure_report, fetch in *. unfold archive_of in *.
  unfold InstallLatex.installTinyTeXWindows, InstallLatex.installTinyTeXUnix.
  destruct (String.eqb (PLATFORM w) "win32").
  - unfold try_catch. rewrite install_body_run. cbv zeta.
    destruct (outcome (InstallLatex.downloadFile _ _ s)) as [[]|e|c].
    + destruct (extract w s).2; unfold outcome, final, events; simpl; [|by rewrite <- !app_assoc].
      by rewrite <- !app_assoc.
    + done.
    + done.
  - unfold try_catch. rewrite install_body_run. cbv zeta.
    destruct (String.eqb (PLATFORM w) "darwin");
    (destruct (outcome (InstallLatex.downloadFile _ _ s)) as [[]|e|c];
     [destruct (extract w s).2; unfold outcome, final, events; simpl; by rewrite <- !app_assoc
     |done
     |done]).
Qed.

Lemma downloadFile_events (P : event -> Prop) :
  (forall line, P (EvStdout line)) -> (forall url, P (EvDownload url)) ->
  (forall message, P (EvUncaught message)) ->
  forall answers url, emits P (InstallLatex.downloadFile url answers).
Proof.
  intros Hout Hget Hdie answers.
  induction answers as [|answer rest IH]; intros url; simpl;
    unfold InstallLatex.on_data, InstallLatex.log, console_log;
    emits_steps; auto using emits_emit, emits_uncaught.
Qed.

(** [installTinyTeX] answers, unless the download dies. *)
Lemma installTinyTeX_outcome s :
  (exists success, outcome (InstallLatex.installTinyTeX w s) = Ret success
                   /\ forall c, outcome (fetch w s) <> Exit c)
  \/ (outcome (InstallLatex.installTinyTeX w s) = Exit 1 /\ outcome (fetch w s) = Exit 1).
Proof.
  rewrite installTinyTeX_run.
  pose proof (proj2 (downloadFile_frame (responses w (archive_of w)) (archive_of w) s)) as Hno.
  fold (fetch w) in Hno.
  destruct (outcome (fetch w s)) as [[]|e|c].
  - left. destruct (extract w s).2; by eexists.
  - left. by eexists.
  - right. by rewrite (Hno c).
Qed.

Lemma install_main_run s :
  InstallLatex.main w s =
  if bool_decide (is_Some (exec w "pdflatex --version")) then
    (Exit 0, s,
     probing ++ [EvStdout "[tex2pdf-setup] Found existing LaTeX installation. Skipping TinyTeX installation."])
  else if vendored_has w s (exe w "xelatex") then
    (Exit 0, repaired w s,
     probing ++ repairing w s ++ [EvStdout "[tex2pdf-setup] TinyTeX is already installed and ready."])
  else
    let attempt := InstallLatex.installTinyTeX w s in
    match outcome attempt with
    | Ret true =>
        (Exit 0, final attempt,
         probing ++ events attempt
         ++ [EvStdout "[tex2pdf-setup] TinyTeX installed successfully!";
             EvStdout ("[tex2pdf-setup] Location: " +:+ InstallLatex.INSTALL_DIR w)])
    | Ret false =>
        (Exit (if isPostinstall w then 0 else 1), final attempt,
         probing ++ events attempt
         ++ [EvStdout "[tex2pdf-setup] Failed to install TinyTeX automatically.";
             EvStdout "[tex2pdf-setup] LaTeX will be installed on first use of tex2pdf command.";
             EvStdout "[tex2pdf-setup] Or install manually from https://tug.org/texlive/ or https://miktex.org/"]
         ++ if isPostinstall w
            then [EvStdout "[tex2pdf-setup] Note: This is non-fatal. npm install will continue."]
            else [])
    | Throw message => (Throw message, final attempt, probing ++ events attempt)
    | Exit c => (Exit c, final attempt, probing ++ events attempt)
    end.
Proof.
  unfold InstallLatex.main.
  rewrite (bind_run _ _ s tt s [EvStdout "[tex2pdf-setup] Checking for LaTeX installation..."])
    by reflexivity.
  rewrite (bind_run _ _ _ _ _ _ (checkExistingLaTeX_run s)).
  destruct (bool_decide (is_Some (exec w "pdflatex --version"))); [reflexivity|].
  rewrite bind_ret_l.
  rewrite (bind_run _ _ _ _ _ _ (checkTinyTeXInstalled_run w s)).
  destruct (vendored_has w s (exe w "xelatex")).
  - assert (forall k : unit -> M unit,
      bind (InstallLatex.fixTinyTeXSymlinks w ;;
            InstallLatex.log "TinyTeX is already installed and ready." ;;
            process_exit 0) k s
      = (Exit 0, repaired w s,
         repairing w s ++ [EvStdout "[tex2pdf-setup] TinyTeX is already installed and ready."]))
      as ->; [|reflexivity].
    intros k. apply bind_exit.
    rewrite (bind_run _ _ _ _ _ _ (fixTinyTeXSymlinks_any s)). reflexivity.
  - rewrite bind_ret_l. cbv zeta.
    destruct (InstallLatex.installTinyTeX w s) as [[[[|]|e|c] s1] l1] eqn:Hrun;
      unfold outcome, final, events; cbn [fst snd].
    + rewrite (bind_run _ _ _ _ _ _ Hrun). reflexivity.
    + rewrite (bind_run _ _ _ _ _ _ Hrun).
      destruct (isPostinstall w); reflexivity.
    + by rewrite (bind_throw _ _ _ _ _ _ Hrun).
    + by rewrite (bind_exit _ _ _ _ _ _ Hrun).
Qed.

(** X1: the install script ends with status 0 or 1.  The status is 1
    exactly when no [pdflatex] answers, the vendored directory has no xelatex
    and either the download dies, whether the script runs as an npm
    postinstall hook or not, or the installation fails and the script does not
    run as a postinstall hook.  The installation ends the process itself only
    when the download dies: the archive cannot be opened for writing and the
    error of its stream has no listener. *)
Theorem install_script_exit_status s :
  let r := InstallLatex.main w s in
  let attempt := InstallLatex.installTinyTeX w s in
  (outcome r = Exit 0 \/ outcome r = Exit 1)
  /\ (outcome r = Exit 1 <->
      exec w "pdflatex --version" = None
      /\ vendored_has w s (exe w "xelatex") = false
      /\ (outcome attempt = Exit 1
          \/ (outcome attempt = Ret false /\ isPostinstall w = false)))
  /\ (outcome attempt = Exit 1 <-> outcome (fetch w s) = Exit 1)
  /\ (forall c, outcome attempt = Exit c -> c = 1%Z).
Proof.
  cbv zeta.
  assert ((outcome (InstallLatex.installTinyTeX w s) = Exit 1 <-> outcome (fetch w s) = Exit 1)
          /\ (forall c, outcome (InstallLatex.installTinyTeX w s) = Exit c -> c = 1%Z)) as Hdies.
  { destruct (installTinyTeX_outcome s) as [(success & -> & Hno)|[-> ->]].
    - split; [|done]. split; [done|]. intros Hexit. by destruct (Hno 1%Z).
    - split; [done|]. by intros c [= <-]. }
  split_and!; [| |apply Hdies..].
  - rewrite install_main_run.
    destruct (bool_decide (is_Some (exec w "pdflatex --version"))); [by left|].
    destruct (vendored_has w s (exe w "xelatex")); [by left|]. cbv zeta.
    destruct (installTinyTeX_outcome s) as [(success & Hsuccess & _)|[Hdie _]].
    + rewrite Hsuccess. destruct success; unfold outcome; simpl; [by left|].
      destruct (isPostinstall w); [by left|by right].
    + rewrite Hdie. by right.
  - rewrite install_main_run.
    destruct (exec w "pdflatex --version") as [out|] eqn:Hexec.
    { rewrite bool_decide_eq_true_2 by eauto. unfold outcome. simpl.
      split; [done|]. by intros [? _]. }
    rewrite bool_decide_eq_false_2 by (by intros [? ?]).
    destruct (vendored_has w s (exe w "xelatex")).
    { unfold outcome. simpl. split; [done|]. by intros (_ & ? & _). }
    cbv zeta. destruct (installTinyTeX_outcome s) as [(success & Hsuccess & _)|[Hdie _]].
    + rewrite Hsuccess. destruct success; unfold outcome; simpl.
      * split; [done|]. intros (_ & _ & [?|[? _]]); done.
      * destruct (isPostinstall w); split; try done.
        -- intros (_ & _ & [?|[_ ?]]); done.
        -- intros _. split; [done|]. split; [done|]. by right.
    + rewrite Hdie. unfold outcome. simpl. split; [|done].
      intros _. split; [done|]. split; [done|]. by left.
Qed.

Lemma repair_events_kind d :
  Forall (fun e => is_install e = false /\ is_conversion e = false
                   /\ forall cmd arg, e <> EvSpawn cmd arg) (repair_events w d).
Proof.
  unfold repair_events. rewrite !Forall_app. split_and!.
  - apply Forall_fmap, Forall_true. done.
  - by destruct (0 <? _)%nat; repeat constructor.
  - apply Forall_forall. intros e He.
    by apply alias_events_shape in He as (from & to & [->| ->]).
Qed.

(** X2: when a system [pdflatex] answers, or the vendored directory has
    xelatex, the install script asks for no archive and unpacks none, and
    exits with status 0; in the first case it leaves the vendored directory
    as it is, in the second it runs the repair pass on it. *)
Theorem install_script_skips_installed s :
  is_Some (exec w "pdflatex --version") \/ vendored_has w s (exe w "xelatex") = true ->
  let r := InstallLatex.main w s in
  outcome r = Exit 0
  /\ Forall (fun e => is_install e = false) (events r)
  /\ final r = if bool_decide (is_Some (exec w "pdflatex --version")) then s else repaired w s.
Proof.
  intros Hthere. cbv zeta. rewrite install_main_run.
  destruct (bool_decide (is_Some (exec w "pdflatex --version"))) eqn:Hexec.
  { unfold outcome, final, events. simpl. split; [done|]. split; [|done].
    by repeat constructor. }
  destruct Hthere as [Hsys|Hvendored].
  { apply bool_decide_eq_false in Hexec. done. }
  rewrite Hvendored. unfold outcome, final, events. simpl. split; [done|]. split; [|done].
  constructor; [done|]. constructor; [done|]. apply Forall_app. split; [|by repeat constructor].
  destruct s as [d|]; [|constructor]. simpl.
  eapply Forall_impl; [apply repair_events_kind|]. by intros e [? _].
Qed.

(** X3: when nothing is installed and the archive arrives and unpacks, the
    install script ends with status 0 on the repaired state of whatever the
    extraction left, after the download, the extraction and the repair pass
    in this order.  Nothing checks that the extraction left a bin directory. *)
Theorem fresh_install_repairs_the_unpacked_directory s s' :
  exec w "pdflatex --version" = None ->
  vendored_has w s (exe w "xelatex") = false ->
  outcome (fetch w s) = Ret tt ->
  extract w s = (s', None) ->
  InstallLatex.main w s =
  (Exit 0, repaired w s',
   probing ++ unpacking w s ++ repairing w s'
   ++ [EvStdout "[tex2pdf-setup] TinyTeX installed successfully!";
       EvStdout ("[tex2pdf-setup] Location: " +:+ InstallLatex.INSTALL_DIR w)]).
Proof.
  intros Hexec Hvendored Hfetch Hextract. rewrite install_main_run.
  rewrite Hexec, bool_decide_eq_false_2 by (by intros [? ?]).
  rewrite Hvendored. cbv zeta. rewrite installTinyTeX_run, Hfetch, Hextract.
  unfold outcome, final, events. simpl. by rewrite <- !app_assoc.
Qed.

(** X4: when the download fails, [installTinyTeX] reports the error and
    answers [false]; the vendored directory is as before, nothing is
    unpacked and no entry is repaired. *)
Theorem failed_download_changes_nothing s message :
  outcome (fetch w s) = Throw message ->
  let r := InstallLatex.installTinyTeX w s in
  outcome r = Ret false
  /\ final r = s
  /\ EvStdout ("[tex2pdf-setup] Error installing TinyTeX: " +:+ message) ∈ events r
  /\ Forall (fun e => is_repair e = false /\ forall url, e <> EvExtract url) (events r).
Proof.
  intros Hfetch. cbv zeta. rewrite installTinyTeX_run, Hfetch.
  unfold outcome, final, events. simpl. split; [done|]. split; [done|]. split.
  - apply elem_of_cons. right. apply elem_of_app. right. apply elem_of_cons. by left.
  - constructor; [done|]. apply Forall_app. split.
    + apply (downloadFile_events (fun e => is_repair e = false /\ forall url, e <> EvExtract url));
        done.
    + unfold failure_report. destruct (String.eqb _ _); by repeat constructor.
Qed.

(** X5: when the archive arrives and its extraction fails, [installTinyTeX]
    reports the error and answers [false]; what the extraction left of the
    vendored directory stays as it is: nothing is removed and no repair pass
    runs. *)
Theorem failed_extraction_is_not_undone s s' message :
  outcome (fetch w s) = Ret tt ->
  extract w s = (s', Some message) ->
  let r := InstallLatex.installTinyTeX w s in
  outcome r = Ret false
  /\ final r = s'
  /\ EvStdout ("[tex2pdf-setup] Error installing TinyTeX: " +:+ message) ∈ events r
  /\ Forall (fun e => is_repair e = false) (events r).
Proof.
  intros Hfetch Hextract. cbv zeta. rewrite installTinyTeX_run, Hfetch, Hextract.
  unfold outcome, final, events. cbn [fst snd]. split; [done|]. split; [done|]. split.
  - apply elem_of_app. right. apply elem_of_cons. by left.
  - unfold unpacking. rewrite Forall_app. split.
    + constructor; [done|]. apply Forall_app. split; [|by repeat constructor].
      apply (downloadFile_events (fun e => is_repair e = false)); done.
    + unfold failure_report. destruct (String.eqb _ _); by repeat constructor.
Qed.

End InstallTheory.

(** ** Redirects *)

Section RedirectTheory.

(** X6: a request answered with status 301 or 302 is made again at the
    Location of the answer: over a chain of redirects the URLs are asked for
    in order, each after the line that announces the download, and the
    download ends as the one from the last Location does. *)
Theorem downloadFile_follows_redirects hops : forall url rest s,
  Forall (fun answer => is_redirect answer = true) hops ->
  let r := InstallLatex.downloadFile (redirected url hops) rest s in
  InstallLatex.downloadFile url (hops ++ rest) s
  = (outcome r, final r, redirect_events url hops ++ events r).
Proof.
  induction hops as [|hop hops IH]; intros url rest s Hhops; cbv zeta.
  - simpl. apply run_eta.
  - apply Forall_cons in Hhops as [Hhop Hhops].
    destruct hop as [message|message|statusCode location content_length chunks file_error];
      [done..|].
    rewrite <- app_comm_cons, downloadFile_redirect by done.
    rewrite (IH location rest s Hhops). reflexivity.
Qed.

End RedirectTheory.

(** ** The repair pass: what it counts and what it keeps *)

Section RepairFrame.
Context (w : World).

(** X7: the repair pass unlinks the hanging links of the directory that
    the process may unlink, each once and in the order in which
    [fs.readdirSync] lists them, and nothing else: a failed unlink is
    swallowed and not counted.  It prints the line that counts the unlinked
    links exactly when there is one, with their number, and no other line. *)
Theorem repair_pass_counts_hanging_links d :
  let r := InstallLatex.fixTinyTeXSymlinks w (Some d) in
  let fixedCount := length (hanging w d) in
  omap unlinked (events r) = hanging w d
  /\ List.filter is_stdout (events r) =
     if (0 <? fixedCount)%nat
     then [EvStdout ("[tex2pdf-setup] Fixed " +:+ pretty fixedCount +:+ " broken symlinks")]
     else [].
Proof.
  cbv zeta. rewrite fixTinyTeXSymlinks_run. unfold events, repair_events. cbn [snd].
  rewrite pruned_names.
  assert (forall pairs d', omap unlinked (alias_events w d' pairs) = []
                           /\ List.filter is_stdout (alias_events w d' pairs) = []) as Hal.
  { induction pairs as [|p pairs IH]; intros d'; [done|]. simpl.
    rewrite omap_app, List.filter_app. destruct (IH (add_alias w d' p)) as [-> ->].
    unfold add_alias_events, try_alias_event.
    destruct (wants_alias w d' p); [|done].
    destruct (try_alias w d' _ _); [|done].
    destruct (d' !! _); [done|]. by destruct (symlink_permitted w). }
  destruct (Hal InstallLatex.symlinks (prune w d (names w d))) as [Hal1 Hal2].
  split.
  - rewrite !omap_app, Hal1.
    assert (omap unlinked (EvUnlink <$> hanging w d) = hanging w d) as ->.
    { induction (hanging w d) as [|n l IH]; [done|]. simpl. f_equal. exact IH. }
    destruct (0 <? _)%nat; simpl; by rewrite app_nil_r.
  - rewrite !List.filter_app, Hal2.
    assert (List.filter is_stdout (EvUnlink <$> hanging w d) = []) as ->.
    { induction (hanging w d) as [|n l IH]; [done|]. simpl. f_equal. exact IH. }
    by destruct (0 <? _)%nat.
Qed.


End RepairFrame.

(** ** [runInstallScript] and [ensureLaTeX] *)

Section SetupRuns.
Context (w : World) `{PathApi}.

Lemma runInstallScript_run s :
  Cli.runInstallScript w s =
  match spawn_error w with
  | Some message => (Throw message, s, spawning w)
  | None =>
      let script := InstallLatex.main w s in
      (if (Cli.exit_status (outcome script) =? 0)%Z then Ret tt else Throw "Installation failed",
       final script, spawning w ++ events script)
  end.
Proof.
  unfold Cli.runInstallScript, spawning.
  rewrite (bind_run _ _ s tt s [EvStdout "LaTeX not found. Installing TinyTeX automatically..."])
    by reflexivity.
  rewrite (bind_run _ _ s tt s [EvStdout "  This is a one-time setup (~200MB download)"])
    by reflexivity.
  rewrite (bind_run _ _ s tt s [EvStdout EmptyString]) by reflexivity.
  rewrite (bind_run _ _ s tt s [EvSpawn "node" (path_join [dirname__ w; "install-latex.js"])])
    by reflexivity.
  destruct (spawn_error w) as [message|]; [reflexivity|]. cbv zeta.
  assert (Cli.run_child (InstallLatex.main w) s
          = (Ret (Cli.exit_status (outcome (InstallLatex.main w s))),
             final (InstallLatex.main w s), events (InstallLatex.main w s))) as Hchild.
  { unfold Cli.run_child. by destruct (InstallLatex.main w s) as [[[[]|e|c] s1] l1]. }
  rewrite (bind_run _ _ _ _ _ _ Hchild).
  generalize (InstallLatex.main w s). intros script.
  destruct (Cli.exit_status _ =? 0)%Z; unfold outcome, final, events, ret, throw;
    cbn [fst snd app]; by rewrite app_nil_r.
Qed.

Lemma location_repaired s : is_Some (location w s) -> is_Some (location w (repaired w s)).
Proof.
  unfold location.
  destruct (match system_location w with Some p => truthy p | None => false end); [done|].
  destruct (vendored_has w s (exe w "pdflatex")) eqn:Hv; [|by intros [? ?]].
  intros _. destruct s as [d|]; [|done]. simpl in *.
  by rewrite repair_resolves.
Qed.

Lemma ensureLaTeX_found s :
  is_Some (location w s) ->
  Cli.ensureLaTeX w s = (Ret true, repaired w s, EvExec WHICH :: repairing w s).
Proof.
  intros Hloc. unfold Cli.ensureLaTeX.
  rewrite (bind_run _ _ _ _ _ _ (hasLaTeX_run w s)).
  rewrite bool_decide_eq_true_2 by done.
  rewrite (bind_run _ _ _ _ _ _ (fixTinyTeXSymlinks_any w s)).
  unfold outcome, final, events. simpl. by rewrite app_nil_r.
Qed.

Lemma ensureLaTeX_install s :
  location w s = None ->
  let run := Cli.runInstallScript w s in
  Cli.ensureLaTeX w s =
  match outcome run with
  | Ret _ =>
      (Ret (bool_decide (is_Some (location w (repaired w (final run))))),
       repaired w (final run),
       EvExec WHICH :: events run ++ repairing w (final run) ++ [EvExec WHICH])
  | _ => (Ret false, final run, EvExec WHICH :: events run ++ guidance)
  end.
Proof.
  intros Hloc. cbv zeta. unfold Cli.ensureLaTeX.
  rewrite (bind_run _ _ _ _ _ _ (hasLaTeX_run w s)).
  rewrite Hloc, bool_decide_eq_false_2 by (by intros [? ?]).
  pose proof (no_exit_runInstallScript w s) as Hno.
  destruct (Cli.runInstallScript w s) as [[[[]|e|c] s1] l1] eqn:Hrun;
    unfold outcome, final, events in *; cbn [fst snd] in *.
  - assert (try_catch (Cli.runInstallScript w ;; InstallLatex.fixTinyTeXSymlinks w ;;
                       FindLatex.hasLaTeX w)
              (fun _ =>
                 console_error (Cli.nl +:+ "Failed to install LaTeX automatically.") ;;
                 console_error "  You can install it manually from:" ;;
                 console_error "  - https://tug.org/texlive/ (TeX Live)" ;;
                 console_error "  - https://miktex.org/ (MiKTeX for Windows)" ;;
                 console_error "  - https://yihui.org/tinytex/ (TinyTeX)" ;;
                 ret false) s
            = (Ret (bool_decide (is_Some (location w (repaired w s1)))), repaired w s1,
               l1 ++ repairing w s1 ++ [EvExec WHICH])) as ->; [|reflexivity].
    unfold try_catch. rewrite (bind_run _ _ _ _ _ _ Hrun).
    rewrite (bind_run _ _ _ _ _ _ (fixTinyTeXSymlinks_any w s1)).
    rewrite hasLaTeX_run. reflexivity.
  - unfold try_catch. rewrite (bind_throw _ _ _ _ _ _ Hrun). reflexivity.
  - by destruct (Hno c).
Qed.

End SetupRuns.

(** ** The choice of the Locator *)

Section LocatorChoice.
Context (w : World) `{PathApi}.

(** X9: when the look-up of [pdflatex] on the system prints a path, the
    Locator answers the directory of that path with type [system], whatever
    the vendored directory holds. *)
Theorem system_latex_is_preferred out s :
  exec w WHICH = Some out ->
  truthy (trim out) = true ->
  truthy (path_dirname (trim out)) = true ->
  FindLatex.getLaTeXPath w s =
  (Ret (Some {| FindLatex.path := path_dirname (trim out); FindLatex.type := "system" |}),
   s, [EvExec WHICH]).
Proof.
  intros Hexec Hout Hdir. rewrite getLaTeXPath_run. unfold location, system_location.
  by rewrite Hexec, Hout, Hdir.
Qed.

(** X10: when the look-up of [pdflatex] on the system fails, or succeeds
    and prints only white space, the Locator falls back on the vendored
    directory: it answers its path with type [tinytex] when pdflatex exists
    there, and [null] otherwise. *)
Theorem vendored_latex_is_the_fallback s :
  exec w WHICH = None \/ (exists out, exec w WHICH = Some out /\ trim out = EmptyString) ->
  FindLatex.getLaTeXPath w s =
  (Ret (if vendored_has w s (exe w "pdflatex")
        then Some {| FindLatex.path := InstallLatex.getTinyTeXBinPath w;
                     FindLatex.type := "tinytex" |}
        else None),
   s, [EvExec WHICH]).
Proof.
  intros Hexec. rewrite getLaTeXPath_run. unfold location, system_location.
  destruct Hexec as [->|(out & -> & ->)]; reflexivity.
Qed.

End LocatorChoice.

(** ** What [ensureLaTeX] guarantees *)

Section EnsureTheory.
Context (w : World) `{PathApi}.

(** X11: [runInstallScript] resolves exactly when the install script could
    be spawned and ended with status 0.  When the spawn fails it rejects with
    the error of the spawn and the script has not run; when the script ends
    with another status it rejects with [Installation failed]. *)
Theorem runInstallScript_resolves_on_status_zero s :
  let r := Cli.runInstallScript w s in
  let script := InstallLatex.main w s in
  (outcome r = Ret tt <-> spawn_error w = None /\ Cli.exit_status (outcome script) = 0%Z)
  /\ (forall message, spawn_error w = Some message -> r = (Throw message, s, spawning w))
  /\ (spawn_error w = None -> Cli.exit_status (outcome script) <> 0%Z ->
      r = (Throw "Installation failed", final script, spawning w ++ events script)).
Proof.
  cbv zeta. rewrite runInstallScript_run.
  destruct (spawn_error w) as [message|].
  - split; [split; [discriminate|by intros [? _]]|]. split; [|done].
    by intros ? [= ->].
  - cbv zeta. destruct (Z.eqb_spec (Cli.exit_status (outcome (InstallLatex.main w s))) 0)
      as [Hzero|Hother].
    + split; [done|]. split; [done|]. intros _ Hne. by destruct Hne.
    + split; [|done]. split; [discriminate|]. by intros [_ ?].
Qed.

(** X12: [ensureLaTeX] spawns the install script exactly when the Locator
    finds nothing; when it finds a LaTeX it answers [true] after one repair
    pass on the vendored directory, and no archive is asked for or unpacked. *)
Theorem ensureLaTeX_installs_when_nothing_is_found s :
  let r := Cli.ensureLaTeX w s in
  (EvSpawn "node" (path_join [dirname__ w; "install-latex.js"]) ∈ events r
   <-> location w s = None)
  /\ (is_Some (location w s) ->
      outcome r = Ret true /\ final r = repaired w s
      /\ Forall (fun e => is_install e = false) (events r)).
Proof.
  cbv zeta.
  assert (is_Some (location w s) ->
          Forall (fun e => is_install e = false /\ is_conversion e = false
                           /\ forall cmd arg, e <> EvSpawn cmd arg)
                 (events (Cli.ensureLaTeX w s))) as Hkind.
  { intros Hloc. rewrite ensureLaTeX_found by done. unfold events. simpl.
    constructor; [done|]. destruct s as [d|]; [apply repair_events_kind|constructor]. }
  split.
  - split.
    + intros Hin. destruct (location w s) eqn:Hloc; [|done].
      specialize (Hkind ltac:(eauto)). rewrite Forall_forall in Hkind.
      destruct (Hkind _ Hin) as (_ & _ & Hno). by destruct (Hno _ _ eq_refl).
    + intros Hloc. rewrite (ensureLaTeX_install w s Hloc). cbv zeta.
      assert (EvSpawn "node" (path_join [dirname__ w; "install-latex.js"])
              ∈ events (Cli.runInstallScript w s)) as Hspawn.
      { rewrite runInstallScript_run. unfold spawning, events.
        destruct (spawn_error w); cbn [snd]; set_solver. }
      destruct (outcome (Cli.runInstallScript w s)); unfold events; cbn [snd];
        apply elem_of_cons; right; apply elem_of_app; by left.
  - intros Hloc. specialize (Hkind Hloc). rewrite ensureLaTeX_found in * by done.
    split; [done|]. split; [done|].
    eapply Forall_impl; [exact Hkind|]. by intros e [? _].
Qed.

(** X13: when [ensureLaTeX] answers [true], the Locator finds a LaTeX in
    the state it leaves, so that [getEnginePath] answers a path for every
    engine: the repair pass that runs last takes away nothing the Locator
    has found. *)
Theorem ensureLaTeX_ready_is_located s :
  outcome (Cli.ensureLaTeX w s) = Ret true ->
  let s' := final (Cli.ensureLaTeX w s) in
  is_Some (location w s')
  /\ (forall engine, exists cmd,
        outcome (FindLatex.getEnginePath w engine s') = Ret (Some cmd)).
Proof.
  intros Hready. cbv zeta.
  assert (is_Some (location w (final (Cli.ensureLaTeX w s)))) as Hloc.
  { destruct (location w s) as [info|] eqn:Hfound.
    - rewrite ensureLaTeX_found by eauto. unfold final. simpl.
      apply location_repaired; eauto.
    - revert Hready. rewrite (ensureLaTeX_install w s Hfound). cbv zeta.
      destruct (outcome (Cli.runInstallScript w s)); unfold outcome, final; simpl;
        [|discriminate..].
      intros [= Hdec]. by apply bool_decide_eq_true in Hdec. }
  split; [done|].
  intros engine. rewrite getEnginePath_run. destruct Hloc as [info ->]. by eexists.
Qed.

End EnsureTheory.

(** ** [main]: help and failed installation *)

Section MainTheory.
Context (w : World) `{PathApi}.

(** X14: with no argument, or with [--help] or [-h] anywhere among the
    arguments, [main] prints the usage and exits with status 0; it looks for
    no LaTeX, installs nothing and reads no other argument. *)
Theorem help_is_answered_first args s :
  args = [] \/ "--help" ∈ args \/ "-h" ∈ args ->
  Cli.main w args s = (Exit 0, s, [EvStdout Cli.usage]).
Proof.
  intros Hhelp. unfold Cli.main.
  assert ((length args =? 0)%nat || bool_decide ("--help" ∈ args) || bool_decide ("-h" ∈ args)
          = true) as ->; [|reflexivity].
  destruct Hhelp as [->|[Hin|Hin]]; [done|..];
    rewrite (bool_decide_eq_true_2 _ Hin); by rewrite ?orb_true_r.
Qed.

(** X15: when no LaTeX is found and the install script cannot be spawned or
    fails, [main] prints the manual installation guidance on stderr and
    exits with status 1 before it reads an argument: no flag is rejected and
    no conversion is started. *)
Theorem failed_installation_ends_main args s message :
  args <> [] -> "--help" ∉ args -> "-h" ∉ args -> "--install" ∉ args ->
  location w s = None ->
  outcome (Cli.runInstallScript w s) = Throw message ->
  Cli.main w args s =
  (Exit 1, final (Cli.runInstallScript w s),
   EvExec WHICH :: events (Cli.runInstallScript w s) ++ guidance).
Proof.
  intros Hargs Hhelp Hh Hinstall Hloc Hrun.
  rewrite main_convert by done.
  pose proof (ensureLaTeX_install w s Hloc) as Hensure. cbv zeta in Hensure.
  rewrite Hrun in Hensure. rewrite (bind_run _ _ _ _ _ _ Hensure).
  unfold outcome, final, events. simpl. by rewrite app_nil_r.
Qed.

End MainTheory.

(** ** [main]: the arguments after the input *)

Section ArgumentTheory.
Context (w : World) `{PathApi}.

Lemma split_no_sep sep s : includes (String sep EmptyString) s = false -> split sep s = [s].
Proof.
  induction s as [|c s IH]; [done|]. cbn [includes split String.prefix].
  destruct (ascii_dec sep c) as [->|Hne].
  - by destruct s.
  - cbn [orb]. intros Hs. rewrite (IH Hs).
    assert (Ascii.eqb c sep = false) as ->; [|done].
    apply Ascii.eqb_neq. congruence.
Qed.

Lemma split_append sep p s :
  includes (String sep EmptyString) p = false ->
  split sep (p +:+ String sep s) = p :: split sep s.
Proof.
  induction p as [|c p IH].
  - intros _. simpl. by rewrite Ascii.eqb_refl.
  - change (String c p +:+ String sep s) with (String c (p +:+ String sep s)).
    cbn [includes split String.prefix].
    destruct (ascii_dec sep c) as [->|Hne]; [by destruct p|].
    cbn [orb]. intros Hp. rewrite (IH Hp).
    assert (Ascii.eqb c sep = false) as ->; [|done].
    apply Ascii.eqb_neq. congruence.
Qed.

Lemma prefix_append p s : String.prefix p (p +:+ s) = true.
Proof.
  induction p as [|c p IH]; simpl; [by destruct s|].
  by destruct (ascii_dec c c).
Qed.

(** X16: an argument [--engine=NAME] sets the engine to [NAME], for every
    name without [=], the empty name included; the output path chosen so far
    stays. *)
Theorem engine_flag_sets_the_engine acc name s :
  includes "=" name = false ->
  Cli.parse_arg acc ("--engine=" +:+ name) s =
  (Ret {| Cli.outputFile := Cli.outputFile acc; Cli.engine := name |}, s, []).
Proof.
  intros Hname. unfold Cli.parse_arg.
  rewrite prefix_append.
  assert (split "=" ("--engine=" +:+ name) = ["--engine"; name]) as ->; [|reflexivity].
  change ("--engine=" +:+ name) with ("--engine" +:+ String "=" name).
  rewrite split_append by reflexivity. by rewrite (split_no_sep _ _ Hname).
Qed.

Lemma last_filter_cons {A} (f : A -> bool) x l :
  last (List.filter f (x :: l)) =
  match last (List.filter f l) with
  | Some y => Some y
  | None => if f x then Some x else None
  end.
Proof.
  simpl. destruct (f x); [|by destruct (last _)].
  rewrite last_cons. by destruct (last _).
Qed.

Lemma parse_args_run rest : forall acc s,
  Forall (fun arg => unknown_flag arg = false) rest ->
  exists parsed,
    foldM Cli.parse_arg acc rest s = (Ret parsed, s, [])
    /\ Cli.engine parsed = chosen_engine rest (Cli.engine acc)
    /\ so_far parsed = match so_far acc with
                       | Some o => Some o
                       | None => chosen_output rest
                       end.
Proof.
  induction rest as [|arg rest IH]; intros acc s Hall.
  - exists acc. split; [done|]. split; [done|]. by destruct (so_far acc).
  - apply Forall_cons in Hall as [Harg Hall]. cbn [foldM].
    unfold chosen_engine, chosen_output. rewrite last_filter_cons. cbn [List.find].
    unfold positional, unknown_flag in *.
    destruct (String.prefix "--engine=" arg) eqn:Hengine.
    + assert (String.prefix "--" arg = true) as Hflag.
      { clear -Hengine. destruct arg as [|a [|b arg]]; try done.
        cbn [String.prefix] in *.
        destruct (ascii_dec "-" a); [|done]. destruct (ascii_dec "-" b); [|done].
        by destruct arg. }
      rewrite Hflag. cbn [negb andb].
      destruct (IH {| Cli.outputFile := Cli.outputFile acc;
                      Cli.engine := nth 1 (split "=" arg) EmptyString |} s Hall)
        as (parsed & Hrun & Heng & Hout).
      exists parsed. split.
      { unfold bind. unfold Cli.parse_arg at 1. rewrite Hengine. unfold ret at 1.
        by rewrite Hrun. }
      split; [|exact Hout].
      rewrite Heng. unfold chosen_engine. by destruct (last _).
    + rewrite andb_true_r in Harg. rewrite Harg. cbn [negb andb].
      destruct (Cli.falsy_path (Cli.outputFile acc)) eqn:Hfalsy.
      * destruct (IH {| Cli.outputFile := Some arg; Cli.engine := Cli.engine acc |} s Hall)
          as (parsed & Hrun & Heng & Hout).
        exists parsed. split.
        { unfold bind. unfold Cli.parse_arg at 1. rewrite Hengine, Harg, Hfalsy.
          unfold ret at 1. by rewrite Hrun. }
        split; [rewrite Heng; unfold chosen_engine; by destruct (last _)|].
        rewrite Hout. unfold so_far. rewrite Hfalsy.
        cbn [Cli.outputFile Cli.falsy_path]. by destruct (truthy arg).
      * destruct (IH acc s Hall) as (parsed & Hrun & Heng & Hout).
        exists parsed. split.
        { unfold bind. unfold Cli.parse_arg at 1. rewrite Hengine, Harg, Hfalsy.
          unfold ret at 1. by rewrite Hrun. }
        split; [rewrite Heng; unfold chosen_engine; by destruct (last _)|].
        rewrite Hout. unfold so_far. rewrite Hfalsy. by destruct (Cli.outputFile acc).
Qed.

(** X17: given an input followed by arguments none of which is an unknown
    flag or [-h], [main] converts the input to the first argument after it
    that is no flag and not empty, or to the default output path when there
    is none, with the engine of the last [--engine=] flag, or xelatex when
    there is none; positional arguments after the first are ignored. *)
Theorem arguments_choose_output_and_engine inputFile rest s :
  inputFile ∉ ["--help"; "-h"; "--install"] ->
  "-h" ∉ rest ->
  Forall (fun arg => unknown_flag arg = false) rest ->
  Cli.main w (inputFile :: rest) s =
  (latexReady <- Cli.ensureLaTeX w ;;
   (if negb latexReady then process_exit 1 else ret tt) ;;
   Cli.run_conversion w inputFile
     (default (Cli.default_output inputFile) (chosen_output rest))
     (chosen_engine rest "xelatex")) s.
Proof.
  intros Hinput Hh Hflags.
  assert (forall flag : string, unknown_flag flag = true -> flag ∉ rest) as Hnot.
  { intros flag Hflag Hin. rewrite Forall_forall in Hflags. apply Hflags in Hin. congruence. }
  rewrite main_convert; [|done|..].
  2-4: (apply not_elem_of_cons; split; [intros <-; apply Hinput; set_solver|]).
  2, 4: by apply Hnot. 2: done.
  apply bind_ext. intros ready s1. apply bind_ext. intros _ s2.
  cbn [tail head]. change (default EmptyString (Some inputFile)) with inputFile.
  destruct (parse_args_run rest {| Cli.outputFile := None; Cli.engine := "xelatex" |} s2 Hflags)
    as (parsed & Hrun & Heng & Hout).
  rewrite (bind_run _ _ _ _ _ _ Hrun). cbn [Cli.engine] in Heng. rewrite <- Heng.
  assert ((if Cli.falsy_path (Cli.outputFile parsed)
           then Cli.default_output inputFile
           else default EmptyString (Cli.outputFile parsed))
          = default (Cli.default_output inputFile) (chosen_output rest)) as ->.
  { unfold so_far in Hout. cbn [Cli.outputFile Cli.falsy_path] in Hout. rewrite <- Hout.
    destruct (Cli.outputFile parsed) as [o|]; [|done].
    cbn [Cli.falsy_path]. by destruct (truthy o). }
  rewrite app_nil_l. symmetry. apply run_eta.
Qed.

End ArgumentTheory.

(** ** [main]: returning normally *)

Section ReturnTheory.
Context (w : World) `{PathApi}.

Lemma convertFile_ret inputPath outputPath engine s :
  outcome (Cli.convertFile w inputPath outputPath engine s) = Ret tt ->
  converted w inputPath outputPath (events (Cli.convertFile w inputPath outputPath engine s)).
Proof.
  rewrite convertFile_run. unfold converted.
  destruct (path_exists w inputPath); [|discriminate]. cbn [negb].
  destruct (location w s) as [info|]; [|discriminate].
  destruct (latex w (engine_cmd w info engine) inputPath) eqn:Hlatex; [discriminate|].
  intros _. unfold events, conversion_events. cbn [snd]. split; [done|]. split.
  { set_solver. }
  split; [done|]. exists (engine_cmd w info engine). done.
Qed.

Lemma converted_app inputFile outputFile l1 l2 :
  converted w inputFile outputFile l2 -> converted w inputFile outputFile (l1 ++ l2).
Proof.
  intros (Hin & Hopen & Hlast & cmd & Hcmd & Hok). unfold converted.
  split; [done|]. split; [set_solver|]. split.
  { by rewrite last_app, Hlast. }
  exists cmd. by rewrite engine_runs_app, last_app, Hcmd.
Qed.

Lemma run_conversion_ret inputFile outputFile engine s :
  outcome (Cli.run_conversion w inputFile outputFile engine s) = Ret tt ->
  converted w inputFile outputFile (events (Cli.run_conversion w inputFile outputFile engine s)).
Proof.
  unfold Cli.run_conversion.
  pose proof (convertFile_ret inputFile outputFile engine s) as Hfirst.
  destruct (Cli.convertFile w inputFile outputFile engine s) as [[[[]|message|c] s1] l1] eqn:Hrun.
  - unfold try_catch. rewrite Hrun. intros _. by apply Hfirst.
  - rewrite (try_catch_run_throw _ _ _ _ _ _ Hrun). clear Hfirst.
    destruct (String.eqb engine "pdflatex" && includes "Font" message).
    + rewrite (bind_run _ _ s1 tt s1 [EvStdout "pdflatex failed (font issue), trying xelatex..."])
        by reflexivity.
      pose proof (convertFile_ret inputFile outputFile "xelatex" s1) as Hsecond.
      unfold try_catch.
      destruct (Cli.convertFile w inputFile outputFile "xelatex" s1)
        as [[[[]|message2|c] s2] l2]; unfold outcome, events, final in *; cbn [fst snd] in *;
        [|discriminate..].
      intros _. apply converted_app, converted_app. by apply Hsecond.
    + unfold outcome, final, events. cbn [fst snd].
      destruct (includes "Command failed" message); discriminate.
  - unfold try_catch. rewrite Hrun. discriminate.
Qed.

(** X18: [main] returns normally only after a conversion that succeeded:
    there is an input argument and the input file exists, the last run of
    the engine reported no error, an output stream was opened, and the last
    thing printed is the line that names the PDF created.  On every other
    path [main] ends by [process.exit] or by an error. *)
Theorem main_returns_after_a_conversion args s :
  let r := Cli.main w args s in
  outcome r = Ret tt ->
  exists inputFile rest outputFile,
    args = inputFile :: rest
    /\ path_exists w inputFile = true
    /\ EvOpenWrite outputFile ∈ events r
    /\ last (events r) = Some (EvStdout ("Created: " +:+ outputFile))
    /\ exists cmd, last (engine_runs (events r)) = Some cmd /\ latex w cmd inputFile = None.
Proof.
  cbv zeta. intros Hret.
  destruct args as [|inputFile rest].
  { revert Hret. unfold Cli.main. cbn [length Nat.eqb orb].
    unfold Cli.showHelp, bind, console_log, emit, process_exit. discriminate. }
  exists inputFile, rest. unfold Cli.main in *.
  apply bind_ret_inv in Hret as (a1 & s1 & l1 & _ & Hret & _ & ->).
  apply bind_ret_inv in Hret as (a2 & s2 & l2 & _ & Hret & _ & ->).
  apply bind_ret_inv in Hret as (ready & s3 & l3 & _ & Hret & _ & ->).
  apply bind_ret_inv in Hret as (a4 & s4 & l4 & _ & Hret & _ & ->).
  apply bind_ret_inv in Hret as (parsed & s5 & l5 & _ & Hret & _ & ->).
  apply run_conversion_ret in Hret.
  change (default EmptyString (head (inputFile :: rest))) with inputFile in *.
  eexists. split; [reflexivity|].
  apply (converted_app _ _ l5), (converted_app _ _ l4), (converted_app _ _ l3),
    (converted_app _ _ l2), (converted_app _ _ l1) in Hret.
  exact Hret.
Qed.

End ReturnTheory.

(** ** What is printed *)

Section ReportTheory.
Context (w : World) `{PathApi}.

Lemma prefixed_log message : prefixed (EvStdout ("[tex2pdf-setup] " +:+ message)).
Proof. apply prefix_append. Qed.

Lemma emits_setup_log message : emits prefixed (InstallLatex.log message).
Proof. apply emits_emit, prefixed_log. Qed.

Lemma emits_setup_fix : emits prefixed (InstallLatex.fixTinyTeXSymlinks w).
Proof.
  intros s. rewrite fixTinyTeXSymlinks_any. unfold events. cbn [snd].
  destruct s as [d|]; [|constructor]. simpl. unfold repair_events.
  rewrite !Forall_app. split_and!.
  - apply Forall_fmap, Forall_true. done.
  - destruct (0 <? _)%nat; repeat constructor.
  - apply Forall_forall. intros e He.
    by apply alias_events_shape in He as (from & to & [->| ->]).
Qed.

Lemma emits_setup_download answers : forall url,
  emits prefixed (InstallLatex.downloadFile url answers).
Proof.
  pose proof emits_setup_log.
  induction answers as [|answer rest IH]; intros url; simpl;
    unfold InstallLatex.on_data; emits_steps; auto.
Qed.

(** X19: every line the install script prints on stdout is under the
    prefix [[tex2pdf-setup] ]: the script prints through [log] only, on every
    path, the repair pass and the progress of the download included. *)
Theorem install_script_prints_under_its_prefix s :
  Forall prefixed (events (InstallLatex.main w s)).
Proof.
  pose proof emits_setup_log. pose proof emits_setup_fix. pose proof emits_setup_download.
  pose proof (emits_existsSync w prefixed).
  assert (forall url, emits prefixed (InstallLatex.extract_archive w url)) as Hextract.
  { intros url s0. unfold InstallLatex.extract_archive, events.
    destruct (extract w s0) as [s' failure]. simpl. by repeat constructor. }
  assert (emits prefixed (InstallLatex.main w)) as Hmain; [|apply Hmain].
  unfold InstallLatex.main, InstallLatex.checkExistingLaTeX, InstallLatex.checkTinyTeXInstalled,
    InstallLatex.installTinyTeX, InstallLatex.installTinyTeXWindows,
    InstallLatex.installTinyTeXUnix, execSync.
  emits_steps; auto.
Qed.

(** X20: what a failed conversion reports on stderr.  When the first run
    fails with [message] and is not retried, the lines are [Conversion
    failed:] and the message, followed by the tip exactly when the message
    contains [Command failed].  When it is retried with xelatex, nothing is
    reported if the retry succeeds; if the retry fails the lines are
    [Conversion failed with both engines:] and the message of the retry only:
    the first message is not reported and no tip is given. *)
Theorem failed_conversion_report inputFile outputFile engine s message :
  outcome (Cli.convertFile w inputFile outputFile engine s) = Throw message ->
  List.filter is_stderr (events (Cli.run_conversion w inputFile outputFile engine s)) =
  if String.eqb engine "pdflatex" && includes "Font" message then
    match outcome (Cli.convertFile w inputFile outputFile "xelatex" s) with
    | Throw fallbackMessage =>
        [EvStderr (Cli.nl +:+ "Conversion failed with both engines:");
         EvStderr fallbackMessage]
    | _ => []
    end
  else
    [EvStderr (Cli.nl +:+ "Conversion failed:"); EvStderr message]
    ++ if includes "Command failed" message
       then [EvStderr (Cli.nl +:+ "Tip: Your TeX file may have errors or missing packages.");
             EvStderr "  Check the file compiles with a LaTeX editor first."]
       else [].
Proof.
  intros Hfail. unfold Cli.run_conversion.
  assert (exists l1, Cli.convertFile w inputFile outputFile engine s = (Throw message, s, l1)
                     /\ List.filter is_stderr l1 = []
                     /\ path_exists w inputFile = true /\ is_Some (location w s))
    as (l1 & Hrun & Hquiet & Hin & [info Hloc]).
  { revert Hfail. rewrite convertFile_run.
    destruct (path_exists w inputFile); [|discriminate]. cbn [negb].
    destruct (location w s) as [info|]; [|discriminate].
    destruct (latex w _ inputFile); [|discriminate].
    intros [= ->]. eexists. split; [reflexivity|]. split; [reflexivity|]. eauto. }
  rewrite (try_catch_run_throw _ _ _ _ _ _ Hrun).
  destruct (String.eqb engine "pdflatex" && includes "Font" message).
  - rewrite (bind_run _ _ s tt s [EvStdout "pdflatex failed (font issue), trying xelatex..."])
      by reflexivity.
    unfold try_catch. rewrite convertFile_run, Hin, Hloc. cbn [negb].
    destruct (latex w (engine_cmd w info "xelatex") inputFile) as [m2|];
      unfold outcome, events; cbn [fst snd]; rewrite !List.filter_app, Hquiet; reflexivity.
  - unfold events. cbn [snd]. rewrite List.filter_app, Hquiet.
    by destruct (includes "Command failed" message).
Qed.

End ReportTheory.

(** * Concrete runs *)

#[local] Existing Instance Posix.api.

(** Decides a closed decidable proposition by evaluation. *)
Ltac decide_by_compute := apply (bool_decide_unpack _); vm_compute; exact I.

(** C1, counterexample.  The default engine is xelatex; when it stops on a
    font problem the engine has run once and the process exits with 1. *)
Lemma default_engine_font_failure_is_not_retried :
  let r := Cli.main (host true true fonts_missing) ["paper.tex"] None in
  selected_engine [] "xelatex" = "xelatex"
  /\ includes "Font" "LaTeX Error: Font TU/lmr/m/n/10 not found" = true
  /\ engine_runs (events r) = ["/usr/bin/xelatex"]
  /\ outcome r = Exit 1.
Proof. vm_compute. done. Qed.

(** C1, witness: pdflatex stops on a font problem and xelatex converts. *)
Lemma pdflatex_font_failure_witness :
  let w := host true true pdflatex_fonts_missing in
  let r := Cli.run_conversion w "paper.tex" "paper.pdf" "pdflatex" None in
  Cli.convertFile w "paper.tex" "paper.pdf" "pdflatex" None
  = (Throw "LaTeX Error: Font T1/cmr/m/n/10 not found", None,
     conversion_events "/usr/bin/pdflatex" "paper.tex" "paper.pdf")
  /\ exists info, location w None = Some info /\
     if String.eqb "pdflatex" "pdflatex"
        && includes "Font" "LaTeX Error: Font T1/cmr/m/n/10 not found" then
       engine_runs (events r) = [engine_cmd w info "pdflatex"; engine_cmd w info "xelatex"] /\
       match latex w (engine_cmd w info "xelatex") "paper.tex" with
       | None => outcome r = Ret tt
       | Some fallbackMessage => outcome r = Exit 1 /\ EvStderr fallbackMessage ∈ events r
       end
     else
       engine_runs (events r) = [engine_cmd w info "pdflatex"] /\
       outcome r = Exit 1 /\
       EvStderr "LaTeX Error: Font T1/cmr/m/n/10 not found" ∈ events r.
Proof.
  split; [reflexivity|].
  apply (pdflatex_font_failure_retries_xelatex_once
           (host true true pdflatex_fonts_missing) "paper.tex" "paper.pdf" "pdflatex" None
           "LaTeX Error: Font T1/cmr/m/n/10 not found" None
           (conversion_events "/usr/bin/pdflatex" "paper.tex" "paper.pdf")).
  reflexivity.
Defined.

(** C2, counterexample.  With the network down the install script ends
    with code 1: [main] is left by the error, [process.exit(0)] is not
    reached and the exit status is 1. *)
Lemma failed_forced_install_does_not_exit_zero :
  let r := Cli.main (host false false engine_fine) ["--install"] None in
  EvSpawn "node" "/opt/tex2pdf/install-latex.js" ∈ events r
  /\ outcome r = Throw "Installation failed"
  /\ Cli.exit_status (outcome r) = 1%Z.
Proof.
  split; [decide_by_compute|]. vm_compute. done.
Qed.

(** C2, witness: the network is there and the installation succeeds. *)
Lemma install_flag_witness :
  let w := host false true engine_fine in
  let run := Cli.runInstallScript w None in
  (("--install" ∈ ["--install"]) /\ ("--help" ∉ ["--install"]) /\ ("-h" ∉ ["--install"])
   /\ run = (Ret tt, final run, events run))
  /\ (Cli.main w ["--install"] None
      = (Exit 0, final run, EvStdout "Force installing LaTeX..." :: events run)
      /\ EvSpawn "node" (path_join [dirname__ w; "install-latex.js"]) ∈ events run).
Proof.
  assert (("--install" ∈ ["--install"]) /\ ("--help" ∉ ["--install"]) /\ ("-h" ∉ ["--install"])
          /\ Cli.runInstallScript (host false true engine_fine) None
             = (Ret tt, final (Cli.runInstallScript (host false true engine_fine) None),
                events (Cli.runInstallScript (host false true engine_fine) None)))
    as Hyps.
  { split_and!; [decide_by_compute..|by vm_compute]. }
  split; [exact Hyps|].
  destruct Hyps as (H1 & H2 & H3 & H4).
  exact (install_flag_exits_zero_when_installed _ _ _ _ _ H1 H2 H3 H4).
Defined.

(** C3, counterexample.  No LaTeX is found: the availability check, the
    download, the extraction and the repair pass all happen, and only then
    is the unknown flag rejected. *)
Lemma unknown_flag_is_rejected_after_installing :
  let r := Cli.main (host false true engine_fine) ["paper.tex"; "--bogus"] None in
  head (events r) = Some (EvExec WHICH)
  /\ EvSpawn "node" "/opt/tex2pdf/install-latex.js" ∈ events r
  /\ EvDownload archive_url ∈ events r
  /\ EvExtract archive_url ∈ events r
  /\ EvSymlink "pdftex" "pdflatex" ∈ events r
  /\ last (events r) = Some (EvStderr "Unknown option: --bogus")
  /\ (map_to_list <$> final r) = Some (map_to_list (repair (host false true engine_fine) unpacked))
  /\ outcome r = Exit 1.
Proof.
  split_and!; first [decide_by_compute | by vm_compute].
Qed.

(** C3, witness: a system LaTeX is there and a flag after the input is unknown. *)
Lemma unknown_flag_witness :
  let w := host true true engine_fine in
  let args := ["paper.tex"; "--bogus"] in
  let r := Cli.main w args None in
  (("--help" ∉ args) /\ ("-h" ∉ args) /\ ("--install" ∉ args)
   /\ Exists (fun arg => unknown_flag arg = true) (tail args))
  /\ (outcome r = Exit 1
      /\ Forall no_conversion (events r)
      /\ (exists l, events r = EvExec WHICH :: l)
      /\ (outcome (Cli.ensureLaTeX w None) = Ret true ->
          exists arg, arg ∈ tail args /\ unknown_flag arg = true /\
            events r = events (Cli.ensureLaTeX w None)
                       ++ [EvStderr ("Unknown option: " +:+ arg)])).
Proof.
  assert (("--help" ∉ ["paper.tex"; "--bogus"]) /\ ("-h" ∉ ["paper.tex"; "--bogus"])
          /\ ("--install" ∉ ["paper.tex"; "--bogus"])
          /\ Exists (fun arg => unknown_flag arg = true) (tail ["paper.tex"; "--bogus"]))
    as Hyps.
  { split_and!; [decide_by_compute..|]. by constructor. }
  split; [exact Hyps|].
  destruct Hyps as (H1 & H2 & H3 & H4).
  exact (unknown_flag_after_input_exits (host true true engine_fine) _ None H1 H2 H3 H4).
Defined.

(** C4, counterexample.  In a vendored bin directory that cannot be written
    the unlink of the hanging link [man] fails and is swallowed: the pass
    returns [true] with no event, and the link is still there.  And in a
    directory that can be written, with pdftex behind as many links as the
    operating system follows, the alias the first pass creates cannot be
    followed: the second pass unlinks it, counts it and creates it again. *)
Lemma repair_pass_leaves_a_link_and_repeats_itself :
  let sealed := host_on false false false engine_fine in
  let open := host false false engine_fine in
  let first := InstallLatex.fixTinyTeXSymlinks sealed (Some unpacked) in
  let again := InstallLatex.fixTinyTeXSymlinks open
                 (final (InstallLatex.fixTinyTeXSymlinks open (Some deep))) in
  (unpacked !! "man" = Some (Link (InDir "share-man"))
   /\ resolves sealed unpacked "man" = false
   /\ outcome first = Ret true
   /\ events first = []
   /\ (final first ≫= fun d' : dir => d' !! "man") = Some (Link (InDir "share-man")))
  /\ (resolves open deep "pdftex" = true
      /\ events again = [EvUnlink "pdflatex";
                         EvStdout "[tex2pdf-setup] Fixed 1 broken symlinks";
                         EvSymlink "pdftex" "pdflatex"]).
Proof. by vm_compute. Qed.

(** C4, witness: the unpacked distribution in a directory that can be written. *)
Lemma repair_pass_witness :
  let w := host false false engine_fine in
  let first := InstallLatex.fixTinyTeXSymlinks w (Some unpacked) in
  let second := InstallLatex.fixTinyTeXSymlinks w (final first) in
  (prunable w unpacked /\ aliasable w unpacked InstallLatex.symlinks)
  /\ ((forall n, EvUnlink n ∈ events first <->
         exists t, unpacked !! n = Some (Link t) /\ resolves w unpacked n = false)
      /\ (forall d' n t, final first = Some d' -> d' !! n = Some (Link t) ->
            resolves w d' n = true)
      /\ final second = final first
      /\ events second = []).
Proof.
  assert (prunable (host false false engine_fine) unpacked
          /\ aliasable (host false false engine_fine) unpacked InstallLatex.symlinks) as Hyps.
  { split; [by intros n _|]. intros pair Hin _. unfold InstallLatex.symlinks in Hin.
    repeat (apply elem_of_cons in Hin as [->|Hin]; [by vm_compute|]).
    by apply elem_of_nil in Hin. }
  split; [exact Hyps|]. destruct Hyps as [H1 H2].
  exact (repair_pass_prunes_and_is_idempotent (host false false engine_fine) unpacked H1 H2).
Defined.



(** What the pass makes of the unpacked distribution: the hanging link is
    gone and the four aliases are links to their engines. *)
Example unpacked_repaired :
  let w := host false false engine_fine in
  map_to_list (repair w unpacked) =
  map_to_list (list_to_map
    [("pdftex", File); ("xetex", File); ("luatex", File); ("tex", File);
     ("tlmgr", Link (Outside "../../texmf-dist/scripts/texlive/tlmgr.pl"));
     ("pdflatex", Link (InDir "pdftex")); ("latex", Link (InDir "tex"));
     ("lualatex", Link (InDir "luatex")); ("xelatex", Link (InDir "xetex"))] : dir).
Proof. by vm_compute. Qed.

(** C6, witness: the input file is not there. *)
Lemma missing_input_witness :
  let w := host true true engine_fine in
  path_exists w "missing.tex" = false
  /\ (Cli.convertFile w "missing.tex" "missing.pdf" "xelatex" None
      = (Exit 1, None, [EvStderr ("Error: File not found: " +:+ "missing.tex")])
      /\ Cli.run_conversion w "missing.tex" "missing.pdf" "xelatex" None
         = (Exit 1, None, [EvStderr ("Error: File not found: " +:+ "missing.tex")])).
Proof.
  split; [reflexivity|].
  apply (missing_input_exits_without_engine (host true true engine_fine)). reflexivity.
Defined.

(** C7, witness: an input and an engine flag, no output argument. *)
Lemma default_output_witness :
  let w := host true true engine_fine in
  let r := Cli.main w ["docs/paper.tex"; "--engine=lualatex"] None in
  (("docs/paper.tex" ∉ ["--help"; "-h"; "--install"])
   /\ Forall (fun arg => String.prefix "--engine=" arg = true) ["--engine=lualatex"])
  /\ (r = (latexReady <- Cli.ensureLaTeX w ;;
           (if negb latexReady then process_exit 1 else ret tt) ;;
           Cli.run_conversion w "docs/paper.tex" (Cli.default_output "docs/paper.tex")
             (selected_engine ["--engine=lualatex"] "xelatex")) None
      /\ Cli.default_output "docs/paper.tex" =
           path_join [parsed_dir (path_parse "docs/paper.tex");
                      parsed_name (path_parse "docs/paper.tex") +:+ ".pdf"]
      /\ Forall (writes_to (Cli.default_output "docs/paper.tex")) (events r)).
Proof.
  assert (("docs/paper.tex" ∉ ["--help"; "-h"; "--install"])
          /\ Forall (fun arg => String.prefix "--engine=" arg = true) ["--engine=lualatex"])
    as Hyps.
  { split; [decide_by_compute|]. by repeat constructor. }
  split; [exact Hyps|]. destruct Hyps as [H1 H2].
  exact (default_output_path (host true true engine_fine) "docs/paper.tex"
           ["--engine=lualatex"] None H1 H2).
Defined.

(** The default output of [docs/paper.tex] is [docs/paper.pdf]. *)
Example default_output_of_paper :
  Cli.default_output "docs/paper.tex" = "docs/paper.pdf"
  /\ Cli.default_output "paper.tex" = "paper.pdf"
  /\ Cli.default_output "/srv/in/thesis.v2.tex" = "/srv/in/thesis.v2.pdf".
Proof. by vm_compute. Qed.

(** C8, counterexample.  4096 bytes arrive in eight chunks of 512: the
    percentages after the chunks are 12, 25, 37, 50, 62, 75, 87 and 100, and
    only 50 and 100 are reported. *)
Lemma progress_skips_ten_percent_steps :
  events (InstallLatex.downloadFile archive_url
            [Response 200 EmptyString (Some "4096") (repeat (repeat Byte.x00 512) 8) None]
            None)
  = [EvStdout "[tex2pdf-setup] Downloading TinyTeX (~200MB)...";
     EvDownload archive_url;
     EvStdout "[tex2pdf-setup] Download progress: 50%";
     EvStdout "[tex2pdf-setup] Download progress: 100%"].
Proof. by vm_compute. Qed.

(** A vendored directory with xelatex and no pdflatex: the install script
    reports it as installed, and the Locator finds no LaTeX in it. *)
Example installed_and_not_located :
  let w := host false false engine_fine in
  let s := Some ({["xelatex" := File]} : dir) in
  let r := InstallLatex.main w s in
  outcome r = Exit 0
  /\ last (events r) = Some (EvStdout "[tex2pdf-setup] TinyTeX is already installed and ready.")
  /\ outcome (FindLatex.getLaTeXPath w (final r)) = Ret None
  /\ outcome (Cli.ensureLaTeX w s) = Ret false.
Proof. by vm_compute. Qed.

(** ** Runs of the install script and of the command line *)

(** X2, witness: a system LaTeX answers: the install script has nothing to do. *)
Lemma install_script_skips_installed_witness :
  let w := host true true engine_fine in
  let r := InstallLatex.main w None in
  (is_Some (exec w "pdflatex --version") \/ vendored_has w None (exe w "xelatex") = true)
  /\ (outcome r = Exit 0
      /\ Forall (fun e => is_install e = false) (events r)
      /\ final r = if bool_decide (is_Some (exec w "pdflatex --version"))
                   then None else repaired w None).
Proof.
  assert (is_Some (exec (host true true engine_fine) "pdflatex --version")
          \/ vendored_has (host true true engine_fine) None
               (exe (host true true engine_fine) "xelatex") = true) as Hyp.
  { left. by eexists. }
  split; [exact Hyp|].
  exact (install_script_skips_installed (host true true engine_fine) None Hyp).
Defined.

(** X3, witness: nothing is installed and the network is there. *)
Lemma fresh_install_witness :
  let w := host false true engine_fine in
  (exec w "pdflatex --version" = None
   /\ vendored_has w None (exe w "xelatex") = false
   /\ outcome (fetch w None) = Ret tt
   /\ extract w None = (Some unpacked, None))
  /\ InstallLatex.main w None =
     (Exit 0, repaired w (Some unpacked),
      probing ++ unpacking w None ++ repairing w (Some unpacked)
      ++ [EvStdout "[tex2pdf-setup] TinyTeX installed successfully!";
          EvStdout ("[tex2pdf-setup] Location: " +:+ InstallLatex.INSTALL_DIR w)]).
Proof.
  assert (exec (host false true engine_fine) "pdflatex --version" = None
          /\ vendored_has (host false true engine_fine) None
               (exe (host false true engine_fine) "xelatex") = false
          /\ outcome (fetch (host false true engine_fine) None) = Ret tt
          /\ extract (host false true engine_fine) None = (Some unpacked, None)) as Hyps.
  { split_and!; [reflexivity|reflexivity|by vm_compute|reflexivity]. }
  split; [exact Hyps|]. destruct Hyps as (H1 & H2 & H3 & H4).
  exact (fresh_install_repairs_the_unpacked_directory (host false true engine_fine)
           None (Some unpacked) H1 H2 H3 H4).
Defined.

(** X4, witness: the network is down. *)
Lemma failed_download_witness :
  let w := host false false engine_fine in
  let r := InstallLatex.installTinyTeX w None in
  outcome (fetch w None) = Throw "getaddrinfo ENOTFOUND github.com"
  /\ (outcome r = Ret false
      /\ final r = None
      /\ EvStdout ("[tex2pdf-setup] Error installing TinyTeX: "
                   +:+ "getaddrinfo ENOTFOUND github.com") ∈ events r
      /\ Forall (fun e => is_repair e = false /\ forall url, e <> EvExtract url) (events r)).
Proof.
  assert (outcome (fetch (host false false engine_fine) None)
          = Throw "getaddrinfo ENOTFOUND github.com") as Hyp by reflexivity.
  split; [exact Hyp|].
  exact (failed_download_changes_nothing (host false false engine_fine) None _ Hyp).
Defined.

(** X5, witness: the archive arrives and does not unpack. *)
Lemma failed_extraction_witness :
  let w := host_partial in
  let r := InstallLatex.installTinyTeX w None in
  (outcome (fetch w None) = Ret tt
   /\ extract w None = (Some ({["xelatex" := File]} : dir),
                        Some "TAR_BAD_ARCHIVE: Unrecognized archive format"))
  /\ (outcome r = Ret false
      /\ final r = Some ({["xelatex" := File]} : dir)
      /\ EvStdout ("[tex2pdf-setup] Error installing TinyTeX: "
                   +:+ "TAR_BAD_ARCHIVE: Unrecognized archive format") ∈ events r
      /\ Forall (fun e => is_repair e = false) (events r)).
Proof.
  assert (outcome (fetch host_partial None) = Ret tt
          /\ extract host_partial None
             = (Some ({["xelatex" := File]} : dir),
                Some "TAR_BAD_ARCHIVE: Unrecognized archive format")) as Hyps.
  { split; [by vm_compute|reflexivity]. }
  split; [exact Hyps|]. destruct Hyps as [H1 H2].
  exact (failed_extraction_is_not_undone host_partial None _ _ H1 H2).
Defined.

(** X6, witness: one redirect, as GitHub answers for a release asset. *)
Lemma downloadFile_redirect_witness :
  let hops := [Response 302 "https://objects.githubusercontent.com/TinyTeX.tar.gz" None [] None] in
  let rest := [Response 200 EmptyString (Some "4096") (repeat (repeat Byte.x00 512) 8) None] in
  let r := InstallLatex.downloadFile (redirected archive_url hops) rest None in
  Forall (fun answer => is_redirect answer = true) hops
  /\ InstallLatex.downloadFile archive_url (hops ++ rest) None
     = (outcome r, final r, redirect_events archive_url hops ++ events r).
Proof.
  assert (Forall (fun answer => is_redirect answer = true)
            [Response 302 "https://objects.githubusercontent.com/TinyTeX.tar.gz" None [] None])
    as Hyp.
  { by repeat constructor. }
  split; [exact Hyp|].
  exact (downloadFile_follows_redirects _ archive_url _ None Hyp).
Defined.

(** X9, witness: a system LaTeX in /usr/bin. *)
Lemma system_latex_witness :
  let w := host true true engine_fine in
  let out := "/usr/bin/pdflatex" +:+ Cli.nl in
  (exec w WHICH = Some out
   /\ truthy (trim out) = true
   /\ truthy (path_dirname (trim out)) = true)
  /\ FindLatex.getLaTeXPath w (Some unpacked) =
     (Ret (Some {| FindLatex.path := path_dirname (trim out); FindLatex.type := "system" |}),
      Some unpacked, [EvExec WHICH]).
Proof.
  assert (exec (host true true engine_fine) WHICH = Some ("/usr/bin/pdflatex" +:+ Cli.nl)
          /\ truthy (trim ("/usr/bin/pdflatex" +:+ Cli.nl)) = true
          /\ truthy (path_dirname (trim ("/usr/bin/pdflatex" +:+ Cli.nl))) = true) as Hyps.
  { split_and!; by vm_compute. }
  split; [exact Hyps|]. destruct Hyps as (H1 & H2 & H3).
  exact (system_latex_is_preferred (host true true engine_fine) _ (Some unpacked) H1 H2 H3).
Defined.

(** X10, witness: no system LaTeX. *)
Lemma vendored_latex_witness :
  let w := host false true engine_fine in
  let s := Some (repair w unpacked) in
  (exec w WHICH = None \/ (exists out, exec w WHICH = Some out /\ trim out = EmptyString))
  /\ FindLatex.getLaTeXPath w s =
     (Ret (if vendored_has w s (exe w "pdflatex")
           then Some {| FindLatex.path := InstallLatex.getTinyTeXBinPath w;
                        FindLatex.type := "tinytex" |}
           else None),
      s, [EvExec WHICH]).
Proof.
  assert (exec (host false true engine_fine) WHICH = None
          \/ (exists out, exec (host false true engine_fine) WHICH = Some out
                          /\ trim out = EmptyString)) as Hyp.
  { by left. }
  split; [exact Hyp|].
  exact (vendored_latex_is_the_fallback (host false true engine_fine) _ Hyp).
Defined.

(** X13, witness: nothing is installed: [ensureLaTeX] installs and then finds the
    vendored LaTeX. *)
Lemma ensureLaTeX_ready_witness :
  let w := host false true engine_fine in
  let s' := final (Cli.ensureLaTeX w None) in
  outcome (Cli.ensureLaTeX w None) = Ret true
  /\ (is_Some (location w s')
      /\ (forall engine, exists cmd,
            outcome (FindLatex.getEnginePath w engine s') = Ret (Some cmd))).
Proof.
  assert (outcome (Cli.ensureLaTeX (host false true engine_fine) None) = Ret true) as Hyp.
  { by vm_compute. }
  split; [exact Hyp|].
  exact (ensureLaTeX_ready_is_located (host false true engine_fine) None Hyp).
Defined.

(** X14, witness: a help flag after an input and an install flag. *)
Lemma help_witness :
  let w := host false true engine_fine in
  let args := ["paper.tex"; "--install"; "-h"] in
  (args = [] \/ ("--help" ∈ args) \/ ("-h" ∈ args))
  /\ Cli.main w args None = (Exit 0, None, [EvStdout Cli.usage]).
Proof.
  assert (["paper.tex"; "--install"; "-h"] = []
          \/ ("--help" ∈ ["paper.tex"; "--install"; "-h"])
          \/ ("-h" ∈ ["paper.tex"; "--install"; "-h"])) as Hyp.
  { right. right. decide_by_compute. }
  split; [exact Hyp|].
  exact (help_is_answered_first (host false true engine_fine) _ None Hyp).
Defined.

(** X15, witness: nothing is installed and the network is down. *)
Lemma failed_installation_witness :
  let w := host false false engine_fine in
  let args := ["paper.tex"] in
  (args <> [] /\ ("--help" ∉ args) /\ ("-h" ∉ args) /\ ("--install" ∉ args)
   /\ location w None = None
   /\ outcome (Cli.runInstallScript w None) = Throw "Installation failed")
  /\ Cli.main w args None =
     (Exit 1, final (Cli.runInstallScript w None),
      EvExec WHICH :: events (Cli.runInstallScript w None) ++ guidance).
Proof.
  assert (["paper.tex"] <> []
          /\ ("--help" ∉ ["paper.tex"]) /\ ("-h" ∉ ["paper.tex"])
          /\ ("--install" ∉ ["paper.tex"])
          /\ location (host false false engine_fine) None = None
          /\ outcome (Cli.runInstallScript (host false false engine_fine) None)
             = Throw "Installation failed") as Hyps.
  { split_and!; [discriminate|decide_by_compute..|reflexivity|by vm_compute]. }
  split; [exact Hyps|]. destruct Hyps as (H1 & H2 & H3 & H4 & H5 & H6).
  exact (failed_installation_ends_main (host false false engine_fine) ["paper.tex"] None _
           H1 H2 H3 H4 H5 H6).
Defined.

(** X16, witness: the flag of the usage text. *)
Lemma engine_flag_witness :
  let w := host true true engine_fine in
  let acc := {| Cli.outputFile := Some "out.pdf"; Cli.engine := "xelatex" |} in
  includes "=" "lualatex" = false
  /\ Cli.parse_arg acc ("--engine=" +:+ "lualatex") None =
     (Ret {| Cli.outputFile := Cli.outputFile acc; Cli.engine := "lualatex" |}, None, []).
Proof.
  assert (includes "=" "lualatex" = false) as Hyp by reflexivity.
  split; [exact Hyp|].
  exact (engine_flag_sets_the_engine
           {| Cli.outputFile := Some "out.pdf"; Cli.engine := "xelatex" |} "lualatex" None Hyp).
Defined.

(** X17, witness: two engine flags and two output paths. *)
Lemma arguments_witness :
  let w := host true true engine_fine in
  let rest := ["--engine=pdflatex"; "out.pdf"; "other.pdf"; "--engine=lualatex"] in
  (("paper.tex" ∉ ["--help"; "-h"; "--install"])
   /\ ("-h" ∉ rest)
   /\ Forall (fun arg => unknown_flag arg = false) rest)
  /\ Cli.main w ("paper.tex" :: rest) None =
     (latexReady <- Cli.ensureLaTeX w ;;
      (if negb latexReady then process_exit 1 else ret tt) ;;
      Cli.run_conversion w "paper.tex"
        (default (Cli.default_output "paper.tex") (chosen_output rest))
        (chosen_engine rest "xelatex")) None.
Proof.
  assert (("paper.tex" ∉ ["--help"; "-h"; "--install"])
          /\ ("-h" ∉ ["--engine=pdflatex"; "out.pdf"; "other.pdf"; "--engine=lualatex"])
          /\ Forall (fun arg => unknown_flag arg = false)
               ["--engine=pdflatex"; "out.pdf"; "other.pdf"; "--engine=lualatex"]) as Hyps.
  { split_and!; [decide_by_compute..|by repeat constructor]. }
  split; [exact Hyps|]. destruct Hyps as (H1 & H2 & H3).
  exact (arguments_choose_output_and_engine (host true true engine_fine) "paper.tex" _ None
           H1 H2 H3).
Defined.

(** What the arguments of the run above choose. *)
Example arguments_chosen :
  let rest := ["--engine=pdflatex"; "out.pdf"; "other.pdf"; "--engine=lualatex"] in
  chosen_output rest = Some "out.pdf" /\ chosen_engine rest "xelatex" = "lualatex".
Proof. by vm_compute. Qed.

(** X18, witness: a conversion that succeeds. *)
Lemma main_returns_witness :
  let w := host true true engine_fine in
  let r := Cli.main w ["paper.tex"] None in
  outcome r = Ret tt
  /\ exists inputFile rest outputFile,
       ["paper.tex"] = inputFile :: rest
       /\ path_exists w inputFile = true
       /\ EvOpenWrite outputFile ∈ events r
       /\ last (events r) = Some (EvStdout ("Created: " +:+ outputFile))
       /\ exists cmd, last (engine_runs (events r)) = Some cmd
                      /\ latex w cmd inputFile = None.
Proof.
  assert (outcome (Cli.main (host true true engine_fine) ["paper.tex"] None) = Ret tt) as Hyp.
  { by vm_compute. }
  split; [exact Hyp|].
  exact (main_returns_after_a_conversion (host true true engine_fine) ["paper.tex"] None Hyp).
Defined.

(** X20, witness: the engine run ends on a failed command. *)
Lemma failed_conversion_witness :
  let w := host true true command_fails in
  let r := Cli.run_conversion w "paper.tex" "paper.pdf" "xelatex" None in
  outcome (Cli.convertFile w "paper.tex" "paper.pdf" "xelatex" None)
  = Throw "Command failed: /usr/bin/xelatex"
  /\ List.filter is_stderr (events r) =
     if String.eqb "xelatex" "pdflatex" && includes "Font" "Command failed: /usr/bin/xelatex" then
       match outcome (Cli.convertFile w "paper.tex" "paper.pdf" "xelatex" None) with
       | Throw fallbackMessage =>
           [EvStderr (Cli.nl +:+ "Conversion failed with both engines:");
            EvStderr fallbackMessage]
       | _ => []
       end
     else
       [EvStderr (Cli.nl +:+ "Conversion failed:");
        EvStderr "Command failed: /usr/bin/xelatex"]
       ++ if includes "Command failed" "Command failed: /usr/bin/xelatex"
          then [EvStderr (Cli.nl +:+ "Tip: Your TeX file may have errors or missing packages.");
                EvStderr "  Check the file compiles with a LaTeX editor first."]
          else [].
Proof.
  assert (outcome (Cli.convertFile (host true true command_fails)
                     "paper.tex" "paper.pdf" "xelatex" None)
          = Throw "Command failed: /usr/bin/xelatex") as Hyp.
  { by vm_compute. }
  split; [exact Hyp|].
  exact (failed_conversion_report (host true true command_fails)
           "paper.tex" "paper.pdf" "xelatex" None _ Hyp).
Defined.

(** The package directory cannot be written and the script runs as a
    postinstall hook: the download dies, and the status is 1 although a
    failed installation would not be fatal. *)
Example postinstall_dies_with_the_download :
  let r := InstallLatex.main host_sealed None in
  isPostinstall host_sealed = true
  /\ outcome (fetch host_sealed None) = Exit 1
  /\ outcome r = Exit 1
  /\ last (events r) = Some (EvUncaught "EACCES: permission denied, open")
  /\ outcome (Cli.runInstallScript host_sealed None) = Throw "Installation failed".
Proof. by vm_compute. Qed.
